(** * PoUW CAPTCHA widget: shard inference engine, proof generator and session

    A shallow embedding of
      - [packages/widget/src/ml/shard-engine.ts]  (NeuralLayer, ShardInferenceEngine),
      - [packages/widget/src/utils/crypto.ts]     (sha256, hashData),
      - [packages/widget/src/core/session.ts]     (CaptchaSession),
      - [packages/widget/src/core/captcha.ts]     (PoUWCaptcha.waitForVerification),
      - the server-side sharding utility          (mergeShards),
    followed by the properties established about them.

    Conventions.  A JavaScript [number] is an IEEE-754 binary64 value, i.e. a
    primitive [float].  A [Float32Array] is the sequence of 32-bit patterns held
    by its buffer: reading an element widens the binary32 value to a number,
    writing one rounds the number to binary32 (round to nearest, ties to even).
    Reading past the end of an array gives [undefined], which every arithmetic
    use below converts to NaN.  Array lengths, shape entries and loop counters
    are natural numbers: a negative or fractional shape entry is outside the
    model.  JavaScript's arithmetic on them is exact below 2^53; an array
    whose length is computed from shapes is created only within the host's
    limit, itself below 2^53, and the constructor throws a RangeError beyond
    it.  Exceptions are explicit results. *)

From Stdlib Require Import ZArith QArith Qabs Lia List Sorted Permutation String Ascii Bool Arith.
From Stdlib Require Import Floats DecimalString.
Import ListNotations.

Set Warnings "-inexact-float".
Close Scope Q_scope.

(** ** JavaScript values *)

Module JS.

Definition number := float.

(** [ToNumber(undefined)]. *)
Definition undefined_number : number := nan.

Inductive Exception :=
| Error (message : string)           (* throw new Error(message) *)
| RangeError (message : string)      (* typed-array construction *)
| InvalidCharacterError.             (* DOMException raised by atob *)

Inductive Completion (A : Type) :=
| Normal (a : A)
| Throw (e : Exception).
Arguments Normal {A} a.
Arguments Throw {A} e.

Definition bind {A B} (c : Completion A) (k : A -> Completion B) : Completion B :=
  match c with
  | Normal a => k a
  | Throw e => Throw e
  end.

(** [for (let i = 0; i < n; i++) acc = body(i, acc)]. *)
Definition for_loop {A} (n : nat) (body : nat -> A -> A) (init : A) : A :=
  fold_left (fun acc i => body i acc) (seq 0 n) init.

(** The number [n] of a natural counter (exact below 2^53). *)
Definition of_nat (n : nat) : number :=
  SF2Prim (binary_normalize prec emax (Z.of_nat n) 0 false).

(** The number of an integer (exact for magnitudes below 2^53). *)
Definition of_Z (z : Z) : number :=
  SF2Prim (binary_normalize prec emax z 0 false).

(** [Math.round]: the nearest integer, halves going up; the sign of zero is kept. *)
Definition Math_round (x : number) : number :=
  match Prim2SF x with
  | S754_finite s m e =>
      if (0 <=? e)%Z then x
      else
        let d := (2 ^ (- e))%Z in
        let n := ((2 * (if s then Zneg m else Zpos m) + d) / (2 * d))%Z in
        if (n =? 0)%Z then (if s then neg_zero else zero) else of_Z n
  | _ => x
  end.

(** [n.toString()] and [`${n}`] for a natural number. *)
Definition nat_toString (n : nat) : string :=
  NilZero.string_of_uint (Nat.to_uint n).

End JS.

(** ** Float32Array *)

Module F32.

Import JS.

(** Rounding of a binary64 value to binary32 (to nearest, ties to even). *)
Definition SFround32 (x : spec_float) : spec_float :=
  match x with
  | S754_finite s m e => binary_normalize 24 128 (if s then Zneg m else Zpos m) e s
  | _ => x
  end.

Definition sign_bit (s : bool) : Z := if s then 0x80000000%Z else 0%Z.

(** The 32-bit pattern written when the number [x] is stored in an element.
    The language leaves the encoding of NaN to the implementation; the quiet
    NaN 0x7FC00000 is taken here. *)
Definition bits (x : number) : Z :=
  match SFround32 (Prim2SF x) with
  | S754_zero s => sign_bit s
  | S754_infinity s => (sign_bit s + 0x7F800000)%Z
  | S754_nan => 0x7FC00000%Z
  | S754_finite s m e =>
      (sign_bit s +
       (if (Zpos m <? 0x800000)%Z then Zpos m
        else (e + 150) * 0x800000 + (Zpos m - 0x800000)))%Z
  end.

(** The number read from an element holding the pattern [w]. *)
Definition value (w : Z) : number :=
  let s := Z.testbit w 31 in
  let E := Z.land (Z.shiftr w 23) 0xFF in
  let M := Z.land w 0x7FFFFF in
  SF2Prim
    (if (E =? 255)%Z then (if (M =? 0)%Z then S754_infinity s else S754_nan)
     else if (E =? 0)%Z then
       match M with
       | Zpos p => S754_finite s p (-149)
       | _ => S754_zero s
       end
     else
       match (M + 0x800000)%Z with
       | Zpos p => S754_finite s p (E - 150)
       | _ => S754_nan
       end).


Definition t := list Z.

(** The elements of an array of length [n] as it is created: [n] zeros.
    Whether [new Float32Array(n)] creates it is for the host to say (see
    [new_Float32Array] below). *)
Definition make (n : nat) : t := repeat 0%Z n.

(** [new Float32Array(numbers)]. *)
Definition from (l : list number) : t := map bits l.

(** [a[i]] in an arithmetic context. *)
Definition get (a : t) (i : nat) : number :=
  match nth_error a i with
  | Some w => value w
  | None => undefined_number
  end.

Fixpoint update (a : t) (i : nat) (w : Z) : t :=
  match a, i with
  | [], _ => []
  | _ :: r, O => w :: r
  | x :: r, S j => x :: update r j w
  end.

(** [a[i] = x]; a write past the end of a typed array is ignored. *)
Definition set (a : t) (i : nat) (x : number) : t := update a i (bits x).

(** [a.map(f)]: a new array of the same length. *)
Definition map_elements (f : number -> number) (a : t) : t :=
  List.map (fun w => bits (f (value w))) a.

(** The numbers held by an array. *)
Definition values (a : t) : list number := List.map value a.

End F32.

Definition Float32Array := F32.t.

(** ** Wire types ([types.ts]) *)

Module NeuralLayerConfig.
Record t := {
  name : string;
  type : string;
  weights : list JS.number;
  biases : list JS.number;
  inputShape : list nat;
  outputShape : list nat;
  activation : string
}.
End NeuralLayerConfig.

Module ModelShard.
Record t := {
  index : Z;
  name : string;
  layerType : string;
  inputShape : list nat;
  outputShape : list nat;
  layers : list NeuralLayerConfig.t
}.
End ModelShard.

Module Prediction.
Record entry := { entry_label : string; entry_confidence : JS.number }.
Record t := {
  label : string;
  confidence : JS.number;
  topK : list entry
}.
End Prediction.

Inductive Difficulty := easy | medium | hard.

Module ShardTask.
Record t := {
  taskId : string;
  sampleId : string;
  modelName : string;
  modelVersion : string;
  shards : list ModelShard.t;
  inputData : string;
  inputShape : list nat;
  expectedLayers : nat;
  difficulty : Difficulty;
  expectedTimeMs : JS.number;
  groundTruthKey : string;
  labels : list string;
  (* whether an [onProgress] callback is attached; its calls are recorded
     in the world's [progress_log] *)
  onProgress : bool
}.
End ShardTask.

Module InferenceProof.
Record t := {
  taskId : string;
  sampleId : string;
  layerCount : nat;
  outputHashes : list string;
  predictionHash : string;
  proofHash : string;
  timestamp : JS.number
}.
End InferenceProof.

(** ** The host platform

    Functions of the browser that the code calls and that are not part of the
    repository.  [Math_exp] and [Math_tanh] are implementation-approximated;
    [atob] returns [None] where the browser raises InvalidCharacterError;
    [digest_SHA256] is [crypto.subtle.digest('SHA-256', _)].
    [Float32Array_max_length] is the longest array that
    [new Float32Array(n)] creates for a length [n] computed from the shapes
    of a layer: beyond it the constructor throws a RangeError.  The limit
    differs from host to host; it is at most 2^53 - 1, the largest length
    that the language accepts, and every host is taken to create arrays of
    up to 65536 elements.  An array as long as one that exists already (a
    copy, the result of [map]) is taken to be created. *)

Class Platform := {
  Math_exp : JS.number -> JS.number;
  Math_tanh : JS.number -> JS.number;
  atob : string -> option string;
  digest_SHA256 : list Byte.byte -> list Byte.byte;
  JSON_stringify : Prediction.t -> string;
  Float32Array_max_length : N;
  Float32Array_max_length_range :
    (65536 <= Float32Array_max_length <= 9007199254740991)%N
}.

(** [new Float32Array(n)] for a length [n] that is a natural number: the
    array of [n] zeros, or a RangeError when the host does not create an
    array that long. *)
Definition new_Float32Array `{Platform} (n : nat) : JS.Completion Float32Array :=
  if (N.of_nat n <=? Float32Array_max_length)%N then JS.Normal (F32.make n)
  else JS.Throw (JS.RangeError ("Invalid typed array length: " ++ JS.nat_toString n)).

(** The clocks and the observable calls made on the outside.  A call
    [onProgress((i + 1) / n)] is recorded as the fraction [(i + 1) # n], whose
    quotient is the number that the callback receives; the callback is taken
    to return. *)
Record World := {
  performance_now : nat -> JS.number;   (* the k-th reading of a clock *)
  Date_now : nat -> JS.number;
  ticks : nat;                          (* clock readings made so far *)
  progress_log : list Q                 (* arguments of onProgress, oldest first *)
}.

Definition tick (w : World) : World :=
  {| performance_now := performance_now w; Date_now := Date_now w;
     ticks := S (ticks w); progress_log := progress_log w |}.

Definition read_performance_now (w : World) : JS.number * World :=
  (performance_now w (ticks w), tick w).

Definition read_Date_now (w : World) : JS.number * World :=
  (Date_now w (ticks w), tick w).

Definition report_progress (q : Q) (w : World) : World :=
  {| performance_now := performance_now w; Date_now := Date_now w;
     ticks := ticks w; progress_log := progress_log w ++ [q] |}.

(** ** NeuralLayer ([shard-engine.ts]) *)

Module NeuralLayer.

Import JS.
Local Open Scope float_scope.

Record t := {
  name : string;
  type : string;
  weights : Float32Array;
  biases : Float32Array;
  inputShape : list nat;
  outputShape : list nat;
  activation : string;
  lastExecutionTime : number
}.

(** [new NeuralLayer(config)]. *)
Definition new (config : NeuralLayerConfig.t) : t :=
  {| name := NeuralLayerConfig.name config;
     type := NeuralLayerConfig.type config;
     weights := F32.from (NeuralLayerConfig.weights config);
     biases := F32.from (NeuralLayerConfig.biases config);
     inputShape := NeuralLayerConfig.inputShape config;
     outputShape := NeuralLayerConfig.outputShape config;
     activation := NeuralLayerConfig.activation config;
     lastExecutionTime := 0 |}.

Definition set_lastExecutionTime (L : t) (ms : number) : t :=
  {| name := name L; type := type L; weights := weights L; biases := biases L;
     inputShape := inputShape L; outputShape := outputShape L;
     activation := activation L; lastExecutionTime := ms |}.

(** [shape[k]]: [None] is [undefined]. *)
Definition dim (shape : list nat) (k : nat) : option nat := nth_error shape k.

(** [shape[shape.length - 1]]. *)
Definition last_dim (shape : list nat) : option nat :=
  nth_error shape (List.length shape - 1).

(** A loop guard [i < n] and the length of [new Float32Array(n)] when [n] may
    be [undefined]: the guard is then false and the array is empty. *)
Definition bound (n : option nat) : nat :=
  match n with
  | Some k => k
  | None => O
  end.

(** [Math.max(a, b)]. *)
Definition Math_max (a b : number) : number :=
  if is_nan a || is_nan b then nan
  else if a <? b then b
  else if b <? a then a
  else if get_sign a then b else a.

(** [a[x]] for a number [x]: an element only when [x] is an integer index
    within the array. *)
Definition get_at_number (a : Float32Array) (x : number) : number :=
  let at_Z (z : Z) :=
    if (z <? Z.of_nat (List.length a))%Z then F32.get a (Z.to_nat z) else undefined_number in
  match Prim2SF x with
  | S754_zero _ => at_Z 0%Z
  | S754_finite false m e =>
      if (0 <=? e)%Z then
        (* guard first: the index is only built when it can be in range *)
        if (e <? 64)%Z then at_Z (Zpos m * 2 ^ e)%Z else undefined_number
      else if (Zpos m mod 2 ^ (- e) =? 0)%Z then at_Z (Zpos m / 2 ^ (- e))%Z
      else undefined_number
  | _ => undefined_number
  end.

(** Number of iterations of [for (let k = 0; k < x; k++)] for a number [x];
    [fuel] bounds the search. *)
Fixpoint iterations_below (x : number) (fuel k : nat) : nat :=
  match fuel with
  | O => k
  | S f => if of_nat k <? x then iterations_below x f (S k) else k
  end.

Section Passes.
Context `{Platform}.

(** Dense/fully connected forward pass. *)
Definition denseForward (L : t) (input : Float32Array) : Completion Float32Array :=
  let inputSize := last_dim (inputShape L) in
  let outputSize := last_dim (outputShape L) in
  bind (new_Float32Array (bound outputSize)) (fun output =>
  Normal (
  for_loop (bound outputSize) (fun o output =>
    let sum := F32.get (biases L) o in
    let sum :=
      for_loop (bound inputSize) (fun i sum =>
        sum + F32.get input i * F32.get (weights L) (o * bound inputSize + i))
        sum in
    F32.set output o sum) output)).

(** 2D convolution forward pass (stride 1, padding 0). *)
Definition conv2dForward (L : t) (input : Float32Array) : Completion Float32Array :=
  match dim (inputShape L) 0, dim (outputShape L) 1,
        dim (outputShape L) 2, dim (outputShape L) 3 with
  | Some batch, Some outHeight, Some outWidth, Some outChannels =>
      bind (new_Float32Array (batch * outHeight * outWidth * outChannels)) (fun output =>
      Normal (
      for_loop batch (fun b =>
      for_loop outChannels (fun oc =>
      for_loop outHeight (fun oh =>
      for_loop outWidth (fun ow output =>
        let sum := F32.get (biases L) oc in
        let sum :=
          match dim (inputShape L) 1, dim (inputShape L) 2, dim (inputShape L) 3 with
          | Some inHeight, Some inWidth, Some inChannels =>
              let kernelSize :=
                sqrt (of_nat (List.length (weights L)) / of_nat (outChannels * inChannels)) in
              let taps := iterations_below kernelSize (List.length (weights L)) 0 in
              for_loop inChannels (fun ic =>
              for_loop taps (fun kh =>
              for_loop taps (fun kw sum =>
                let ih := (oh + kh)%nat in
                let iw := (ow + kw)%nat in
                if (ih <? inHeight)%nat && (iw <? inWidth)%nat then
                  let inputIdx := (((b * inHeight + ih) * inWidth + iw) * inChannels + ic)%nat in
                  let weightIdx :=
                    (of_nat (oc * inChannels + ic) * kernelSize + of_nat kh) * kernelSize
                    + of_nat kw in
                  sum + F32.get input inputIdx * get_at_number (weights L) weightIdx
                else sum))) sum
          | _, _, _ => sum   (* [ic < undefined] is false *)
          end in
        F32.set output (((b * outHeight + oh) * outWidth + ow) * outChannels + oc) sum))))
      output))
  | _, _, _, _ =>
      (* the length is NaN: an empty array is created, and no write is reached *)
      Normal (F32.make 0)
  end.

(** Max pooling forward pass (2x2 window, stride 2). *)
Definition maxPoolForward (L : t) (input : Float32Array) : Completion Float32Array :=
  match dim (inputShape L) 0, dim (inputShape L) 1,
        dim (inputShape L) 2, dim (inputShape L) 3 with
  | Some batch, Some inHeight, Some inWidth, Some channels =>
      let poolSize := 2%nat in
      let stride := 2%nat in
      let outHeight := (inHeight / stride)%nat in
      let outWidth := (inWidth / stride)%nat in
      bind (new_Float32Array (batch * outHeight * outWidth * channels)) (fun output =>
      Normal (
      for_loop batch (fun b =>
      for_loop channels (fun c =>
      for_loop outHeight (fun oh =>
      for_loop outWidth (fun ow output =>
        let maxVal :=
          for_loop poolSize (fun ph =>
          for_loop poolSize (fun pw maxVal =>
            let ih := (oh * stride + ph)%nat in
            let iw := (ow * stride + pw)%nat in
            let idx := (((b * inHeight + ih) * inWidth + iw) * channels + c)%nat in
            Math_max maxVal (F32.get input idx))) neg_infinity in
        F32.set output (((b * outHeight + oh) * outWidth + ow) * channels + c) maxVal))))
      output))
  | _, _, _, _ => Normal (F32.make 0)
  end.

(** Flatten layer: the data stays the same. *)
Definition flattenForward (L : t) (input : Float32Array) : Float32Array := input.

(** Softmax activation. *)
Definition softmax (data : Float32Array) : Float32Array :=
  let maxVal :=
    fold_left (fun maxVal i => if maxVal <? F32.get data i then F32.get data i else maxVal)
              (seq 1 (List.length data - 1)) (F32.get data 0) in
  let '(expData, sumExp) :=
    for_loop (List.length data) (fun i '(expData, sumExp) =>
      let expData := F32.set expData i (Math_exp (F32.get data i - maxVal)) in
      (expData, sumExp + F32.get expData i))
      (F32.make (List.length data), 0) in
  for_loop (List.length data) (fun i result =>
    F32.set result i (F32.get expData i / sumExp)) (F32.make (List.length data)).

(** Apply the activation function. *)
Definition applyActivation (L : t) (data : Float32Array) : Float32Array :=
  if String.eqb (activation L) "relu" then F32.map_elements (fun x => Math_max 0 x) data
  else if String.eqb (activation L) "softmax" then softmax data
  else if String.eqb (activation L) "sigmoid" then
    F32.map_elements (fun x => 1 / (1 + Math_exp (- x))) data
  else if String.eqb (activation L) "tanh" then F32.map_elements Math_tanh data
  else data.   (* 'linear' and default *)

(** The [switch] of [forward] followed by the activation. *)
Definition forward_output (L : t) (input : Float32Array) : Completion Float32Array :=
  bind
    (if String.eqb (type L) "conv2d" then conv2dForward L input
     else if String.eqb (type L) "dense" || String.eqb (type L) "fully_connected"
       then denseForward L input
     else if String.eqb (type L) "maxpool2d" then maxPoolForward L input
     else if String.eqb (type L) "flatten" then Normal (flattenForward L input)
     else Throw (Error ("Unsupported layer type: " ++ type L)%string))
    (fun output => Normal (applyActivation L output)).

(** [forward]: the output (or the exception), the layer with its
    [lastExecutionTime] updated, and the world after the clock readings. *)
Definition forward (L : t) (input : Float32Array) (w : World)
  : Completion Float32Array * t * World :=
  let '(startTime, w) := read_performance_now w in
  match forward_output L input with
  | Normal output =>
      let '(endTime, w) := read_performance_now w in
      (Normal output, set_lastExecutionTime L (endTime - startTime), w)
  | Throw e => (Throw e, L, w)
  end.

End Passes.

End NeuralLayer.

(** ** Bytes of a Float32Array (little-endian buffer) *)

Module Buffer.

Definition byte_of_Z (z : Z) : Byte.byte :=
  match Byte.of_N (Z.to_N (z mod 256)) with
  | Some b => b
  | None => Byte.x00
  end.

Definition Z_of_byte (b : Byte.byte) : Z := Z.of_N (Byte.to_N b).

(** The four bytes of one element, lowest first. *)
Definition word_bytes (w : Z) : list Byte.byte :=
  [byte_of_Z w; byte_of_Z (Z.shiftr w 8); byte_of_Z (Z.shiftr w 16); byte_of_Z (Z.shiftr w 24)].

(** [tensor.buffer.slice(tensor.byteOffset, tensor.byteOffset + tensor.byteLength)]. *)
Definition of_Float32Array (a : Float32Array) : list Byte.byte :=
  flat_map word_bytes a.

(** [new Float32Array(buffer)]: [None] when the byte length is not a
    multiple of 4 (a RangeError). *)
Fixpoint to_Float32Array (bytes : list Byte.byte) : option Float32Array :=
  match bytes with
  | [] => Some []
  | b0 :: b1 :: b2 :: b3 :: rest =>
      match to_Float32Array rest with
      | Some a =>
          Some ((Z_of_byte b0 + 256 * (Z_of_byte b1 + 256 * (Z_of_byte b2 + 256 * Z_of_byte b3)))%Z
                  :: a)
      | None => None
      end
  | _ => None
  end.

End Buffer.

(** ** Cryptographic utilities ([utils/crypto.ts]) *)

Module Crypto.

(** [TextEncoder.encode]: strings are kept as their UTF-8 bytes. *)
Definition TextEncoder_encode (s : string) : list Byte.byte := list_byte_of_string s.

Definition hex_digit (n : N) : ascii :=
  if (n <? 10)%N then ascii_of_N (48 + n) else ascii_of_N (87 + n).

(** [b.toString(16).padStart(2, '0')]. *)
Definition hex_byte (b : Byte.byte) : string :=
  let n := Byte.to_N b in
  String (hex_digit (n / 16)) (String (hex_digit (n mod 16)) EmptyString).

(** [hashArray.map(...).join('')]. *)
Definition hex (bytes : list Byte.byte) : string :=
  String.concat EmptyString (map hex_byte bytes).

(** The argument of [hashData]: [ArrayBuffer | string]. *)
Inductive data :=
| text (s : string)
| buffer (bytes : list Byte.byte).

Section WithPlatform.
Context `{Platform}.

(** Generate SHA-256 hash. *)
Definition sha256 (s : string) : string :=
  hex (digest_SHA256 (TextEncoder_encode s)).

(** Generate hash of arbitrary data. *)
Definition hashData (d : data) : string :=
  match d with
  | text s => sha256 s
  | buffer bytes => hex (digest_SHA256 bytes)
  end.

End WithPlatform.

End Crypto.

(** ** ShardInferenceEngine ([shard-engine.ts]) *)

Record Config := { debug : bool }.

Module ShardExecutionResult.
Record timing_t := { totalMs : JS.number; layerMs : list JS.number }.
Record t := {
  layerOutputs : list Float32Array;
  prediction : Prediction.t;
  proof : InferenceProof.t;
  timing : timing_t
}.
End ShardExecutionResult.

Module ShardInferenceEngine.

Import JS.
Local Open Scope float_scope.

(** The debug messages that the engine sends to the console are left out. *)
Record t := {
  config : Config;
  layers : list NeuralLayer.t
}.

(** [new ShardInferenceEngine(config)]. *)
Definition new (config : Config) : t := {| config := config; layers := [] |}.

Definition set_layers (self : t) (layers : list NeuralLayer.t) : t :=
  {| config := config self; layers := layers |}.

(** Load model shards for execution: every layer of every shard, pushed in
    the order of the two nested [for ... of] loops. *)
Definition loadShards (self : t) (shards : list ModelShard.t) : t :=
  set_layers self
    (fold_left
       (fun layers shard =>
          fold_left (fun layers layerConfig => layers ++ [NeuralLayer.new layerConfig])
                    (ModelShard.layers shard) layers)
       shards []).

(** [data.replace(/^data:.*;base64,/, '')]. *)
Definition is_line_terminator (s : string) : bool :=
  match s with
  | String c r =>
      Ascii.eqb c "010" || Ascii.eqb c "013"
      || String.prefix (String "226" (String "128" (String "168" EmptyString))) s   (* U+2028 *)
      || String.prefix (String "226" (String "128" (String "169" EmptyString))) s   (* U+2029 *)
  | EmptyString => false
  end.

Definition drop_string (n : nat) (s : string) : string :=
  String.substring n (String.length s - n) s.

(** What follows the last [;base64,] that [.*] can reach from the start of [s]. *)
Fixpoint after_last_marker (s : string) : option string :=
  match s with
  | EmptyString => None
  | String c r =>
      match (if is_line_terminator s then None else after_last_marker r) with
      | Some rest => Some rest
      | None => if String.prefix ";base64," s then Some (drop_string 8 s) else None
      end
  end.

Definition strip_data_url_prefix (data : string) : string :=
  if String.prefix "data:" data then
    match after_last_marker (drop_string 5 data) with
    | Some rest => rest
    | None => data
    end
  else data.

Section WithPlatform.
Context `{Platform}.

(** Decode base64 input data to Float32Array. *)
Definition decodeInput (self : t) (data : string) (_shape : list nat)
  : Completion Float32Array :=
  let base64Data := strip_data_url_prefix data in
  match atob base64Data with
  | None => Throw InvalidCharacterError
  | Some binaryString =>
      let bytes := list_byte_of_string binaryString in
      match Buffer.to_Float32Array bytes with
      | Some a => Normal a
      | None => Throw (RangeError "byte length of Float32Array should be a multiple of 4")
      end
  end.

(** Hash a tensor (Float32Array). *)
Definition hashTensor (self : t) (tensor : Float32Array) : string :=
  Crypto.hashData (Crypto.buffer (Buffer.of_Float32Array tensor)).

(** [labels[idx] || `class_${idx}`]: a missing or empty label is falsy. *)
Definition label_of (labels : list string) (idx : nat) : string :=
  match nth_error labels idx with
  | Some l => if String.eqb l EmptyString then ("class_" ++ nat_toString idx)%string else l
  | None => ("class_" ++ nat_toString idx)%string
  end.

(** [entries.sort((a, b) => b.val - a.val)], as a stable insertion sort: an
    entry moves in front of another only when the comparator is negative. *)
Fixpoint insert_entry (x : number * nat) (sorted : list (number * nat))
  : list (number * nat) :=
  match sorted with
  | [] => [x]
  | y :: rest =>
      if (fst y - fst x <? 0) then x :: y :: rest
      else y :: insert_entry x rest
  end.

Definition sort_entries (entries : list (number * nat)) : list (number * nat) :=
  fold_left (fun sorted x => insert_entry x sorted) entries [].

(** Generate prediction from output logits. *)
Definition generatePrediction (self : t) (output : Float32Array) (labels : list string)
  : Prediction.t :=
  let '(maxIdx, maxVal) :=
    fold_left
      (fun '(maxIdx, maxVal) i =>
         if maxVal <? F32.get output i then (i, F32.get output i) else (maxIdx, maxVal))
      (seq 1 (List.length output - 1)) (O, F32.get output 0) in
  let entries :=
    for_loop (List.length output) (fun i entries => entries ++ [(F32.get output i, i)]) [] in
  let entries := sort_entries entries in
  let topEntries := firstn (Nat.min 5 (List.length output)) entries in
  let topK :=
    map (fun '(val, idx) =>
           {| Prediction.entry_label := label_of labels idx;
              Prediction.entry_confidence := Math_round (val * 1000) / 1000 |})
        topEntries in
  {| Prediction.label := label_of labels maxIdx;
     Prediction.confidence := Math_round (maxVal * 1000) / 1000;
     Prediction.topK := topK |}.

(** Generate cryptographic proof of inference computation. *)
Definition generateProof (self : t) (taskId sampleId : string) (expectedLayers : nat)
           (layerOutputs : list Float32Array) (prediction : Prediction.t) (w : World)
  : InferenceProof.t * World :=
  let outputHashes :=
    fold_left (fun outputHashes output => outputHashes ++ [hashTensor self output])
              layerOutputs [] in
  let proofData :=
    String.concat ":"
      ([taskId; sampleId; nat_toString expectedLayers]
         ++ outputHashes ++ [JSON_stringify prediction]) in
  let proofHash := Crypto.hashData (Crypto.text proofData) in
  let predictionHash := Crypto.hashData (Crypto.text (JSON_stringify prediction)) in
  let '(now, w) := read_Date_now w in
  ({| InferenceProof.taskId := taskId;
      InferenceProof.sampleId := sampleId;
      InferenceProof.layerCount := List.length layerOutputs;
      InferenceProof.outputHashes := outputHashes;
      InferenceProof.predictionHash := predictionHash;
      InferenceProof.proofHash := proofHash;
      InferenceProof.timestamp := now |}, w).

(** The state of the layer loop of [executeShards]. *)
Record loop_state := {
  done_layers : list NeuralLayer.t;     (* layers already run, timings updated *)
  currentOutput : Float32Array;
  layerOutputs : list Float32Array;
  layerTimes : list number
}.

(** [for (let i = 0; i < this.layers.length; i++) { ... }], from index [i] on;
    [total] is [this.layers.length] and [todo] the layers from [i] on. *)
Fixpoint run_layers (onProgress : bool) (total i : nat) (todo : list NeuralLayer.t)
         (st : loop_state) (w : World)
  : Completion loop_state * list NeuralLayer.t * World :=
  match todo with
  | [] => (Normal st, done_layers st, w)
  | layer :: rest =>
      let '(layerStartTime, w) := read_performance_now w in
      match NeuralLayer.forward layer (currentOutput st) w with
      | (Normal output, layer', w) =>
          let '(layerEndTime, w) := read_performance_now w in
          let st' :=
            {| done_layers := done_layers st ++ [layer'];
               currentOutput := output;
               layerOutputs := layerOutputs st ++ [output];
               layerTimes := layerTimes st ++ [layerEndTime - layerStartTime] |} in
          let w :=
            if onProgress
            then report_progress (Z.of_nat (i + 1) # Pos.of_nat total) w
            else w in
          run_layers onProgress total (S i) rest st' w
      | (Throw e, layer', w) => (Throw e, done_layers st ++ layer' :: rest, w)
      end
  end.

(** Execute model shards on input data: the result (or the exception), the
    engine afterwards and the world afterwards. *)
Definition executeShards (self : t) (task : ShardTask.t) (w : World)
  : Completion ShardExecutionResult.t * t * World :=
  let '(totalStartTime, w) := read_performance_now w in
  let self := loadShards self (ShardTask.shards task) in
  match decodeInput self (ShardTask.inputData task) (ShardTask.inputShape task) with
  | Throw e => (Throw e, self, w)
  | Normal input =>
      let st0 := {| done_layers := []; currentOutput := input;
                    layerOutputs := []; layerTimes := [] |} in
      match run_layers (ShardTask.onProgress task) (List.length (layers self)) 0
                       (layers self) st0 w with
      | (Throw e, layers', w) => (Throw e, set_layers self layers', w)
      | (Normal st, layers', w) =>
          let self := set_layers self layers' in
          let prediction := generatePrediction self (currentOutput st) (ShardTask.labels task) in
          let '(proof, w) :=
            generateProof self (ShardTask.taskId task) (ShardTask.sampleId task)
                          (ShardTask.expectedLayers task) (layerOutputs st) prediction w in
          let '(totalEndTime, w) := read_performance_now w in
          (Normal
             {| ShardExecutionResult.layerOutputs := layerOutputs st;
                ShardExecutionResult.prediction := prediction;
                ShardExecutionResult.proof := proof;
                ShardExecutionResult.timing :=
                  {| ShardExecutionResult.totalMs := totalEndTime - totalStartTime;
                     ShardExecutionResult.layerMs := layerTimes st |} |},
           self, w)
      end
  end.

(** Dispose resources. *)
Definition dispose (self : t) : t := set_layers self [].

End WithPlatform.

End ShardInferenceEngine.

(** ** Model sharding utility (server side) *)

Module Sharding.

(** [[...shards].sort((a, b) => a.index - b.index)], a stable sort. *)
Fixpoint insert_shard (x : ModelShard.t) (sorted : list ModelShard.t) : list ModelShard.t :=
  match sorted with
  | [] => [x]
  | y :: rest =>
      if (ModelShard.index x - ModelShard.index y <? 0)%Z then x :: y :: rest
      else y :: insert_shard x rest
  end.

Definition sort_shards (shards : list ModelShard.t) : list ModelShard.t :=
  fold_left (fun sorted x => insert_shard x sorted) shards [].

(** Merge multiple shards back into a complete model. *)
Definition mergeShards (shards : list ModelShard.t) : list NeuralLayerConfig.t :=
  let sortedShards := sort_shards shards in
  fold_left (fun allLayers shard => allLayers ++ ModelShard.layers shard) sortedShards [].

End Sharding.

(** ** CaptchaSession ([core/session.ts]) *)

Inductive WidgetState := idle | loading | processing | verifying | success | error.

Definition WidgetState_eqb (a b : WidgetState) : bool :=
  match a, b with
  | idle, idle | loading, loading | processing, processing
  | verifying, verifying | success, success | error, error => true
  | _, _ => false
  end.

(** A state-change callback: a function object with its identity (the [Set]
    of listeners compares by reference) and whether a call with a given state
    returns or throws. *)
Record Listener := {
  listener_id : nat;
  throws : WidgetState -> bool
}.

(** What the session does on the outside. *)
Record Trace := {
  calls : list (nat * WidgetState);   (* listener called, with its argument; oldest first *)
  console_error : list nat            (* listeners whose exception was logged *)
}.

Definition no_trace : Trace := {| calls := []; console_error := [] |}.

Module CaptchaSession.

(** The fields read by the methods modelled below; the others ([task],
    [difficulty], [createdAt], the prediction, timing and proofs) are plain
    storage.  Listeners are taken to return or throw without touching the
    session. *)
Record t := {
  sessionId : string;
  challengeToken : string;
  expiresAt : option Z;               (* ms since the epoch; [None] is an Invalid Date *)
  _state : WidgetState;
  _verificationData : option string;  (* the verification id, when present *)
  _captchaToken : option string;
  _error : option string;             (* the message of the Error, when present *)
  stateListeners : list Listener      (* a Set, in insertion order *)
}.

Definition with_state (s : t) (st : WidgetState) : t :=
  {| sessionId := sessionId s; challengeToken := challengeToken s;
     expiresAt := expiresAt s; _state := st;
     _verificationData := _verificationData s; _captchaToken := _captchaToken s;
     _error := _error s; stateListeners := stateListeners s |}.

Definition with_listeners (s : t) (ls : list Listener) : t :=
  {| sessionId := sessionId s; challengeToken := challengeToken s;
     expiresAt := expiresAt s; _state := _state s;
     _verificationData := _verificationData s; _captchaToken := _captchaToken s;
     _error := _error s; stateListeners := ls |}.

(** [set captchaToken(value)]. *)
Definition set_captchaToken (s : t) (value : option string) : t :=
  {| sessionId := sessionId s; challengeToken := challengeToken s;
     expiresAt := expiresAt s; _state := _state s;
     _verificationData := _verificationData s; _captchaToken := value;
     _error := _error s; stateListeners := stateListeners s |}.

(** One call [listener(state)]: it is recorded, and returns or throws. *)
Definition call_listener (listener : Listener) (st : WidgetState) (tr : Trace)
  : JS.Completion unit * Trace :=
  let tr := {| calls := calls tr ++ [(listener_id listener, st)];
               console_error := console_error tr |} in
  if throws listener st
  then (JS.Throw (JS.Error "state listener failed"), tr)
  else (JS.Normal tt, tr).

(** Notify all state listeners: each is called with the current state inside
    its own [try]; the [catch] logs the exception and the loop goes on. *)
Definition notifyStateChange (s : t) (tr : Trace) : Trace :=
  fold_left
    (fun tr listener =>
       match call_listener listener (_state s) tr with
       | (JS.Normal _, tr) => tr
       | (JS.Throw _, tr) =>
           {| calls := calls tr;
              console_error := console_error tr ++ [listener_id listener] |}
       end)
    (stateListeners s) tr.

(** [get state()]. *)
Definition state (s : t) : WidgetState := _state s.

(** [set state(newState)]: set state and notify listeners. *)
Definition set_state (s : t) (newState : WidgetState) (tr : Trace) : t * Trace :=
  if negb (WidgetState_eqb (_state s) newState) then
    let s := with_state s newState in
    (s, notifyStateChange s tr)
  else (s, tr).

(** [set error(value)]. *)
Definition set_error (s : t) (value : option string) (tr : Trace) : t * Trace :=
  let s := {| sessionId := sessionId s; challengeToken := challengeToken s;
              expiresAt := expiresAt s; _state := _state s;
              _verificationData := _verificationData s; _captchaToken := _captchaToken s;
              _error := value; stateListeners := stateListeners s |} in
  match value with
  | Some _ => set_state s error tr
  | None => (s, tr)
  end.

(** Check if session is expired ([now] is the clock reading). *)
Definition isExpired (s : t) (now : Z) : bool :=
  match expiresAt s with
  | Some e => (e <=? now)%Z
  | None => false
  end.

(** Check if session is completed. *)
Definition isCompleted (s : t) : bool :=
  WidgetState_eqb (_state s) success
  && match _captchaToken s with Some _ => true | None => false end.

(** Check if verification is required. *)
Definition requiresVerification (s : t) : bool :=
  WidgetState_eqb (_state s) verifying
  && match _verificationData s with Some _ => true | None => false end.

(** Get time remaining in milliseconds; [None] is NaN. *)
Definition getTimeRemaining (s : t) (now : Z) : option Z :=
  match expiresAt s with
  | Some e => Some (Z.max 0 (e - now))
  | None => None
  end.

(** Subscribe to state changes: [Set.add]. *)
Definition onStateChange (s : t) (callback : Listener) : t :=
  if existsb (fun l => Nat.eqb (listener_id l) (listener_id callback)) (stateListeners s)
  then s
  else with_listeners s (stateListeners s ++ [callback]).

(** The function returned by [onStateChange]: [Set.delete]. *)
Definition unsubscribe (s : t) (callback : Listener) : t :=
  with_listeners s
    (filter (fun l => negb (Nat.eqb (listener_id l) (listener_id callback)))
            (stateListeners s)).

(** Clean up session. *)
Definition dispose (s : t) : t := with_listeners s [].

End CaptchaSession.

(** ** PoUWCaptcha.waitForVerification ([core/captcha.ts]) *)

Inductive CaptchaErrorCode :=
| NETWORK_ERROR | MODEL_LOAD_ERROR | INFERENCE_ERROR | TIMEOUT_ERROR
| VALIDATION_ERROR | SESSION_EXPIRED | INVALID_CONFIG | WEBGL_NOT_SUPPORTED
| UNKNOWN_ERROR.

Module PoUWCaptcha.

Record CaptchaResult := {
  token : string;
  result_expiresAt : option Z;
  result_sessionId : string;
  verificationPerformed : bool
}.

(** What the promise is rejected with: a [CaptchaError] made by
    [createError], or the session's own [Error]. *)
Inductive Rejection :=
| CaptchaError (code : CaptchaErrorCode) (message : string)
| SessionError (message : string).

Inductive Promise :=
| Pending
| Resolved (r : CaptchaResult)
| Rejected (e : Rejection).

(** [resolve] and [reject] settle a pending promise and do nothing otherwise. *)
Definition resolve (p : Promise) (r : CaptchaResult) : Promise :=
  match p with Pending => Resolved r | _ => p end.

Definition reject (p : Promise) (e : Rejection) : Promise :=
  match p with Pending => Rejected e | _ => p end.

(** The state of one wait: the promise and whether the polling interval is
    still armed. *)
Record Wait := { promise : Promise; interval_armed : bool }.

Definition start : Wait := {| promise := Pending; interval_armed := true |}.

Definition createError (code : CaptchaErrorCode) (message : string) : Rejection :=
  CaptchaError code message.

Definition createResult (session : CaptchaSession.t) (token : string)
           (expiresAt : option Z) (verificationPerformed : bool) : CaptchaResult :=
  {| token := token; result_expiresAt := expiresAt;
     result_sessionId := CaptchaSession.sessionId session;
     verificationPerformed := verificationPerformed |}.

(** One run of the [setInterval] callback, with [this.session] and the clock
    as they are at that moment. *)
Definition checkComplete (session : option CaptchaSession.t) (now : Z) (wt : Wait) : Wait :=
  match session with
  | None =>
      {| promise := reject (promise wt) (createError SESSION_EXPIRED "Session was disposed");
         interval_armed := false |}
  | Some s =>
      let wt :=
        if CaptchaSession.isCompleted s then
          {| promise :=
               resolve (promise wt)
                 (createResult s
                    (match CaptchaSession._captchaToken s with Some t => t | None => EmptyString end)
                    (CaptchaSession.expiresAt s) true);
             interval_armed := false |}
        else wt in
      let wt :=
        if WidgetState_eqb (CaptchaSession.state s) error then
          {| promise :=
               reject (promise wt)
                 (match CaptchaSession._error s with
                  | Some m => SessionError m
                  | None => createError UNKNOWN_ERROR "Verification failed"
                  end);
             interval_armed := false |}
        else wt in
      if CaptchaSession.isExpired s now then
        {| promise := reject (promise wt) (createError SESSION_EXPIRED "Session expired");
           interval_armed := false |}
      else wt
  end.

(** The [setTimeout] callback. *)
Definition onTimeout (session : option CaptchaSession.t) (wt : Wait) : Wait :=
  let completed :=
    match session with
    | Some s => CaptchaSession.isCompleted s
    | None => false
    end in
  {| promise :=
       if negb completed
       then reject (promise wt) (createError TIMEOUT_ERROR "Verification timeout")
       else promise wt;
     interval_armed := false |}.

(** The delay of the [setTimeout]:
    [this.session?.getTimeRemaining() || 60000]. *)
Definition timeout_delay (session : option CaptchaSession.t) (now : Z) : Z :=
  match session with
  | Some s =>
      match CaptchaSession.getTimeRemaining s now with
      | Some r => if (r =? 0)%Z then 60000%Z else r
      | None => 60000%Z
      end
  | None => 60000%Z
  end.

(** The polling period of the [setInterval]. *)
Definition poll_interval : Z := 100%Z.

(** What the event loop runs for one wait: polls (ignored once the interval
    is cleared) and the deadline timer, each with [this.session] and the
    clock as they are when it runs. *)
Inductive Event :=
| Poll (session : option CaptchaSession.t) (now : Z)
| Deadline (session : option CaptchaSession.t).

Definition step (wt : Wait) (ev : Event) : Wait :=
  match ev with
  | Poll session now => if interval_armed wt then checkComplete session now wt else wt
  | Deadline session => onTimeout session wt
  end.

Definition run (events : list Event) (wt : Wait) : Wait := fold_left step events wt.

End PoUWCaptcha.

(** ** Specification-side formulas *)

Module Spec.

Import JS.
Local Open Scope float_scope.



(** The [inputSize] and [outputSize] of [denseForward]. *)
Definition inputSize (L : NeuralLayer.t) : nat :=
  NeuralLayer.bound (NeuralLayer.last_dim (NeuralLayer.inputShape L)).

Definition outputSize (L : NeuralLayer.t) : nat :=
  NeuralLayer.bound (NeuralLayer.last_dim (NeuralLayer.outputShape L)).



Section WithPlatform.
Context `{Platform}.

(** The outputs of a sequence of layers run one after the other, each fed
    the output of the one before: one output per layer, in execution order. *)
Fixpoint layer_outputs (layers : list NeuralLayer.t) (input : Float32Array)
  : Completion (list Float32Array) :=
  match layers with
  | [] => Normal []
  | layer :: rest =>
      bind (NeuralLayer.forward_output layer input) (fun output =>
      bind (layer_outputs rest output) (fun outputs =>
      Normal (output :: outputs)))
  end.

(** The text whose digest is the proof hash. *)
Definition proof_text (taskId sampleId : string) (expectedLayers : nat)
           (outputHashes : list string) (prediction : Prediction.t) : string :=
  String.concat ":"
    ([taskId; sampleId; nat_toString expectedLayers]
       ++ outputHashes ++ [JSON_stringify prediction]).

End WithPlatform.

(** A poll that finds the session present, not completed, not in error and
    not expired: it leaves the wait as it is. *)
Definition uneventful (ev : PoUWCaptcha.Event) : Prop :=
  match ev with
  | PoUWCaptcha.Poll (Some s) now =>
      CaptchaSession.isCompleted s = false /\
      CaptchaSession.state s <> error /\
      CaptchaSession.isExpired s now = false
  | _ => False
  end.

(** Ascending shard index. *)
Definition index_le (a b : ModelShard.t) : Prop :=
  (ModelShard.index a <= ModelShard.index b)%Z.

(** The progress fractions of an [N]-layer run: (i+1)/N for i = 0 .. N-1. *)
Definition progress_values (N : nat) : list Q :=
  map (fun i => (Z.of_nat (i + 1) # Pos.of_nat N)%Q) (seq 0 N).

(** The same fractions as the numbers the callback receives. *)
Definition progress_numbers (N : nat) : list number :=
  map (fun i => of_nat (i + 1) / of_nat N) (seq 0 N).

(** A list of numbers is strictly increasing. *)
Fixpoint increasing (l : list number) : bool :=
  match l with
  | a :: (b :: _) as rest => (a <? b) && increasing rest
  | _ => true
  end.

End Spec.

(** ** Examples of the test suite and of the specification *)

Module Examples.

Import JS.
Local Open Scope float_scope.

(** The 4-to-2 dense layer of the dense-correctness example. *)
Definition dense_4_2 (activation : string) : NeuralLayerConfig.t :=
  {| NeuralLayerConfig.name := "dense_1";
     NeuralLayerConfig.type := "dense";
     NeuralLayerConfig.weights := [0.1; 0.2; 0.3; 0.4; 0.5; 0.6; 0.7; 0.8];
     NeuralLayerConfig.biases := [0.1; 0.1];
     NeuralLayerConfig.inputShape := [1; 4]%nat;
     NeuralLayerConfig.outputShape := [1; 2]%nat;
     NeuralLayerConfig.activation := activation |}.

Definition input_1234 : Float32Array := F32.from [1; 2; 3; 4].



(** A 2-to-2 dense layer that follows [dense_4_2]. *)
Definition dense_2_2 : NeuralLayerConfig.t :=
  {| NeuralLayerConfig.name := "dense_2";
     NeuralLayerConfig.type := "dense";
     NeuralLayerConfig.weights := [1; -1; 0.5; 0.25];
     NeuralLayerConfig.biases := [0; 1];
     NeuralLayerConfig.inputShape := [1; 2]%nat;
     NeuralLayerConfig.outputShape := [1; 2]%nat;
     NeuralLayerConfig.activation := "linear" |}.

Definition shard_0 : ModelShard.t :=
  {| ModelShard.index := 0;
     ModelShard.name := "shard_0";
     ModelShard.layerType := "dense";
     ModelShard.inputShape := [1; 4]%nat;
     ModelShard.outputShape := [1; 2]%nat;
     ModelShard.layers := [dense_4_2 "relu"] |}.

Definition shard_1 : ModelShard.t :=
  {| ModelShard.index := 1;
     ModelShard.name := "shard_1";
     ModelShard.layerType := "dense";
     ModelShard.inputShape := [1; 2]%nat;
     ModelShard.outputShape := [1; 2]%nat;
     ModelShard.layers := [dense_2_2] |}.

(** [btoa] of the bytes of [new Float32Array([1, 2, 3, 4])]. *)
Definition input_1234_base64 : string := "AACAPwAAAEAAAEBAAACAQA==".

(** A two-shard task over that input, with a progress callback. *)
Definition task (shards : list ModelShard.t) : ShardTask.t :=
  {| ShardTask.taskId := "test-task-1";
     ShardTask.sampleId := "sample-1";
     ShardTask.modelName := "test-model";
     ShardTask.modelVersion := "1.0";
     ShardTask.shards := shards;
     ShardTask.inputData := input_1234_base64;
     ShardTask.inputShape := [1; 4]%nat;
     ShardTask.expectedLayers := 2;
     ShardTask.difficulty := easy;
     ShardTask.expectedTimeMs := 100;
     ShardTask.groundTruthKey := "gt-key";
     ShardTask.labels := ["zero"%string; "one"%string];
     ShardTask.onProgress := true |}.

(** A session waiting for human verification, expiring at 5000 ms. *)
Definition session : CaptchaSession.t :=
  {| CaptchaSession.sessionId := "session-test-123";
     CaptchaSession.challengeToken := "challenge-abc";
     CaptchaSession.expiresAt := Some 5000%Z;
     CaptchaSession._state := verifying;
     CaptchaSession._verificationData := Some "verification-1"%string;
     CaptchaSession._captchaToken := None;
     CaptchaSession._error := None;
     CaptchaSession.stateListeners := [] |}.

(** Three observers; the second one throws on every call. *)
Definition observers : list Listener :=
  [ {| listener_id := 1; throws := fun _ => false |};
    {| listener_id := 2; throws := fun _ => true |};
    {| listener_id := 3; throws := fun _ => false |} ].

End Examples.

(** ** A reference platform

    A concrete host on which the model can be run: SHA-256 as in FIPS 180-4,
    [atob] as the forgiving base64 decoding of the HTML standard, [Math.exp]
    and [Math.tanh] by series (the language leaves their last digits to the
    implementation), and [JSON.stringify] of a prediction with numbers printed
    in their shortest round-trip form. *)

Module Reference.

Import JS.

(** *** SHA-256 *)

Module SHA256.

Local Open Scope N_scope.

Definition w32 (x : N) : N := N.land x 0xFFFFFFFF.
Definition add32 (x y : N) : N := w32 (x + y).
Definition rotr (n x : N) : N := N.lor (N.shiftr x n) (w32 (N.shiftl x (32 - n))).
Definition Ch (x y z : N) : N := N.lxor (N.land x y) (N.land (N.lxor x 0xFFFFFFFF) z).
Definition Maj (x y z : N) : N := N.lxor (N.lxor (N.land x y) (N.land x z)) (N.land y z).
Definition Sigma0 (x : N) : N := N.lxor (N.lxor (rotr 2 x) (rotr 13 x)) (rotr 22 x).
Definition Sigma1 (x : N) : N := N.lxor (N.lxor (rotr 6 x) (rotr 11 x)) (rotr 25 x).
Definition sigma0 (x : N) : N := N.lxor (N.lxor (rotr 7 x) (rotr 18 x)) (N.shiftr x 3).
Definition sigma1 (x : N) : N := N.lxor (N.lxor (rotr 17 x) (rotr 19 x)) (N.shiftr x 10).

(** The first primes, by trial division. *)
Fixpoint primes (fuel : nat) (candidate : N) (found : list N) (want : nat) : list N :=
  match fuel, want with
  | S f, S w =>
      if forallb (fun p => negb (candidate mod p =? 0)) found
      then primes f (candidate + 1) (found ++ [candidate]) w
      else primes f (candidate + 1) found want
  | _, _ => found
  end.

(** The integer cube root, one bit at a time. *)
Definition cube_root (n : N) : N :=
  fold_left (fun r b => let r' := r + N.shiftl 1 b in if r' * r' * r' <=? n then r' else r)
            (map N.of_nat (rev (seq 0 40))) 0.

(** The round constants: the first 32 bits of the fractional parts of the
    cube roots of the first 64 primes. *)
Definition K : list N :=
  Eval vm_compute in
    map (fun p => w32 (cube_root (N.shiftl p 96))) (primes 400 2 [] 64).

(** The initial hash value: the same of the square roots of the first 8 primes. *)
Definition H0 : list N :=
  Eval vm_compute in
    map (fun p => w32 (N.sqrt (N.shiftl p 64))) (primes 400 2 [] 8).

(** The message followed by 0x80, zeros, and its bit length on 8 bytes. *)
Definition pad (msg : list N) : list N :=
  let len := N.of_nat (List.length msg) in
  let zeros := N.to_nat ((119 - len mod 64) mod 64) in
  let bits := 8 * len in
  msg ++ [0x80] ++ repeat 0 zeros
      ++ map (fun i => N.land (N.shiftr bits (8 * (7 - N.of_nat i))) 0xFF) (seq 0 8).

Fixpoint words (bytes : list N) : list N :=
  match bytes with
  | b0 :: b1 :: b2 :: b3 :: rest =>
      (N.shiftl b0 24 + N.shiftl b1 16 + N.shiftl b2 8 + b3) :: words rest
  | _ => []
  end.

(** The message schedule, latest word first. *)
Fixpoint schedule (n : nat) (rev_w : list N) : list N :=
  match n with
  | O => rev_w
  | S k =>
      let w := add32 (add32 (sigma1 (nth 1 rev_w 0)) (nth 6 rev_w 0))
                     (add32 (sigma0 (nth 14 rev_w 0)) (nth 15 rev_w 0)) in
      schedule k (w :: rev_w)
  end.

Definition round (st : list N) (kw : N * N) : list N :=
  match st with
  | [a; b; c; d; e; f; g; h] =>
      let t1 := add32 (add32 (add32 h (Sigma1 e)) (add32 (Ch e f g) (fst kw))) (snd kw) in
      let t2 := add32 (Sigma0 a) (Maj a b c) in
      [add32 t1 t2; a; b; c; add32 d t1; e; f; g]
  | _ => st
  end.

Definition compress (h : list N) (block : list N) : list N :=
  let w := rev (schedule 48 (rev block)) in
  let st := fold_left round (combine K w) h in
  map (fun p => add32 (fst p) (snd p)) (combine h st).

Fixpoint blocks (fuel : nat) (ws : list N) (h : list N) : list N :=
  match fuel, ws with
  | S f, _ :: _ => blocks f (skipn 16 ws) (compress h (firstn 16 ws))
  | _, _ => h
  end.

Definition digest_words (msg : list N) : list N :=
  let ws := words (pad msg) in
  blocks (List.length ws) ws H0.

Definition digest (msg : list Byte.byte) : list Byte.byte :=
  flat_map
    (fun w => map (fun i => Buffer.byte_of_Z (Z.of_N (N.shiftr w (8 * (3 - N.of_nat i)))))
                  (seq 0 4))
    (digest_words (map Byte.to_N msg)).

End SHA256.

(** *** atob *)

Module Base64.

Local Open Scope N_scope.

Definition is_ascii_whitespace (c : ascii) : bool :=
  let n := N_of_ascii c in
  (n =? 9) || (n =? 10) || (n =? 12) || (n =? 13) || (n =? 32).

(** The value of a character of the base64 alphabet. *)
Definition sextet (c : ascii) : option N :=
  let n := N_of_ascii c in
  if (65 <=? n) && (n <=? 90) then Some (n - 65)
  else if (97 <=? n) && (n <=? 122) then Some (n - 71)
  else if (48 <=? n) && (n <=? 57) then Some (n + 4)
  else if n =? 43 then Some 62
  else if n =? 47 then Some 63
  else None.

Fixpoint sextets (cs : list ascii) : option (list N) :=
  match cs with
  | [] => Some []
  | c :: rest =>
      match sextet c, sextets rest with
      | Some v, Some vs => Some (v :: vs)
      | _, _ => None
      end
  end.

Definition char (n : N) : ascii := ascii_of_N (n mod 256).

Fixpoint decode_groups (vs : list N) : list ascii :=
  match vs with
  | a :: b :: c :: d :: rest =>
      let x := N.shiftl a 18 + N.shiftl b 12 + N.shiftl c 6 + d in
      char (N.shiftr x 16) :: char (N.shiftr x 8) :: char x :: decode_groups rest
  | [a; b; c] =>
      let x := N.shiftl a 10 + N.shiftl b 4 + N.shiftr c 2 in
      [char (N.shiftr x 8); char x]
  | [a; b] => [char (N.shiftl a 2 + N.shiftr b 4)]
  | _ => []
  end.

Definition strip_padding (cs : list ascii) : list ascii :=
  if (List.length cs mod 4 =? 0)%nat then
    match rev cs with
    | "="%char :: "="%char :: r => rev r
    | "="%char :: r => rev r
    | _ => cs
    end
  else cs.

Definition atob (data : string) : option string :=
  let cs := filter (fun c => negb (is_ascii_whitespace c)) (list_ascii_of_string data) in
  let cs := strip_padding cs in
  if (List.length cs mod 4 =? 1)%nat then None
  else
    match sextets cs with
    | Some vs => Some (string_of_list_ascii (decode_groups vs))
    | None => None
    end.

End Base64.

(** *** Math.exp and Math.tanh *)

Module Approx.

Local Open Scope float_scope.

(** The integer value of an integral number. *)
Definition to_Z (x : number) : Z :=
  match Prim2SF x with
  | S754_finite s m e =>
      let a := if (0 <=? e)%Z then (Zpos m * 2 ^ e)%Z else (Zpos m / 2 ^ (- e))%Z in
      if s then (- a)%Z else a
  | _ => 0%Z
  end.

Definition ln2_hi : number := 0x1.62e42feep-1.
Definition ln2_lo : number := 0x1.a39ef35793c76p-33.

(** [1 + r + r^2/2! + ... ] to [n] terms, by Horner's rule. *)
Fixpoint taylor (n : nat) (r : number) (k : number) : number :=
  match n with
  | O => 1
  | S n' => 1 + r / k * taylor n' r (k + 1)
  end.

Definition exp (x : number) : number :=
  if is_nan x then nan
  else if 709.782712893384 <? x then infinity
  else if x <? -745.2 then 0
  else
    let k := Math_round (x / (ln2_hi + ln2_lo)) in
    let r := (x - k * ln2_hi) - k * ln2_lo in
    Z.ldexp (taylor 18 r 1) (to_Z k).

Definition tanh (x : number) : number :=
  if is_nan x then nan
  else if abs x <? 0x1p-28 then x
  else if 22 <? abs x then (if x <? 0 then -1 else 1)
  else
    let t := exp (2 * abs x) in
    let y := (t - 1) / (t + 1) in
    if x <? 0 then - y else y.

End Approx.

(** *** JSON.stringify of a prediction *)

Module Json.

Local Open Scope Z_scope.

Definition pow10 (n : Z) : Q :=
  if 0 <=? n then inject_Z (10 ^ n) else (1 # Z.to_pos (10 ^ (- n)))%Q.

Definition pow2 (n : Z) : Q :=
  if 0 <=? n then inject_Z (2 ^ n) else (1 # Z.to_pos (2 ^ (- n)))%Q.

Definition Qfloor (q : Q) : Z := Qnum q / Zpos (Qden q).

(** The least [n] from [from] on with [v < 10^n]. *)
Fixpoint decimal_exponent (fuel : nat) (from : Z) (v : Q) : Z :=
  match fuel with
  | O => from
  | S f => if Qlt_le_dec v (pow10 from) then from else decimal_exponent f (from + 1) v
  end.

Definition Qabs_diff (a b : Q) : Q :=
  if Qlt_le_dec a b then (b - a)%Q else (a - b)%Q.

Definition Qleb (a b : Q) : bool := if Qlt_le_dec b a then false else true.
Definition Qltb (a b : Q) : bool := if Qlt_le_dec a b then true else false.

(** The digits [s] and the exponent [n] of the shortest decimal that reads
    back as the positive number of mantissa [m] and exponent [e]. *)
Fixpoint shortest (fuel : nat) (k : Z) (n0 : Z) (v lo hi : Q) (incl : bool) : Z * Z :=
  match fuel with
  | O => (0, 0)
  | S f =>
      let unit := pow10 (n0 - k) in
      let c1 := Qfloor (v / unit) in
      let c2 := c1 + 1 in
      let inside (c : Z) :=
        let d := (inject_Z c * unit)%Q in
        (10 ^ (k - 1) <=? c) &&
        (if incl then Qleb lo d && Qleb d hi else Qltb lo d && Qltb d hi) in
      let dist (c : Z) := Qabs_diff (inject_Z c * unit) v in
      let pick (c : Z) := if c =? 10 ^ k then (10 ^ (k - 1), n0 + 1) else (c, n0) in
      match inside c1, inside c2 with
      | true, true =>
          if Qltb (dist c1) (dist c2) then pick c1
          else if Qltb (dist c2) (dist c1) then pick c2
          else if Z.even c1 then pick c1 else pick c2
      | true, false => pick c1
      | false, true => pick c2
      | false, false => shortest f (k + 1) n0 v lo hi incl
      end
  end.

Definition digits (s : Z) : string := NilZero.string_of_uint (N.to_uint (Z.to_N s)).

Definition zeros (n : Z) : string := string_of_list_ascii (repeat "0"%char (Z.to_nat n)).

(** [Number::toString] for a positive finite number. *)
Definition positive_toString (m : positive) (e : Z) : string :=
  let v := (inject_Z (Zpos m) * pow2 e)%Q in
  let hi := (v + pow2 (e - 1))%Q in
  let lo := if (Zpos m =? 2 ^ 52) && (-1074 <? e) then (v - pow2 (e - 2))%Q
            else (v - pow2 (e - 1))%Q in
  let estimate := ((e + Z.log2 (Zpos m)) * 30103) / 100000 in
  let n0 := decimal_exponent 8 (estimate - 2) v in
  let '(s, n) := shortest 17 1 n0 v lo hi (Z.even (Zpos m)) in
  let ds := digits s in
  let k := Z.of_nat (String.length ds) in
  if (k <=? n) && (n <=? 21) then (ds ++ zeros (n - k))%string
  else if (0 <? n) && (n <=? 21) then
    (String.substring 0 (Z.to_nat n) ds ++ "." ++
     String.substring (Z.to_nat n) (Z.to_nat (k - n)) ds)%string
  else if (-6 <? n) && (n <=? 0) then ("0." ++ zeros (- n) ++ ds)%string
  else
    let ex := n - 1 in
    let exs := ((if (ex <? 0)%Z then "-" else "+") ++ digits (Z.abs ex))%string in
    if k =? 1 then (ds ++ "e" ++ exs)%string
    else (String.substring 0 1 ds ++ "." ++
          String.substring 1 (Z.to_nat (k - 1)) ds ++ "e" ++ exs)%string.

(** A number as JSON: [null] when it is not finite. *)
Definition number (x : JS.number) : string :=
  match Prim2SF x with
  | S754_zero _ => "0"
  | S754_finite s m e =>
      if s then ("-" ++ positive_toString m e)%string else positive_toString m e
  | _ => "null"
  end.

Definition dquote : string := String "034" EmptyString.

Definition escape (c : ascii) : string :=
  let n := N_of_ascii c in
  if (n =? 34)%N then ("\" ++ dquote)%string
  else if (n =? 92)%N then "\\"
  else if (n =? 8)%N then "\b"
  else if (n =? 9)%N then "\t"
  else if (n =? 10)%N then "\n"
  else if (n =? 12)%N then "\f"
  else if (n =? 13)%N then "\r"
  else if (n <? 32)%N then
    ("\u00" ++ String (Crypto.hex_digit (n / 16))
                       (String (Crypto.hex_digit (n mod 16)) EmptyString))%string
  else String c EmptyString.

Definition quote (s : string) : string :=
  (dquote ++ String.concat EmptyString (map escape (list_ascii_of_string s)) ++ dquote)%string.

(** A property name followed by a colon. *)
Definition key (name : string) : string := (dquote ++ name ++ dquote ++ ":")%string.

Definition entry (e : Prediction.entry) : string :=
  ("{" ++ key "label" ++ quote (Prediction.entry_label e)
   ++ "," ++ key "confidence" ++ number (Prediction.entry_confidence e) ++ "}")%string.

Definition stringify (p : Prediction.t) : string :=
  ("{" ++ key "label" ++ quote (Prediction.label p)
   ++ "," ++ key "confidence" ++ number (Prediction.confidence p)
   ++ "," ++ key "topK" ++ "[" ++ String.concat "," (map entry (Prediction.topK p))
   ++ "]}")%string.

End Json.

#[export] Instance platform : Platform := {|
  Math_exp := Approx.exp;
  Math_tanh := Approx.tanh;
  atob := Base64.atob;
  digest_SHA256 := SHA256.digest;
  JSON_stringify := Json.stringify;
  (* the limit of an engine that indexes typed arrays with 32 bits *)
  Float32Array_max_length := 4294967295;
  Float32Array_max_length_range :=
    conj (proj1 (N.leb_le 65536 4294967295) eq_refl)
         (proj1 (N.leb_le 4294967295 9007199254740991) eq_refl)
|}.

(** A world whose clocks stand still over the run (browsers coarsen their
    clocks, so that successive readings are often equal). *)
Definition world : World :=
  {| performance_now := fun _ => 1000%float;
     Date_now := fun _ => 1700000000000%float;
     ticks := 0;
     progress_log := [] |}.

Definition engine : ShardInferenceEngine.t :=
  ShardInferenceEngine.new {| debug := false |}.

End Reference.

(** * Further parts of the code

    The rest of the sharding utility ([shardModel], [createShardTask],
    [getLayerAllocation], [validateShard], [float32ArrayToBase64]), the
    proof-of-work functions of [utils/crypto.ts] ([generatePoWHash],
    [verifyPoWHash]), the runtime selection of [ml/engine.ts]
    ([selectRuntime], [getFallbackRuntime], [loadModel]) and the
    [PerformanceTimer] of [utils/timing.ts]. *)

(** ** Model sharding utility: [shardModel], [validateShard], [createShardTask] *)

Module ShardConfig.
(** [maxLayersPerShard] is taken to be a natural number. *)
Record t := {
  maxLayersPerShard : nat;
  minComputationTimeMs : JS.number;
  difficulty : Difficulty
}.
End ShardConfig.

(** ['low' | 'medium' | 'high']. *)
Module Capability.
Inductive t := low | medium | high.
End Capability.

(** A [Float32Array] is a view of a buffer: the buffer, the byte at which the
    array begins in it, and the number of elements.  An array made with
    [new Float32Array(values)] has a buffer of its own and spans it; one
    made with [subarray], or on a given buffer with an offset, shares a
    buffer of which it shows a part.  The engine reads arrays by their
    elements only (it hashes [buffer.slice(byteOffset, byteOffset +
    byteLength)]), so that a list of elements stands for an array there;
    [float32ArrayToBase64] reads [arr.buffer], the whole of it, so that the
    utility is given the view. *)
Module Float32ArrayView.

Record t := {
  buffer : list Byte.byte;
  byteOffset : nat;
  length : nat
}.

(** [arr.byteLength]. *)
Definition byteLength (arr : t) : nat := 4 * length arr.

(** The elements of the array: the bytes of its part of the buffer, four
    for each element. *)
Definition elements (arr : t) : Float32Array :=
  match Buffer.to_Float32Array (firstn (byteLength arr) (skipn (byteOffset arr) (buffer arr))) with
  | Some a => a
  | None => []
  end.

(** [new Float32Array(values)]: a buffer of its own. *)
Definition from (values : Float32Array) : t :=
  {| buffer := Buffer.of_Float32Array values;
     byteOffset := 0;
     length := List.length values |}.

(** [arr.subarray(begin, end)] for indices that are natural numbers: the
    same buffer, the indices clamped to the length. *)
Definition subarray (arr : t) (begin_ end_ : nat) : t :=
  let beginIndex := Nat.min begin_ (length arr) in
  let endIndex := Nat.min end_ (length arr) in
  {| buffer := buffer arr;
     byteOffset := byteOffset arr + 4 * beginIndex;
     length := endIndex - beginIndex |}.

(** The array shows the whole of its buffer. *)
Definition spans_buffer (arr : t) : Prop :=
  byteOffset arr = 0%nat /\ byteLength arr = List.length (buffer arr).

End Float32ArrayView.

(** What the server-side utility takes from its host: [btoa] (total on the
    binary strings that the utility builds, whose characters are bytes) and
    the three identifiers that [createShardTask] draws from the clock and from
    [Math.random]. *)
Record ServerHost := {
  btoa : string -> string;
  generateTaskId : string;
  generateSampleId : string;
  generateGroundTruthKey : string
}.

Module ModelSharding.

Import JS.

(** The variables of the loop of [shardModel]. *)
Record state := {
  shards : list ModelShard.t;
  currentShardLayers : list NeuralLayerConfig.t;
  shardIndex : nat
}.

(** [`shard_${shardIndex}_${firstLayer.name}_to_${lastLayer.name}`]. *)
Definition shard_name (shardIndex : nat) (firstLayer lastLayer : NeuralLayerConfig.t)
  : string :=
  ("shard_" ++ nat_toString shardIndex ++ "_" ++ NeuralLayerConfig.name firstLayer
     ++ "_to_" ++ NeuralLayerConfig.name lastLayer)%string.

(** [for (let i = 0; i < layers.length; i++) { ... }] over the layers from
    [i] on ([todo]); [i === layers.length - 1] holds when no layer follows. *)
Fixpoint shardModel_from (config : ShardConfig.t) (todo : list NeuralLayerConfig.t)
         (st : state) : list ModelShard.t :=
  match todo with
  | [] => shards st
  | layer :: rest =>
      let currentShardLayers := currentShardLayers st ++ [layer] in
      let shouldCreateShard :=
        (ShardConfig.maxLayersPerShard config <=? List.length currentShardLayers)
        || match rest with [] => true | _ :: _ => false end in
      if shouldCreateShard && (0 <? List.length currentShardLayers) then
        let firstLayer := hd layer currentShardLayers in
        let lastLayer := last currentShardLayers layer in
        let shard :=
          {| ModelShard.index := Z.of_nat (shardIndex st);
             ModelShard.name := shard_name (shardIndex st) firstLayer lastLayer;
             ModelShard.layerType := NeuralLayerConfig.type firstLayer;
             ModelShard.inputShape := NeuralLayerConfig.inputShape firstLayer;
             ModelShard.outputShape := NeuralLayerConfig.outputShape lastLayer;
             ModelShard.layers := currentShardLayers |} in
        shardModel_from config rest
          {| shards := shards st ++ [shard];
             currentShardLayers := [];
             shardIndex := S (shardIndex st) |}
      else
        shardModel_from config rest
          {| shards := shards st;
             currentShardLayers := currentShardLayers;
             shardIndex := shardIndex st |}
  end.

(** Shard a complete model into partial computations. *)
Definition shardModel (layers : list NeuralLayerConfig.t) (config : ShardConfig.t)
  : list ModelShard.t :=
  shardModel_from config layers
    {| shards := []; currentShardLayers := []; shardIndex := 0 |}.

(** [prevOutput !== currInput] negated, both being [shape.slice(-1)[0]]:
    two [undefined] are equal. *)
Definition same_dim (a b : option nat) : bool :=
  match a, b with
  | Some x, Some y => x =? y
  | None, None => true
  | _, _ => false
  end.

(** The connectivity loop of [validateShard], from index [i] on, with
    [layers[i - 1]] at the head. *)
Fixpoint connected (layers : list NeuralLayerConfig.t) : bool :=
  match layers with
  | prevLayer :: (currLayer :: _) as rest =>
      let prevOutput := NeuralLayer.last_dim (NeuralLayerConfig.outputShape prevLayer) in
      let currInput := NeuralLayer.last_dim (NeuralLayerConfig.inputShape currLayer) in
      if negb (same_dim prevOutput currInput) then false
      else connected rest
  | _ => true
  end.

(** Validate shard integrity. *)
Definition validateShard (shard : ModelShard.t) : bool :=
  if String.eqb (ModelShard.name shard) EmptyString
     || (List.length (ModelShard.layers shard) =? 0)
  then false
  else connected (ModelShard.layers shard).

(** Get layer allocation based on difficulty and client capability.  The
    default of the table lookup is out of reach of the nine typed keys. *)
Record allocation := { maxLayers : nat; expectedTimeMs : number }.

Definition getLayerAllocation (difficulty : Difficulty) (capability : Capability.t)
  : allocation :=
  match difficulty, capability with
  | easy, Capability.low => {| maxLayers := 1; expectedTimeMs := 200%float |}
  | easy, Capability.medium => {| maxLayers := 2; expectedTimeMs := 300%float |}
  | easy, Capability.high => {| maxLayers := 3; expectedTimeMs := 400%float |}
  | medium, Capability.low => {| maxLayers := 2; expectedTimeMs := 400%float |}
  | medium, Capability.medium => {| maxLayers := 4; expectedTimeMs := 600%float |}
  | medium, Capability.high => {| maxLayers := 6; expectedTimeMs := 800%float |}
  | hard, Capability.low => {| maxLayers := 3; expectedTimeMs := 600%float |}
  | hard, Capability.medium => {| maxLayers := 6; expectedTimeMs := 1000%float |}
  | hard, Capability.high => {| maxLayers := 10; expectedTimeMs := 1500%float |}
  end.

(** [for (const shard of allShards) { if (totalLayers >= maxLayers) break; ... }]. *)
Fixpoint assign (maxLayers : nat) (allShards : list ModelShard.t)
         (assignedShards : list ModelShard.t) (totalLayers : nat)
  : list ModelShard.t * nat :=
  match allShards with
  | [] => (assignedShards, totalLayers)
  | shard :: rest =>
      if maxLayers <=? totalLayers then (assignedShards, totalLayers)
      else assign maxLayers rest (assignedShards ++ [shard])
                  (totalLayers + List.length (ModelShard.layers shard))
  end.

(** Convert Float32Array to base64 string: [new Uint8Array(arr.buffer)] is
    all the bytes of the buffer of [arr], whatever part of it [arr] shows;
    one character each, through [btoa]. *)
Definition float32ArrayToBase64 (host : ServerHost) (arr : Float32ArrayView.t) : string :=
  let bytes := Float32ArrayView.buffer arr in
  let binary := fold_left (fun binary b => (binary ++ string_of_list_byte [b])%string)
                          bytes EmptyString in
  btoa host binary.

(** Create a shard task from model shards. *)
Definition createShardTask (host : ServerHost) (modelName modelVersion : string)
           (allShards : list ModelShard.t) (inputData : Float32ArrayView.t)
           (labels : list string) (difficulty : Difficulty)
           (clientCapability : Capability.t) : ShardTask.t :=
  let layerAllocation := getLayerAllocation difficulty clientCapability in
  let '(assignedShards, totalLayers) :=
    assign (maxLayers layerAllocation) allShards [] 0 in
  let inputBase64 := float32ArrayToBase64 host inputData in
  {| ShardTask.taskId := generateTaskId host;
     ShardTask.sampleId := generateSampleId host;
     ShardTask.modelName := modelName;
     ShardTask.modelVersion := modelVersion;
     ShardTask.shards := assignedShards;
     ShardTask.inputData := inputBase64;
     ShardTask.inputShape :=
       match assignedShards with
       | first :: _ => ModelShard.inputShape first
       | [] => [1; 784]
       end;
     ShardTask.expectedLayers := totalLayers;
     ShardTask.difficulty := difficulty;
     ShardTask.expectedTimeMs := expectedTimeMs layerAllocation;
     ShardTask.groundTruthKey := generateGroundTruthKey host;
     ShardTask.labels := labels;
     ShardTask.onProgress := false |}.

End ModelSharding.

(** ** Proof of work ([utils/crypto.ts]) *)

Module ProofOfWork.
Record t := {
  hash : string;
  nonce : nat;
  modelChecksum : string;
  inputHash : string;
  outputHash : string
}.
End ProofOfWork.

Module PoWInput.
Record t := {
  modelChecksum : string;
  inputData : string;
  outputData : string;
  sessionId : string
}.
End PoWInput.

Module PoW.

Import JS.

(** The bound of the nonce search. *)
Definition nonce_limit : nat := N.to_nat 1000000.

(** ['0'.repeat(difficulty)] with [difficulty = 1]. *)
Definition prefix : string := "0".

Section WithPlatform.
Context `{Platform}.

(** [[modelChecksum, inputHash, outputHash, sessionId, nonce.toString()].join(':')]. *)
Definition payload (modelChecksum inputHash outputHash sessionId : string) (nonce : nat)
  : string :=
  String.concat ":" [modelChecksum; inputHash; outputHash; sessionId; nat_toString nonce].

(** [do { hash = await sha256(payload); nonce++ }
     while (!hash.startsWith(prefix) && nonce < limit)], entered with [nonce];
    the result is [hash] and [nonce] at the exit.  [fuel] bounds the number of
    further iterations; the loop makes at most [limit - nonce] of them. *)
Fixpoint search (hashOf : nat -> string) (limit fuel nonce : nat) : string * nat :=
  let hash := hashOf nonce in
  let nonce := S nonce in
  match fuel with
  | S fuel' =>
      if negb (String.prefix prefix hash) && (nonce <? limit)
      then search hashOf limit fuel' nonce
      else (hash, nonce)
  | O => (hash, nonce)
  end.

(** Generate Proof-of-Work hash. *)
Definition generatePoWHash (input : PoWInput.t) : ProofOfWork.t :=
  let inputHash := Crypto.sha256 (PoWInput.inputData input) in
  let outputHash := Crypto.sha256 (PoWInput.outputData input) in
  let '(hash, nonce) :=
    search (fun nonce =>
              Crypto.sha256
                (payload (PoWInput.modelChecksum input) inputHash outputHash
                         (PoWInput.sessionId input) nonce))
           nonce_limit nonce_limit 0 in
  {| ProofOfWork.hash := hash;
     ProofOfWork.nonce := nonce - 1;
     ProofOfWork.modelChecksum := PoWInput.modelChecksum input;
     ProofOfWork.inputHash := inputHash;
     ProofOfWork.outputHash := outputHash |}.

(** Verify a Proof-of-Work hash. *)
Definition verifyPoWHash (pow : ProofOfWork.t) (sessionId : string) : bool :=
  let computedHash :=
    Crypto.sha256
      (payload (ProofOfWork.modelChecksum pow) (ProofOfWork.inputHash pow)
               (ProofOfWork.outputHash pow) sessionId (ProofOfWork.nonce pow)) in
  String.eqb computedHash (ProofOfWork.hash pow)
  && String.prefix "0" (ProofOfWork.hash pow).

End WithPlatform.

End PoW.

(** ** Runtime selection of MLEngine ([ml/engine.ts]) *)

Inductive RuntimeType := tfjs | onnx.

Definition RuntimeType_eqb (a b : RuntimeType) : bool :=
  match a, b with
  | tfjs, tfjs | onnx, onnx => true
  | _, _ => false
  end.

Module ModelConfig.
(** The fields read by the runtime selection. *)
Record t := {
  url : string;
  preferredRuntime : option RuntimeType
}.
End ModelConfig.

Module MLEngine.

Import JS.

(** [s.endsWith(suffix)]. *)
Definition endsWith (s suffix : string) : bool :=
  (String.length suffix <=? String.length s)
  && String.eqb (String.substring (String.length s - String.length suffix)
                                  (String.length suffix) s)
                suffix.

(** [availableRuntimes.includes(r)]. *)
Definition includes (availableRuntimes : list RuntimeType) (r : RuntimeType) : bool :=
  existsb (RuntimeType_eqb r) availableRuntimes.

(** Select the best runtime for this model. *)
Definition selectRuntime (availableRuntimes : list RuntimeType) (config : ModelConfig.t)
  : Completion RuntimeType :=
  let otherwise :=
    if endsWith (ModelConfig.url config) ".onnx" && includes availableRuntimes onnx
    then Normal onnx
    else if includes availableRuntimes tfjs then Normal tfjs
    else if includes availableRuntimes onnx then Normal onnx
    else Throw (Error "No ML runtime available") in
  match ModelConfig.preferredRuntime config with
  | Some preferred =>
      if includes availableRuntimes preferred then Normal preferred else otherwise
  | None => otherwise
  end.

(** Get fallback runtime; [None] is [null]. *)
Definition getFallbackRuntime (availableRuntimes : list RuntimeType)
           (currentRuntime : RuntimeType) : option RuntimeType :=
  let fallback := if RuntimeType_eqb currentRuntime tfjs then onnx else tfjs in
  if includes availableRuntimes fallback then Some fallback else None.

Section Loading.

(** The model type and the two runtimes' [loadModel], which return a model or
    throw. *)
Variable MLModel : Type.
Variable runtime_loadModel : RuntimeType -> ModelConfig.t -> Completion MLModel.

(** [loadModelWithRuntime]. *)
Definition loadModelWithRuntime (config : ModelConfig.t) (runtime : RuntimeType)
  : Completion MLModel :=
  runtime_loadModel runtime config.

(** Load a model with automatic runtime selection: the outcome and the
    runtimes whose [loadModel] was called, oldest first. *)
Definition loadModel (availableRuntimes : list RuntimeType) (config : ModelConfig.t)
  : Completion MLModel * list RuntimeType :=
  match selectRuntime availableRuntimes config with
  | Throw e => (Throw e, [])
  | Normal runtime =>
      match runtime_loadModel runtime config with
      | Normal model => (Normal model, [runtime])
      | Throw failure =>
          match getFallbackRuntime availableRuntimes runtime with
          | Some fallbackRuntime =>
              (loadModelWithRuntime config fallbackRuntime, [runtime; fallbackRuntime])
          | None => (Throw failure, [runtime])
          end
      end
  end.

End Loading.

End MLEngine.

(** ** PerformanceTimer ([utils/timing.ts]) *)

Module PerformanceTimer.

Import JS.
Local Open Scope float_scope.

(** A timer [{ start: number; end?: number }]. *)
Record timer := { timer_start : number; timer_end : option number }.

(** The [Map] of timers, in insertion order. *)
Definition t := list (string * timer).

Definition new : t := [].

(** [timers.get(name)]. *)
Fixpoint Map_get (timers : t) (name : string) : option timer :=
  match timers with
  | [] => None
  | (key, value) :: rest => if String.eqb key name then Some value else Map_get rest name
  end.

(** [timers.set(name, value)]: an existing key keeps its place. *)
Fixpoint Map_set (timers : t) (name : string) (value : timer) : t :=
  match timers with
  | [] => [(name, value)]
  | (key, old) :: rest =>
      if String.eqb key name then (key, value) :: rest
      else (key, old) :: Map_set rest name value
  end.

(** Start a timer. *)
Definition start (self : t) (name : string) (w : World) : t * World :=
  let '(now, w) := read_performance_now w in
  (Map_set self name {| timer_start := now; timer_end := None |}, w).

(** End a timer: the timer object held by the map is updated. *)
Definition end_timer (self : t) (name : string) (w : World)
  : Completion number * t * World :=
  match Map_get self name with
  | None => (Throw (Error ("Timer '" ++ name ++ "' not started")), self, w)
  | Some timer =>
      let '(now, w) := read_performance_now w in
      (Normal (now - timer_start timer),
       Map_set self name {| timer_start := timer_start timer; timer_end := Some now |},
       w)
  end.

(** [if (timer.end)] for a number: 0 and NaN are falsy. *)
Definition truthy (x : number) : bool := negb (is_zero x || is_nan x).

(** Get elapsed time for a timer. *)
Definition get (self : t) (name : string) (w : World) : number * World :=
  match Map_get self name with
  | None => (0, w)
  | Some timer =>
      let running (_ : unit) :=
        let '(now, w) := read_performance_now w in
        (Math_round (now - timer_start timer), w) in
      match timer_end timer with
      | Some e =>
          if truthy e then (Math_round (e - timer_start timer), w) else running tt
      | None => running tt
      end
  end.

(** Get start time for a timer. *)
Definition getStartTime (self : t) (name : string) : number :=
  match Map_get self name with
  | None => 0
  | Some timer => Math_round (timer_start timer)
  end.

(** Reset all timers. *)
Definition reset (self : t) : t := [].

(** A call on a timer object, and a sequence of calls; the results of the
    calls are dropped. *)
Inductive call :=
| Start (name : string)
| End_timer (name : string)
| Get (name : string)
| GetStartTime (name : string).

Definition name_of (c : call) : string :=
  match c with
  | Start name | End_timer name | Get name | GetStartTime name => name
  end.

Definition run_call (st : t * World) (c : call) : t * World :=
  let '(self, w) := st in
  match c with
  | Start name => start self name w
  | End_timer name => let '(_, self, w) := end_timer self name w in (self, w)
  | Get name => let '(_, w) := get self name w in (self, w)
  | GetStartTime name => (self, w)
  end.

Definition run_calls (calls : list call) (st : t * World) : t * World :=
  fold_left run_call calls st.

End PerformanceTimer.

(** ** A reference server host *)

Module ReferenceHost.

Local Open Scope N_scope.

Definition alphabet : string :=
  "ABCDEFGHIJKLMNOPQRSTUVWXYZabcdefghijklmnopqrstuvwxyz0123456789+/".

Definition digit (n : N) : ascii :=
  match String.get (N.to_nat n) alphabet with
  | Some c => c
  | None => "="%char
  end.

(** Three bytes give four digits; one or two bytes left over are padded. *)
Fixpoint encode (bytes : list N) : list ascii :=
  match bytes with
  | a :: b :: c :: rest =>
      digit (a / 4) :: digit ((a mod 4) * 16 + b / 16)
        :: digit ((b mod 16) * 4 + c / 64) :: digit (c mod 64) :: encode rest
  | [a; b] =>
      [digit (a / 4); digit ((a mod 4) * 16 + b / 16); digit ((b mod 16) * 4); "="%char]
  | [a] => [digit (a / 4); digit ((a mod 4) * 16); "="%char; "="%char]
  | [] => []
  end.

Definition base64 (binary : string) : string :=
  string_of_list_ascii (encode (map N_of_ascii (list_ascii_of_string binary))).

Definition host : ServerHost :=
  {| btoa := base64;
     generateTaskId := "task_1700000000000_k3x9q2m7p";
     generateSampleId := "sample_1700000000000_a8c4e1z6w";
     generateGroundTruthKey := "gt_f5h2j8l0n3r6t9v1" |}.

End ReferenceHost.

(** ** Scenarios and formulas used in the statements below *)

Module Laws.

Import JS.

(** A sequence of assignments [session.state = st], one after the other. *)
Definition assign_states (s : CaptchaSession.t) (states : list WidgetState) (tr : Trace)
  : CaptchaSession.t * Trace :=
  fold_left (fun '(s, tr) st => CaptchaSession.set_state s st tr) states (s, tr).

(** The assignments of a sequence that change the state, [current] being
    the state before the first one. *)
Fixpoint changes (current : WidgetState) (states : list WidgetState) : list WidgetState :=
  match states with
  | [] => []
  | st :: rest =>
      if WidgetState_eqb current st then changes current rest
      else st :: changes st rest
  end.

(** One round of notifications: every listener, in order, with the state. *)
Definition round (listeners : list Listener) (st : WidgetState) : list (nat * WidgetState) :=
  map (fun l => (listener_id l, st)) listeners.

(** A run of the interval callback. *)
Definition is_poll (ev : PoUWCaptcha.Event) : Prop :=
  match ev with
  | PoUWCaptcha.Poll _ _ => True
  | PoUWCaptcha.Deadline _ => False
  end.

(** The layer types that the [switch] of [forward] knows. *)
Definition supported_type (type : string) : bool :=
  String.eqb type "conv2d" || String.eqb type "dense" || String.eqb type "fully_connected"
  || String.eqb type "maxpool2d" || String.eqb type "flatten".

(** The number of elements that a layer of a supported type puts out, from
    its shapes and the length of its input: batch x outHeight x outWidth x
    outChannels for a convolution, the last output dimension for a dense
    layer, batch x floor(inHeight / 2) x floor(inWidth / 2) x channels for a
    pooling layer, the length of the input for a flatten layer; a product
    with a missing dimension is the length of an empty array. *)
Definition output_length (L : NeuralLayer.t) (inputLength : nat) : nat :=
  let inputShape := NeuralLayer.inputShape L in
  let outputShape := NeuralLayer.outputShape L in
  if String.eqb (NeuralLayer.type L) "conv2d" then
    match NeuralLayer.dim inputShape 0, NeuralLayer.dim outputShape 1,
          NeuralLayer.dim outputShape 2, NeuralLayer.dim outputShape 3 with
    | Some batch, Some outHeight, Some outWidth, Some outChannels =>
        batch * outHeight * outWidth * outChannels
    | _, _, _, _ => 0
    end
  else if String.eqb (NeuralLayer.type L) "dense"
          || String.eqb (NeuralLayer.type L) "fully_connected" then
    NeuralLayer.bound (NeuralLayer.last_dim outputShape)
  else if String.eqb (NeuralLayer.type L) "maxpool2d" then
    match NeuralLayer.dim inputShape 0, NeuralLayer.dim inputShape 1,
          NeuralLayer.dim inputShape 2, NeuralLayer.dim inputShape 3 with
    | Some batch, Some inHeight, Some inWidth, Some channels =>
        batch * (inHeight / 2) * (inWidth / 2) * channels
    | _, _, _, _ => 0
    end
  else inputLength.

(** The length of the array that the forward pass asks the host to create
    ([new Float32Array(n)] in [conv2dForward], [denseForward] and
    [maxPoolForward]), from the layer's type and shapes alone: the number
    of elements that the layer puts out.  A product with a missing dimension
    is NaN, for which the constructor creates the empty array; a flatten
    layer and a layer of an unknown type ask for none, which counts as 0. *)
Definition created_length (L : NeuralLayer.t) : nat :=
  let inputShape := NeuralLayer.inputShape L in
  let outputShape := NeuralLayer.outputShape L in
  if String.eqb (NeuralLayer.type L) "conv2d" then
    match NeuralLayer.dim inputShape 0, NeuralLayer.dim outputShape 1,
          NeuralLayer.dim outputShape 2, NeuralLayer.dim outputShape 3 with
    | Some batch, Some outHeight, Some outWidth, Some outChannels =>
        batch * outHeight * outWidth * outChannels
    | _, _, _, _ => 0
    end
  else if String.eqb (NeuralLayer.type L) "dense"
          || String.eqb (NeuralLayer.type L) "fully_connected" then
    NeuralLayer.bound (NeuralLayer.last_dim outputShape)
  else if String.eqb (NeuralLayer.type L) "maxpool2d" then
    match NeuralLayer.dim inputShape 0, NeuralLayer.dim inputShape 1,
          NeuralLayer.dim inputShape 2, NeuralLayer.dim inputShape 3 with
    | Some batch, Some inHeight, Some inWidth, Some channels =>
        batch * (inHeight / 2) * (inWidth / 2) * channels
    | _, _, _, _ => 0
    end
  else 0.

(** The host creates the output array of the layer: its length is within
    the host's limit. *)
Definition creatable `{Platform} (L : NeuralLayer.t) : bool :=
  (N.of_nat (created_length L) <=? Float32Array_max_length)%N.


(** A digit of lower-case hexadecimal notation. *)
Definition lower_hex (c : ascii) : bool :=
  let n := nat_of_ascii c in
  ((48 <=? n) && (n <=? 57)) || ((97 <=? n) && (n <=? 102)).

(** Every character of a string passes a test. *)
Definition every (p : ascii -> bool) (s : string) : bool :=
  forallb p (list_ascii_of_string s).

(** A character that starts no line terminator (LF, CR, U+2028, U+2029 as
    UTF-8). *)
Definition no_terminator (c : ascii) : bool :=
  negb (Ascii.eqb c "010") && negb (Ascii.eqb c "013") && negb (Ascii.eqb c "226").

Definition no_semicolon (c : ascii) : bool := negb (Ascii.eqb c ";").

(** The value of a hexadecimal digit, and the bytes that a text of
    two-digit groups stands for. *)
Definition hex_value (c : ascii) : option N :=
  let n := N_of_ascii c in
  if ((48 <=? n) && (n <=? 57))%N then Some (n - 48)%N
  else if ((97 <=? n) && (n <=? 102))%N then Some (n - 87)%N
  else None.

Fixpoint unhex (s : string) : option (list Byte.byte) :=
  match s with
  | EmptyString => Some []
  | String c1 (String c2 rest) =>
      match hex_value c1, hex_value c2, unhex rest with
      | Some h, Some l, Some bytes =>
          match Byte.of_N (16 * h + l) with
          | Some b => Some (b :: bytes)
          | None => None
          end
      | _, _, _ => None
      end
  | String _ EmptyString => None
  end.

(** The bytes that [hashData] digests. *)
Definition digested (d : Crypto.data) : list Byte.byte :=
  match d with
  | Crypto.text s => Crypto.TextEncoder_encode s
  | Crypto.buffer bytes => bytes
  end.

(** Sizes of consecutive chunks of [m] elements each, the last one holding
    between 1 and [m]. *)
Fixpoint full_chunks (m : nat) (sizes : list nat) : Prop :=
  match sizes with
  | [] => True
  | [x] => (1 <= x <= m)%nat
  | x :: rest => x = m /\ full_chunks m rest
  end.

(** Number of layers of a shard. *)
Definition size (shard : ModelShard.t) : nat := List.length (ModelShard.layers shard).

(** Number of layers of a list of shards. *)
Definition total_layers (shards : list ModelShard.t) : nat :=
  List.length (flat_map ModelShard.layers shards).

(** The orders easy < medium < hard and low < medium < high. *)
Definition difficulty_rank (d : Difficulty) : nat :=
  match d with easy => 0 | medium => 1 | hard => 2 end.

Definition capability_rank (c : Capability.t) : nat :=
  match c with Capability.low => 0 | Capability.medium => 1 | Capability.high => 2 end.

(** What a shard's own fields say about its layers: the type and input
    shape of the first one, the output shape of the last one. *)
Definition summarises (shard : ModelShard.t) : Prop :=
  match ModelShard.layers shard with
  | first :: rest =>
      ModelShard.layerType shard = NeuralLayerConfig.type first /\
      ModelShard.inputShape shard = NeuralLayerConfig.inputShape first /\
      ModelShard.outputShape shard = NeuralLayerConfig.outputShape (last rest first) /\
      ModelShard.name shard =
        ModelSharding.shard_name (Z.to_nat (ModelShard.index shard)) first (last rest first)
  | [] => False
  end.

(** The characters of the buffer that an array views, one per byte. *)
Definition binary_string (arr : Float32ArrayView.t) : string :=
  string_of_list_byte (Float32ArrayView.buffer arr).

(** What [decodeInput] makes of the bytes of a buffer: the elements of
    [new Float32Array(buffer)], or its RangeError when the number of bytes
    is not a multiple of 4. *)
Definition decoded (bytes : list Byte.byte) : JS.Completion Float32Array :=
  match Buffer.to_Float32Array bytes with
  | Some a => Normal a
  | None => Throw (RangeError "byte length of Float32Array should be a multiple of 4")
  end.

(** A 32-bit pattern, as every element of a Float32Array is. *)
Definition word32 (w : Z) : Prop := (0 <= w < 2 ^ 32)%Z.

End Laws.

(** ** Further examples *)

Module MoreExamples.

Import JS.
Local Open Scope float_scope.



(** The model of the examples as one list of layers. *)
Definition model : list NeuralLayerConfig.t :=
  [Examples.dense_4_2 "relu"; Examples.dense_2_2; Examples.dense_2_2].

Definition one_layer_per_shard : ShardConfig.t :=
  {| ShardConfig.maxLayersPerShard := 1;
     ShardConfig.minComputationTimeMs := 10;
     ShardConfig.difficulty := easy |}.

Definition two_layers_per_shard : ShardConfig.t :=
  {| ShardConfig.maxLayersPerShard := 2;
     ShardConfig.minComputationTimeMs := 10;
     ShardConfig.difficulty := easy |}.

(** A pooling layer over one 4 x 4 image of 3 channels. *)
Definition maxpool_4_4_3 : NeuralLayerConfig.t :=
  {| NeuralLayerConfig.name := "pool_1";
     NeuralLayerConfig.type := "maxpool2d";
     NeuralLayerConfig.weights := [];
     NeuralLayerConfig.biases := [];
     NeuralLayerConfig.inputShape := [1; 4; 4; 3]%nat;
     NeuralLayerConfig.outputShape := [1; 2; 2; 3]%nat;
     NeuralLayerConfig.activation := "relu" |}.



(** [new Float32Array([1, 2, 3, 4])]. *)
Definition input_1234 : Float32ArrayView.t := Float32ArrayView.from Examples.input_1234.

(** [new Float32Array([9, 1, 2, 3, 4, 9]).subarray(1, 5)]: the elements
    1, 2, 3, 4 in a buffer of six. *)
Definition input_9_1234_9 : Float32Array := F32.from [9; 1; 2; 3; 4; 9].

Definition input_1234_inside : Float32ArrayView.t :=
  Float32ArrayView.subarray (Float32ArrayView.from input_9_1234_9) 1 5.

(** A world whose clock advances by a quarter of a second at each reading. *)
Definition ticking_world : World :=
  {| performance_now := fun k => of_nat k * 250;
     Date_now := fun _ => 1700000000000;
     ticks := 1;
     progress_log := [] |}.

(** A legacy task's proof-of-work input. *)
Definition pow_input : PoWInput.t :=
  {| PoWInput.modelChecksum := "abc123";
     PoWInput.inputData := "input";
     PoWInput.outputData := "output";
     PoWInput.sessionId := "session-1" |}.

End MoreExamples.

(** * Properties *)

(** ** Binary32 storage, on examples *)

Section StorageExamples.

Local Open Scope float_scope.

Lemma bits_examples :
  map F32.bits [1; -2; 0.1; 3.1; 0; -0; infinity; 1e39; 1e-46; nan]
  = [0x3F800000; 0xC0000000; 0x3DCCCCCD; 0x40466666; 0; 0x80000000;
     0x7F800000; 0x7F800000; 0; 0x7FC00000]%Z.
Proof. vm_compute. reflexivity. Qed.

Lemma value_examples :
  map F32.value [0x3F800000; 0x3DCCCCCD; 0x40466666; 0x00000001; 0xFF800000]%Z
  = [1; 0x1.99999ap-4; 0x1.8cccccp+1; 0x1p-149; neg_infinity].
Proof. vm_compute. reflexivity. Qed.

(** Reading an element and writing the number back restores the pattern
    (NaN patterns apart, which are written back as the quiet NaN). *)
Lemma bits_value_examples :
  forallb (fun w => (F32.bits (F32.value w) =? w)%Z)
          [0x00000000; 0x00000001; 0x007FFFFF; 0x00800000; 0x3DCCCCCD; 0x3F800000;
           0x40466667; 0x7F7FFFFF; 0x7F800000; 0x7FC00000; 0x80000000; 0x80000001;
           0xBF800000; 0xC07FFFFF; 0xFF7FFFFF; 0xFF800000]%Z
  = true.
Proof. vm_compute. reflexivity. Qed.

End StorageExamples.

(** ** Loops and typed-array updates *)

Section LoopFacts.

Import JS.

Lemma for_loop_S {A} (n : nat) (body : nat -> A -> A) (init : A) :
  for_loop (S n) body init = body n (for_loop n body init).
Proof.
  unfold for_loop. rewrite seq_S, fold_left_app. reflexivity.
Qed.


(** An invariant rule for counted loops. *)
Lemma for_loop_invariant {A} (P : nat -> A -> Prop) (n : nat)
      (body : nat -> A -> A) (init : A) :
  P 0 init ->
  (forall i a, i < n -> P i a -> P (S i) (body i a)) ->
  P n (for_loop n body init).
Proof.
  intros H0 Hs. induction n as [|n IH].
  - exact H0.
  - rewrite for_loop_S. apply Hs; [lia|]. apply IH. intros; apply Hs; [lia|assumption].
Qed.

Lemma update_length (a : Float32Array) (i : nat) (w : Z) :
  List.length (F32.update a i w) = List.length a.
Proof.
  revert i; induction a as [|x a IH]; intros [|i]; simpl; auto.
Qed.

Lemma update_same (a : Float32Array) (i : nat) (w : Z) :
  i < List.length a -> nth_error (F32.update a i w) i = Some w.
Proof.
  revert i; induction a as [|x a IH]; intros [|i]; simpl; intros Hi; try lia; auto.
  apply IH; lia.
Qed.

Lemma update_other (a : Float32Array) (i j : nat) (w : Z) :
  i <> j -> nth_error (F32.update a i w) j = nth_error a j.
Proof.
  revert i j; induction a as [|x a IH]; intros [|i] [|j]; simpl; intros Hij;
    try congruence; auto.
Qed.

Lemma make_length (n : nat) : List.length (F32.make n) = n.
Proof. apply repeat_length. Qed.

Lemma map_elements_length (f : number -> number) (a : Float32Array) :
  List.length (F32.map_elements f a) = List.length a.
Proof. apply length_map. Qed.

(** A loop that writes element [o] at iteration [o] fills the first [k]
    elements and leaves the length and the other elements alone. *)
Lemma for_loop_fill (f : nat -> number) (init : Float32Array) (k : nat) :
  k <= List.length init ->
  let out := for_loop k (fun o out => F32.set out o (f o)) init in
  List.length out = List.length init /\
  (forall o, o < k -> nth_error out o = Some (F32.bits (f o))) /\
  (forall o, k <= o -> nth_error out o = nth_error init o).
Proof.
  intros Hk. cbv zeta. induction k as [|k IH].
  - repeat split; intros; try lia; reflexivity.
  - destruct IH as (Hlen & Hlo & Hhi); [lia|].
    rewrite for_loop_S. unfold F32.set at 1 3 5.
    repeat split.
    + rewrite update_length. exact Hlen.
    + intros o Ho. destruct (Nat.eq_dec o k) as [->|Hne].
      * apply update_same. lia.
      * rewrite update_other by congruence. apply Hlo. lia.
    + intros o Ho. rewrite update_other by lia. apply Hhi. lia.
Qed.

End LoopFacts.

(** ** The dense layer *)

Section DenseFacts.

Import JS NeuralLayer.
Local Open Scope float_scope.









Section WithPlatform.
Context `{Platform}.














Lemma softmax_length (data : Float32Array) :
  List.length (softmax data) = List.length data.
Proof.
  unfold softmax.
  destruct (for_loop (List.length data) _ (F32.make (List.length data), 0)) as [expData sumExp].
  destruct (for_loop_fill (fun i => F32.get expData i / sumExp)
                          (F32.make (List.length data)) (List.length data)) as (Hlen & _).
  - rewrite make_length. lia.
  - rewrite Hlen. apply make_length.
Qed.

Lemma applyActivation_length (L : t) (data : Float32Array) :
  List.length (applyActivation L data) = List.length data.
Proof.
  unfold applyActivation.
  repeat match goal with
         | |- context [if ?b then _ else _] => destruct b
         end;
    auto using map_elements_length, softmax_length.
Qed.


(** The result of [forward] is that of its [switch] and activation. *)
Lemma forward_result (L : t) (input : Float32Array) (w : World) :
  fst (fst (forward L input w)) = forward_output L input.
Proof.
  unfold forward. destruct (read_performance_now w) as [startTime w1].
  destruct (forward_output L input); [|reflexivity].
  destruct (read_performance_now w1). reflexivity.
Qed.

End WithPlatform.

End DenseFacts.

(** ** Claims about the dense layer *)

Section DenseClaims.

Import JS NeuralLayer.
Local Open Scope float_scope.







End DenseClaims.

(** ** Loading and merging shards *)

Section ShardOrder.

Import ShardInferenceEngine Sharding.

Lemma fold_push_map {A B} (f : A -> B) (l : list A) (acc : list B) :
  fold_left (fun acc x => acc ++ [f x]) l acc = acc ++ map f l.
Proof.
  revert acc; induction l as [|x l IH]; intros acc; simpl.
  - now rewrite app_nil_r.
  - rewrite IH, <- app_assoc. reflexivity.
Qed.

Lemma fold_append_flat_map {A B} (f : A -> list B) (l : list A) (acc : list B) :
  fold_left (fun acc x => acc ++ f x) l acc = acc ++ flat_map f l.
Proof.
  revert acc; induction l as [|x l IH]; intros acc; simpl.
  - now rewrite app_nil_r.
  - rewrite IH, <- app_assoc. reflexivity.
Qed.

Lemma fold_left_pointwise {A B} (f g : A -> B -> A) (l : list B) (acc : A) :
  (forall a b, f a b = g a b) -> fold_left f l acc = fold_left g l acc.
Proof.
  intros E. revert acc; induction l as [|x l IH]; intros acc; simpl; [reflexivity|].
  now rewrite E, IH.
Qed.

(** [loadShards] flattens the shards in the order of the array. *)
Lemma loadShards_layers (self : t) (shards : list ModelShard.t) :
  layers (loadShards self shards) =
  map NeuralLayer.new (flat_map ModelShard.layers shards).
Proof.
  unfold loadShards, set_layers. cbn [layers].
  rewrite (fold_left_pointwise
             (fun layers shard =>
                fold_left (fun layers layerConfig => layers ++ [NeuralLayer.new layerConfig])
                          (ModelShard.layers shard) layers)
             (fun layers shard => layers ++ map NeuralLayer.new (ModelShard.layers shard))).
  - rewrite (fold_append_flat_map (fun s => map NeuralLayer.new (ModelShard.layers s))).
    cbn [app]. induction shards as [|s shards IH]; [reflexivity|].
    cbn [flat_map]. rewrite map_app, IH. reflexivity.
  - intros acc shard. apply fold_push_map.
Qed.

Lemma mergeShards_flat_map (shards : list ModelShard.t) :
  mergeShards shards = flat_map ModelShard.layers (sort_shards shards).
Proof.
  unfold mergeShards. cbv zeta. now rewrite fold_append_flat_map.
Qed.

Import Spec.

Lemma insert_shard_last (x : ModelShard.t) (sorted : list ModelShard.t) :
  Forall (fun y => index_le y x) sorted ->
  insert_shard x sorted = sorted ++ [x].
Proof.
  unfold index_le. induction 1 as [|y rest Hy _ IH]; [reflexivity|].
  cbn [insert_shard app]. destruct (Z.ltb_spec (ModelShard.index x - ModelShard.index y) 0).
  - lia.
  - now rewrite IH.
Qed.

Lemma sorted_app_le (acc : list ModelShard.t) (x : ModelShard.t) (l : list ModelShard.t) :
  StronglySorted index_le (acc ++ x :: l) -> Forall (fun y => index_le y x) acc.
Proof.
  induction acc as [|a acc IH]; intros HS; [constructor|].
  cbn [app] in HS. inversion HS as [|? ? HS' Hall]; subst. constructor.
  - rewrite Forall_forall in Hall. apply Hall. apply in_or_app. right. now left.
  - now apply IH.
Qed.

Lemma sort_shards_sorted_from (l acc : list ModelShard.t) :
  StronglySorted index_le (acc ++ l) ->
  fold_left (fun sorted x => insert_shard x sorted) l acc = acc ++ l.
Proof.
  revert acc; induction l as [|x l IH]; intros acc HS; cbn [fold_left].
  - now rewrite app_nil_r.
  - rewrite (insert_shard_last x acc (sorted_app_le acc x l HS)).
    rewrite IH; rewrite <- app_assoc; [reflexivity | exact HS].
Qed.

(** Sorting leaves an array alone that is already in ascending index order. *)
Lemma sort_shards_sorted (shards : list ModelShard.t) :
  StronglySorted index_le shards -> sort_shards shards = shards.
Proof.
  intros HS. unfold sort_shards. now rewrite sort_shards_sorted_from.
Qed.

(** On an array already in ascending index order the engine and the
    sharding utility agree. *)
Lemma loadShards_sorted (self : t) (shards : list ModelShard.t) :
  StronglySorted index_le shards ->
  layers (loadShards self shards) = map NeuralLayer.new (mergeShards shards).
Proof.
  intros HS. now rewrite loadShards_layers, mergeShards_flat_map, sort_shards_sorted.
Qed.

Lemma insert_shard_perm (x : ModelShard.t) (l : list ModelShard.t) :
  Permutation (insert_shard x l) (x :: l).
Proof.
  induction l as [|y l IH]; cbn [insert_shard]; [reflexivity|].
  destruct (ModelShard.index x - ModelShard.index y <? 0)%Z; [reflexivity|].
  rewrite IH. apply perm_swap.
Qed.

Lemma sort_shards_perm_from (l acc : list ModelShard.t) :
  Permutation (fold_left (fun sorted x => insert_shard x sorted) l acc) (acc ++ l).
Proof.
  revert acc; induction l as [|x l IH]; intros acc; cbn [fold_left].
  - now rewrite app_nil_r.
  - rewrite IH, insert_shard_perm. apply Permutation_middle.
Qed.

Lemma sort_shards_perm (l : list ModelShard.t) : Permutation (sort_shards l) l.
Proof. apply (sort_shards_perm_from l []). Qed.

Lemma insert_shard_sorted (x : ModelShard.t) (l : list ModelShard.t) :
  StronglySorted index_le l -> StronglySorted index_le (insert_shard x l).
Proof.
  unfold index_le. induction 1 as [|y l HS IH Hall]; cbn [insert_shard].
  - repeat constructor.
  - destruct (Z.ltb_spec (ModelShard.index x - ModelShard.index y) 0).
    + constructor; [now constructor|]. constructor; [lia|].
      eapply Forall_impl; [|exact Hall]. cbv beta. intros; lia.
    + constructor; [exact IH|].
      eapply Permutation_Forall; [symmetry; apply insert_shard_perm|].
      constructor; [lia | exact Hall].
Qed.

Lemma sort_shards_is_sorted (l : list ModelShard.t) :
  StronglySorted index_le (sort_shards l).
Proof.
  unfold sort_shards. generalize (SSorted_nil index_le).
  generalize (@nil ModelShard.t) as acc.
  induction l as [|x l IH]; intros acc HS; cbn [fold_left]; [exact HS|].
  apply IH, insert_shard_sorted, HS.
Qed.

(** Two arrays in ascending index order with the same shards, no index
    occurring twice, are the same array. *)
Lemma sorted_perm_unique (l1 l2 : list ModelShard.t) :
  StronglySorted index_le l1 -> StronglySorted index_le l2 ->
  Permutation l1 l2 -> NoDup (map ModelShard.index l1) -> l1 = l2.
Proof.
  unfold index_le. intros HS1; revert l2.
  induction HS1 as [|x l1 HS1 IH Hall1]; intros l2 HS2 HP HN.
  - apply Permutation_nil in HP. now subst.
  - destruct HS2 as [|y l2 HS2 Hall2].
    + symmetry in HP. apply Permutation_nil in HP. discriminate.
    + assert (Hxy : x = y).
      { assert (Hx : In x (y :: l2)) by (eapply Permutation_in; [exact HP | now left]).
        assert (Hy : In y (x :: l1))
          by (eapply Permutation_in; [symmetry; exact HP | now left]).
        destruct Hx as [->|Hx]; [reflexivity|]. destruct Hy as [->|Hy]; [reflexivity|].
        rewrite Forall_forall in Hall1, Hall2.
        pose proof (Hall1 y Hy). pose proof (Hall2 x Hx).
        exfalso. cbn [map] in HN. apply NoDup_cons_iff in HN. destruct HN as [Hnin _].
        apply Hnin. replace (ModelShard.index x) with (ModelShard.index y) by lia.
        now apply in_map. }
      subst y. f_equal. apply IH; [exact HS2| |].
      * eapply Permutation_cons_inv. exact HP.
      * cbn [map] in HN. now apply NoDup_cons_iff in HN.
Qed.

(** The sharding utility is insensitive to the order of the array when no
    index occurs twice. *)
Lemma mergeShards_permutation (l1 l2 : list ModelShard.t) :
  Permutation l1 l2 -> NoDup (map ModelShard.index l1) ->
  mergeShards l1 = mergeShards l2.
Proof.
  intros HP HN. rewrite !mergeShards_flat_map. f_equal.
  apply sorted_perm_unique; try apply sort_shards_is_sorted.
  - rewrite !sort_shards_perm. exact HP.
  - eapply Permutation_NoDup; [|exact HN].
    apply Permutation_map. symmetry. apply sort_shards_perm.
Qed.

(** C4, evaluated where the code departs from it.  The engine flattens the
    layers of the shards in the order of the [shards] array and never looks
    at [index]: with the shard of index 1 placed before the shard of index 0
    it runs the layer of shard 1 first (so the first layer output, and the
    first output hash, is that of shard 1's layer, here applied to the raw
    input), and the two orders of the same two shards give different layer
    sequences and different layer outputs.  The sharding utility's
    [mergeShards] sorts by index and returns the same sequence for both. *)
Theorem C4_loadShards_keeps_array_order :
  (forall (self : t) (shards : list ModelShard.t),
      layers (loadShards self shards) =
      map NeuralLayer.new (flat_map ModelShard.layers shards))
  /\
  map NeuralLayer.name
      (layers (loadShards Reference.engine [Examples.shard_1; Examples.shard_0]))
  = ["dense_2"; "dense_1"]%string
  /\
  map NeuralLayer.name
      (layers (loadShards Reference.engine [Examples.shard_0; Examples.shard_1]))
  = ["dense_1"; "dense_2"]%string
  /\
  Spec.layer_outputs (H := Reference.platform)
    (layers (loadShards Reference.engine [Examples.shard_1; Examples.shard_0]))
    Examples.input_1234
  = JS.Normal [[0xBF800000; 0x40000000]; [0x7FC00000; 0x7FC00000]]%Z
  /\
  Spec.layer_outputs (H := Reference.platform)
    (layers (loadShards Reference.engine [Examples.shard_0; Examples.shard_1]))
    Examples.input_1234
  = JS.Normal [[0x40466667; 0x40E33333]; [0xC07FFFFF; 0x408A6666]]%Z
  /\
  map NeuralLayerConfig.name (mergeShards [Examples.shard_1; Examples.shard_0])
  = ["dense_1"; "dense_2"]%string
  /\
  mergeShards [Examples.shard_1; Examples.shard_0]
  = mergeShards [Examples.shard_0; Examples.shard_1].
Proof.
  split; [exact loadShards_layers|]. repeat split; vm_compute; reflexivity.
Qed.

End ShardOrder.

(** ** Running the layers *)

Section Execution.

Import JS ShardInferenceEngine.
Context `{Platform}.

Lemma last_cons_default {A} (l : list A) (x d : A) : last (x :: l) d = last l x.
Proof.
  revert x d; induction l as [|y l IH]; intros x d; [reflexivity|].
  change (last (x :: y :: l) d) with (last (y :: l) d). rewrite !IH. reflexivity.
Qed.

Lemma forward_progress_log (L : NeuralLayer.t) (input : Float32Array) (w : World) :
  progress_log (snd (NeuralLayer.forward L input w)) = progress_log w.
Proof.
  unfold NeuralLayer.forward, read_performance_now.
  destruct (NeuralLayer.forward_output L input); reflexivity.
Qed.

(** What a normal run of the layer loop leaves behind. *)
Lemma run_layers_normal (onProgress : bool) (total : nat) (todo : list NeuralLayer.t) :
  forall (i : nat) (st : loop_state) (w : World) st' layers' w',
    run_layers onProgress total i todo st w = (Normal st', layers', w') ->
    exists outs : list Float32Array,
      Spec.layer_outputs todo (currentOutput st) = Normal outs /\
      layerOutputs st' = layerOutputs st ++ outs /\
      List.length outs = List.length todo /\
      currentOutput st' = last outs (currentOutput st) /\
      List.length (layerTimes st') = (List.length (layerTimes st) + List.length todo)%nat /\
      progress_log w' =
      progress_log w ++
        (if onProgress
         then map (fun k => (Z.of_nat (i + k + 1) # Pos.of_nat total)%Q)
                  (seq 0 (List.length todo))
         else []).
Proof.
  induction todo as [|layer rest IH]; intros i st w st' layers' w' Hrun.
  - cbn [run_layers] in Hrun. injection Hrun as <- _ <-.
    exists []. cbn. rewrite ?app_nil_r, ?Nat.add_0_r.
    repeat split; try reflexivity. destruct onProgress; now rewrite app_nil_r.
  - cbn [run_layers] in Hrun. unfold read_performance_now in Hrun.
    pose proof (forward_result layer (currentOutput st) (tick w)) as Hres.
    pose proof (forward_progress_log layer (currentOutput st) (tick w)) as Hlog.
    destruct (NeuralLayer.forward layer (currentOutput st) (tick w)) as [[c layer'] w2].
    cbn [fst snd] in Hres, Hlog.
    destruct c as [output|e]; [|discriminate Hrun].
    apply IH in Hrun. destruct Hrun as (outs & Hspec & Houts & Hlen & Hcur & Htimes & Hprog).
    cbn [currentOutput layerOutputs layerTimes] in *.
    exists (output :: outs). cbn [Spec.layer_outputs]. rewrite <- Hres. cbn [bind].
    rewrite Hspec. cbn [bind].
    repeat split.
    + rewrite Houts, <- app_assoc. reflexivity.
    + cbn [List.length]. now rewrite Hlen.
    + rewrite Hcur. symmetry. apply last_cons_default.
    + rewrite Htimes, length_app. cbn [List.length]. lia.
    + rewrite Hprog. destruct onProgress.
      * cbn [report_progress progress_log tick]. cbn [tick progress_log] in Hlog.
        rewrite Hlog. rewrite <- app_assoc. f_equal.
        cbn [List.length seq map app]. rewrite Nat.add_0_r. f_equal.
        rewrite <- seq_shift, map_map. apply map_ext. intros k.
        now replace (S i + k)%nat with (i + S k)%nat by lia.
      * cbn [tick progress_log] in *. now rewrite Hlog.
Qed.

(** The loop ends normally whenever every layer does. *)
Lemma run_layers_total (onProgress : bool) (total : nat) (todo : list NeuralLayer.t) :
  forall (i : nat) (st : loop_state) (w : World) outs,
    Spec.layer_outputs todo (currentOutput st) = Normal outs ->
    exists st' layers' w',
      run_layers onProgress total i todo st w = (Normal st', layers', w').
Proof.
  induction todo as [|layer rest IH]; intros i st w outs Hspec.
  - cbn [run_layers]. eauto.
  - cbn [run_layers]. unfold read_performance_now.
    pose proof (forward_result layer (currentOutput st) (tick w)) as Hres.
    destruct (NeuralLayer.forward layer (currentOutput st) (tick w)) as [[c layer'] w2].
    cbn [fst] in Hres. cbn [Spec.layer_outputs] in Hspec. rewrite <- Hres in Hspec.
    destruct c as [output|e]; [|discriminate Hspec]. cbn [bind] in Hspec.
    destruct (Spec.layer_outputs rest output) as [outs'|e] eqn:Hrest; [|discriminate Hspec].
    eapply IH. cbn [currentOutput]. exact Hrest.
Qed.

Lemma generateProof_outputHashes (self : t) taskId sampleId expectedLayers
      (layerOutputs : list Float32Array) prediction (w : World) :
  InferenceProof.outputHashes
    (fst (generateProof self taskId sampleId expectedLayers layerOutputs prediction w))
  = map (hashTensor self) layerOutputs.
Proof.
  unfold generateProof, read_Date_now. cbn [fst InferenceProof.outputHashes].
  now rewrite fold_push_map.
Qed.

Lemma generateProof_proofHash (self : t) taskId sampleId expectedLayers
      (layerOutputs : list Float32Array) prediction (w : World) :
  InferenceProof.proofHash
    (fst (generateProof self taskId sampleId expectedLayers layerOutputs prediction w))
  = Crypto.hashData
      (Crypto.text
         (Spec.proof_text taskId sampleId expectedLayers
                          (map (hashTensor self) layerOutputs) prediction)).
Proof.
  unfold generateProof, read_Date_now, Spec.proof_text.
  cbn [fst InferenceProof.proofHash]. now rewrite fold_push_map.
Qed.

Lemma generateProof_layerCount (self : t) taskId sampleId expectedLayers
      (layerOutputs : list Float32Array) prediction (w : World) :
  InferenceProof.layerCount
    (fst (generateProof self taskId sampleId expectedLayers layerOutputs prediction w))
  = List.length layerOutputs.
Proof. reflexivity. Qed.

Lemma generateProof_progress_log (self : t) taskId sampleId expectedLayers
      (layerOutputs : list Float32Array) prediction (w : World) :
  progress_log
    (snd (generateProof self taskId sampleId expectedLayers layerOutputs prediction w))
  = progress_log w.
Proof. reflexivity. Qed.

(** What a normal run of [executeShards] returns and leaves behind. *)
Lemma executeShards_normal (self : t) (task : ShardTask.t) (w : World)
      (r : ShardExecutionResult.t) :
  fst (fst (executeShards self task w)) = Normal r ->
  let all_layers := map NeuralLayer.new (flat_map ModelShard.layers (ShardTask.shards task)) in
  exists (input : Float32Array) (outs : list Float32Array),
    decodeInput self (ShardTask.inputData task) (ShardTask.inputShape task) = Normal input /\
    Spec.layer_outputs all_layers input = Normal outs /\
    ShardExecutionResult.layerOutputs r = outs /\
    List.length outs = List.length all_layers /\
    ShardExecutionResult.prediction r =
      generatePrediction self (last outs input) (ShardTask.labels task) /\
    InferenceProof.outputHashes (ShardExecutionResult.proof r) = map (hashTensor self) outs /\
    InferenceProof.layerCount (ShardExecutionResult.proof r) = List.length outs /\
    InferenceProof.proofHash (ShardExecutionResult.proof r) =
      Crypto.hashData
        (Crypto.text
           (Spec.proof_text (ShardTask.taskId task) (ShardTask.sampleId task)
                            (ShardTask.expectedLayers task)
                            (map (hashTensor self) outs)
                            (ShardExecutionResult.prediction r))) /\
    progress_log (snd (executeShards self task w)) =
      progress_log w ++
        (if ShardTask.onProgress task
         then Spec.progress_values (List.length all_layers) else []).
Proof.
  intros Hrun all_layers. unfold executeShards, read_performance_now in *.
  unfold decodeInput in *.
  set (decoded := match atob (strip_data_url_prefix (ShardTask.inputData task)) with
                  | Some _ => _ | None => _ end) in *.
  destruct decoded as [input|e]; [|discriminate Hrun].
  pose proof (loadShards_layers self (ShardTask.shards task)) as Hlayers.
  fold all_layers in Hlayers.
  destruct (run_layers _ _ _ _ _ _) as [[c layers'] w2] eqn:Hloop.
  destruct c as [st|e]; [|discriminate Hrun].
  apply run_layers_normal in Hloop.
  destruct Hloop as (outs & Hspec & Houts & Hlen & Hcur & _ & Hprog).
  cbn [currentOutput layerOutputs app] in Hspec, Houts, Hcur, Hprog.
  rewrite Hlayers in *.
  match type of Hrun with
  | context [generateProof ?s ?a ?b ?c ?d ?e ?w] =>
      pose proof (generateProof_outputHashes s a b c d e w) as Ho;
      pose proof (generateProof_proofHash s a b c d e w) as Hh;
      pose proof (generateProof_layerCount s a b c d e w) as Hc;
      pose proof (generateProof_progress_log s a b c d e w) as Hw;
      destruct (generateProof s a b c d e w) as [proof w3]
  end.
  cbn [fst snd] in *. injection Hrun as <-.
  cbn [ShardExecutionResult.layerOutputs ShardExecutionResult.prediction
       ShardExecutionResult.proof progress_log tick].
  exists input, outs. rewrite Houts in *.
  repeat split; try assumption; try reflexivity.
  - now rewrite Hcur.
  - rewrite Hw, Hprog. reflexivity.
Qed.

End Execution.

(** ** Progress reporting *)

Section Progress.

Import JS ShardInferenceEngine.

Lemma Zpos_of_nat (n : nat) : (0 < n)%nat -> Zpos (Pos.of_nat n) = Z.of_nat n.
Proof.
  intros Hn. rewrite <- (Nat2Pos.id n) at 2 by lia. now rewrite positive_nat_Z.
Qed.

Lemma progress_values_length (N : nat) : List.length (Spec.progress_values N) = N.
Proof. unfold Spec.progress_values. now rewrite length_map, length_seq. Qed.

Lemma progress_values_nth (N i : nat) (a : Q) :
  nth_error (Spec.progress_values N) i = Some a ->
  (i < N)%nat /\ a = (Z.of_nat (i + 1) # Pos.of_nat N)%Q.
Proof.
  unfold Spec.progress_values. intros Hn.
  assert (Hi : (i < N)%nat).
  { rewrite <- (progress_values_length N). apply nth_error_Some.
    unfold Spec.progress_values. congruence. }
  split; [exact Hi|].
  rewrite nth_error_map, nth_error_seq in Hn.
  destruct (Nat.ltb_spec i N); [|lia]. cbn in Hn. congruence.
Qed.

Lemma progress_values_increasing (N i j : nat) (a b : Q) :
  (i < j)%nat ->
  nth_error (Spec.progress_values N) i = Some a ->
  nth_error (Spec.progress_values N) j = Some b ->
  (a < b)%Q.
Proof.
  intros Hij Ha Hb.
  apply progress_values_nth in Ha, Hb. destruct Ha as (_ & ->), Hb as (_ & ->).
  unfold Qlt. cbn [Qnum Qden]. apply Z.mul_lt_mono_pos_r; lia.
Qed.

Lemma progress_values_range (N : nat) (a : Q) :
  In a (Spec.progress_values N) -> (0 < a)%Q /\ (a <= 1)%Q.
Proof.
  intros Hin. apply In_nth_error in Hin. destruct Hin as (i & Hi).
  apply progress_values_nth in Hi. destruct Hi as (Hi & ->).
  unfold Qlt, Qle. cbn [Qnum Qden]. rewrite Zpos_of_nat by lia. lia.
Qed.

Lemma progress_values_last (N : nat) (d : Q) :
  (0 < N)%nat -> (last (Spec.progress_values N) d == 1)%Q.
Proof.
  intros HN. destruct N as [|n]; [lia|].
  unfold Spec.progress_values. rewrite seq_S, map_app. cbn [map Nat.add].
  rewrite last_last. unfold Qeq. cbn [Qnum Qden].
  rewrite Zpos_of_nat by lia. lia.
Qed.

(** The numbers that the callback receives for up to 256 layers, computed
    in binary64: strictly increasing, within (0,1], and ending at exactly 1. *)
Lemma progress_numbers_checked :
  forallb
    (fun N =>
       Spec.increasing (Spec.progress_numbers N)
       && forallb (fun x => (0 <? x)%float && (x <=? 1)%float) (Spec.progress_numbers N)
       && Leibniz.eqb (last (Spec.progress_numbers N) 1%float) 1%float)
    (seq 1 256) = true.
Proof. vm_compute. reflexivity. Qed.

Context `{Platform}.

(** C8.  Across a normal N-layer execution with a progress callback, the
    values reported are exactly (i+1)/N for i from 0 to N-1, in that order:
    they are strictly increasing, each lies in (0,1], and when there is a
    layer at all the last one equals 1. *)
Theorem C8_progress_values
        (self : t) (task : ShardTask.t) (w : World) (r : ShardExecutionResult.t) :
  ShardTask.onProgress task = true ->
  fst (fst (executeShards self task w)) = Normal r ->
  let N := List.length (ShardExecutionResult.layerOutputs r) in
  let reported := skipn (List.length (progress_log w))
                        (progress_log (snd (executeShards self task w))) in
  N = List.length (flat_map ModelShard.layers (ShardTask.shards task)) /\
  reported = map (fun i => (Z.of_nat (i + 1) # Pos.of_nat N)%Q) (seq 0 N) /\
  (forall i j a b, (i < j)%nat ->
     nth_error reported i = Some a -> nth_error reported j = Some b -> (a < b)%Q) /\
  (forall a, In a reported -> (0 < a)%Q /\ (a <= 1)%Q) /\
  ((0 < N)%nat -> (last reported 0 == 1)%Q).
Proof.
  intros Hcb Hrun N reported.
  destruct (executeShards_normal self task w r Hrun)
    as (input & outs & _ & _ & Houts & Hlen & _ & _ & _ & _ & Hprog).
  rewrite Hcb in Hprog.
  assert (HN : N = List.length (flat_map ModelShard.layers (ShardTask.shards task))).
  { unfold N. rewrite Houts, Hlen. apply length_map. }
  assert (Hrep : reported = Spec.progress_values N).
  { unfold reported. rewrite Hprog, skipn_app, Nat.sub_diag, skipn_all. cbn [app skipn].
    unfold N. rewrite Houts, Hlen. reflexivity. }
  split; [exact HN|]. rewrite Hrep. split; [reflexivity|].
  split; [intros i j a b; apply progress_values_increasing|].
  split; [apply progress_values_range | apply progress_values_last].
Qed.

End Progress.

(** ** Decoding the input *)

Section Decoding.

Import JS ShardInferenceEngine.

Lemma to_Float32Array_length (n : nat) :
  forall (bytes : list Byte.byte) (a : Float32Array),
    (List.length bytes <= n)%nat ->
    Buffer.to_Float32Array bytes = Some a ->
    List.length bytes = (4 * List.length a)%nat.
Proof.
  induction n as [|n IH]; intros bytes a Hn Hdec.
  - destruct bytes; [|cbn in Hn; lia]. cbn in Hdec. injection Hdec as <-. reflexivity.
  - destruct bytes as [|b0 [|b1 [|b2 [|b3 rest]]]]; cbn [Buffer.to_Float32Array] in Hdec;
      try discriminate Hdec.
    + injection Hdec as <-. reflexivity.
    + destruct (Buffer.to_Float32Array rest) as [a'|] eqn:Hrest; [|discriminate Hdec].
      injection Hdec as <-. cbn [List.length] in *.
      rewrite (IH rest a'); [lia | lia | exact Hrest].
Qed.

Lemma list_byte_of_string_length (s : string) :
  List.length (list_byte_of_string s) = String.length s.
Proof.
  unfold list_byte_of_string. rewrite length_map.
  induction s as [|c s IH]; [reflexivity|].
  cbn [list_ascii_of_string String.length List.length]. now rewrite IH.
Qed.

Context `{Platform}.

(** C10.  The decoded tensor depends on the [inputData] string alone: the
    engine and the declared shape can be exchanged for any others without
    changing the result, and when decoding succeeds the elements are the
    bytes that [atob] yields for the payload left after the data-URL prefix
    has been removed, taken four at a time, so that their number is a quarter
    of the number of those bytes; no shape enters. *)
Theorem C10_decodeInput_ignores_shape
        (self1 self2 : t) (data : string) (shape1 shape2 : list nat) :
  decodeInput self1 data shape1 = decodeInput self2 data shape2 /\
  (forall out : Float32Array,
      decodeInput self1 data shape1 = Normal out ->
      exists binaryString : string,
        atob (strip_data_url_prefix data) = Some binaryString /\
        Buffer.to_Float32Array (list_byte_of_string binaryString) = Some out /\
        String.length binaryString = (4 * List.length out)%nat).
Proof.
  split; [reflexivity|]. unfold decodeInput. intros out Hdec.
  destruct (atob (strip_data_url_prefix data)) as [binaryString|]; [|discriminate Hdec].
  exists binaryString. split; [reflexivity|].
  destruct (Buffer.to_Float32Array (list_byte_of_string binaryString)) as [a|] eqn:Hbuf;
    [|discriminate Hdec].
  injection Hdec as <-. split; [reflexivity|]. rewrite <- list_byte_of_string_length.
  eapply to_Float32Array_length; [apply le_n | exact Hbuf].
Qed.

End Decoding.

(** The declared shape [1, 784] is not held against a payload of four
    elements. *)
Lemma C10_decodeInput_ignores_shape_witness :
  exists out : Float32Array,
    ShardInferenceEngine.decodeInput (H := Reference.platform) Reference.engine
      Examples.input_1234_base64 [1; 784]%nat = JS.Normal out /\
    out = Examples.input_1234 /\
    exists binaryString : string,
      Reference.Base64.atob Examples.input_1234_base64 = Some binaryString /\
      String.length binaryString = 16%nat.
Proof.
  exists Examples.input_1234.
  assert (Hdec : ShardInferenceEngine.decodeInput (H := Reference.platform) Reference.engine
                   Examples.input_1234_base64 [1; 784]%nat = JS.Normal Examples.input_1234)
    by (vm_compute; reflexivity).
  split; [exact Hdec|]. split; [reflexivity|].
  destruct (proj2 (C10_decodeInput_ignores_shape (H := Reference.platform)
                     Reference.engine Reference.engine
                     Examples.input_1234_base64 [1; 784]%nat [1; 4]%nat)
                  Examples.input_1234 Hdec) as (binaryString & Hatob & _ & Hlen).
  exists binaryString. split; [exact Hatob | exact Hlen].
Defined.

(** ** The proof of computation *)

Section ProofGenerator.

Import JS ShardInferenceEngine.
Context `{Platform}.

(** C1.  The proof hash is a function of (taskId, sampleId, expectedLayers,
    layerOutputs, prediction) alone: two invocations on any two engines
    (freshly constructed or not) in any two worlds (whatever their clocks
    read) return the same [proofHash], and so does a fresh engine compared
    with itself later; only the timestamp of the proof follows the clock. *)
Theorem C1_proofHash_deterministic
        (self1 self2 : t) (w1 w2 : World) (config : Config)
        (taskId sampleId : string) (expectedLayers : nat)
        (layerOutputs : list Float32Array) (prediction : Prediction.t) :
  let proof1 :=
    fst (generateProof self1 taskId sampleId expectedLayers layerOutputs prediction w1) in
  let proof2 :=
    fst (generateProof self2 taskId sampleId expectedLayers layerOutputs prediction w2) in
  let fresh :=
    fst (generateProof (new config) taskId sampleId expectedLayers layerOutputs
                       prediction w2) in
  InferenceProof.proofHash proof1 = InferenceProof.proofHash proof2 /\
  InferenceProof.proofHash proof1 = InferenceProof.proofHash fresh /\
  InferenceProof.proofHash proof1 =
    Crypto.hashData
      (Crypto.text
         (Spec.proof_text taskId sampleId expectedLayers
            (map (fun output => Crypto.hashData
                                  (Crypto.buffer (Buffer.of_Float32Array output)))
                 layerOutputs)
            prediction)) /\
  InferenceProof.timestamp proof1 = Date_now w1 (ticks w1).
Proof.
  cbv zeta. rewrite !generateProof_proofHash. repeat split; reflexivity.
Qed.


(** [executeShards] returns a result whenever the input decodes and no layer
    is of an unsupported type. *)
Lemma executeShards_total (self : t) (task : ShardTask.t) (w : World)
      (input : Float32Array) (outs : list Float32Array) :
  decodeInput self (ShardTask.inputData task) (ShardTask.inputShape task) = Normal input ->
  Spec.layer_outputs
    (map NeuralLayer.new (flat_map ModelShard.layers (ShardTask.shards task))) input
  = Normal outs ->
  exists r, fst (fst (executeShards self task w)) = Normal r.
Proof.
  intros Hdec Hspec. unfold executeShards, read_performance_now.
  unfold decodeInput in *.
  set (decoded := match atob (strip_data_url_prefix (ShardTask.inputData task)) with
                  | Some _ => _ | None => _ end) in *.
  rewrite Hdec. rewrite loadShards_layers.
  match goal with
  | |- context [run_layers ?p ?n ?i ?todo ?st ?w0] =>
      destruct (run_layers_total p n todo i st w0 outs Hspec) as (st' & layers' & w' & ->)
  end.
  destruct (generateProof _ _ _ _ _ _ _). cbn [fst]. eauto.
Qed.

(** Two normal executions of the same task, on any two engines and in any
    two worlds, return the same layer outputs, prediction and proof hash. *)
Lemma executeShards_deterministic (self1 self2 : t) (task : ShardTask.t) (w1 w2 : World)
      (r1 r2 : ShardExecutionResult.t) :
  fst (fst (executeShards self1 task w1)) = Normal r1 ->
  fst (fst (executeShards self2 task w2)) = Normal r2 ->
  ShardExecutionResult.layerOutputs r1 = ShardExecutionResult.layerOutputs r2 /\
  ShardExecutionResult.prediction r1 = ShardExecutionResult.prediction r2 /\
  InferenceProof.proofHash (ShardExecutionResult.proof r1)
  = InferenceProof.proofHash (ShardExecutionResult.proof r2).
Proof.
  intros H1 H2.
  destruct (executeShards_normal self1 task w1 r1 H1)
    as (in1 & outs1 & Hd1 & Hs1 & Ho1 & _ & Hp1 & _ & _ & Hh1 & _).
  destruct (executeShards_normal self2 task w2 r2 H2)
    as (in2 & outs2 & Hd2 & Hs2 & Ho2 & _ & Hp2 & _ & _ & Hh2 & _).
  assert (Ein : in1 = in2) by (unfold decodeInput in *; congruence).
  rewrite <- Ein in *. clear Ein.
  assert (Eouts : outs1 = outs2) by congruence.
  rewrite <- Eouts in *. clear Eouts.
  assert (Hp : ShardExecutionResult.prediction r1 = ShardExecutionResult.prediction r2).
  { rewrite Hp1, Hp2. reflexivity. }
  split; [congruence|]. split; [exact Hp|].
  rewrite Hh1, Hh2, Hp. reflexivity.
Qed.

End ProofGenerator.

(** ** The execution of the two-shard example task *)

Section ExampleRun.

Import JS ShardInferenceEngine.

(** The example task runs to a result on the reference platform. *)
Lemma example_run_normal :
  exists r : ShardExecutionResult.t,
    fst (fst (executeShards (H := Reference.platform) Reference.engine
                            (Examples.task [Examples.shard_0; Examples.shard_1])
                            Reference.world)) = Normal r.
Proof.
  apply (executeShards_total (H := Reference.platform) Reference.engine
           (Examples.task [Examples.shard_0; Examples.shard_1]) Reference.world
           Examples.input_1234
           [[0x40466667; 0x40E33333]; [0xC07FFFFF; 0x408A6666]]%Z);
    vm_compute; reflexivity.
Qed.

(** C8 on the two-layer example task: the callback receives 1/2, then 2/2. *)
Lemma C8_progress_values_witness :
  exists r : ShardExecutionResult.t,
    fst (fst (executeShards (H := Reference.platform) Reference.engine
                            (Examples.task [Examples.shard_0; Examples.shard_1])
                            Reference.world)) = Normal r /\
    List.length (ShardExecutionResult.layerOutputs r) = 2%nat /\
    progress_log
      (snd (executeShards (H := Reference.platform) Reference.engine
                          (Examples.task [Examples.shard_0; Examples.shard_1])
                          Reference.world))
    = [(1 # 2)%Q; (2 # 2)%Q].
Proof.
  destruct example_run_normal as (r & Hrun). exists r. split; [exact Hrun|].
  destruct (C8_progress_values (H := Reference.platform) Reference.engine
              (Examples.task [Examples.shard_0; Examples.shard_1]) Reference.world r
              eq_refl Hrun) as (HN & Hrep & _).
  cbn [Examples.task ShardTask.shards] in HN.
  change (List.length (flat_map ModelShard.layers [Examples.shard_0; Examples.shard_1]))
    with 2%nat in HN.
  split; [exact HN|]. rewrite HN in Hrep. exact Hrep.
Defined.


(** The expectations of the repository's tests, on the model. *)
Lemma test_top_k_prediction :
  let prediction :=
    generatePrediction Reference.engine
      (F32.from [0.1; 0.5; 0.3; 0.05; 0.05]%float)
      ["A"; "B"; "C"; "D"; "E"]%string in
  Prediction.label prediction = "B"%string /\
  nth_error (Prediction.topK prediction) 0
  = Some {| Prediction.entry_label := "B"; Prediction.entry_confidence := 0.5%float |} /\
  map Prediction.entry_label (Prediction.topK prediction)
  = ["B"; "C"; "A"; "D"; "E"]%string.
Proof. cbv zeta. repeat split; vm_compute; reflexivity. Qed.

Lemma test_progress_callback :
  progress_log
    (snd (executeShards (H := Reference.platform) Reference.engine
                        (Examples.task [Examples.shard_0]) Reference.world))
  = [(1 # 1)%Q].
Proof. vm_compute. reflexivity. Qed.

Lemma test_softmax_stability :
  NeuralLayer.softmax (H := Reference.platform) (F32.from [1000; 1000; 1000]%float)
  = F32.from [1 / 3; 1 / 3; 1 / 3]%float.
Proof. vm_compute. reflexivity. Qed.

End ExampleRun.

(** ** The session *)

Section SessionFacts.

Import CaptchaSession.

Lemma notifyStateChange_trace (s : t) (tr : Trace) :
  calls (notifyStateChange s tr) =
    calls tr ++ map (fun l => (listener_id l, _state s)) (stateListeners s) /\
  console_error (notifyStateChange s tr) =
    console_error tr ++ map listener_id (filter (fun l => throws l (_state s)) (stateListeners s)).
Proof.
  unfold notifyStateChange. generalize (stateListeners s) as ls. intros ls; revert tr.
  induction ls as [|l ls IH]; intros tr; cbn [fold_left map filter].
  - now rewrite !app_nil_r.
  - unfold call_listener at 2 4. destruct (throws l (_state s)).
    + match goal with
      | |- context [fold_left _ ls ?t] => destruct (IH t) as (Hc & He)
      end.
      rewrite Hc, He. cbn [calls console_error map]. rewrite <- !app_assoc.
      split; reflexivity.
    + match goal with
      | |- context [fold_left _ ls ?t] => destruct (IH t) as (Hc & He)
      end.
      rewrite Hc, He. cbn [calls console_error map]. rewrite <- !app_assoc.
      split; reflexivity.
Qed.

Lemma set_state_changes (s : t) (newState : WidgetState) (tr : Trace) :
  _state s <> newState ->
  set_state s newState tr =
  (with_state s newState, notifyStateChange (with_state s newState) tr).
Proof.
  intros Hne. unfold set_state.
  destruct (WidgetState_eqb (_state s) newState) eqn:E; [|reflexivity].
  exfalso. apply Hne. destruct (_state s), newState; (reflexivity || discriminate E).
Qed.

Lemma existsb_id_false (ls : list Listener) (cb : Listener) :
  ~ In (listener_id cb) (map listener_id ls) ->
  existsb (fun l => Nat.eqb (listener_id l) (listener_id cb)) ls = false.
Proof.
  induction ls as [|l ls IH]; intros Hnin; [reflexivity|].
  cbn [existsb map In] in *. destruct (Nat.eqb_spec (listener_id l) (listener_id cb)).
  - exfalso. apply Hnin. now left.
  - apply IH. intros Hin. apply Hnin. now right.
Qed.

(** Subscribing callbacks with distinct identities registers them in the
    order of subscription. *)
Lemma subscribe_in_order (callbacks : list Listener) :
  forall s : t,
    NoDup (map listener_id (stateListeners s ++ callbacks)) ->
    stateListeners (fold_left onStateChange callbacks s) = stateListeners s ++ callbacks /\
    _state (fold_left onStateChange callbacks s) = _state s.
Proof.
  induction callbacks as [|cb cbs IH]; intros s HN; cbn [fold_left].
  - now rewrite app_nil_r.
  - assert (Hadd : onStateChange s cb = with_listeners s (stateListeners s ++ [cb])).
    { unfold onStateChange. rewrite existsb_id_false; [reflexivity|].
      rewrite map_app in HN. cbn [map] in HN. apply NoDup_remove_2 in HN.
      intros Hin. apply HN. apply in_or_app. now left. }
    rewrite Hadd. destruct (IH (with_listeners s (stateListeners s ++ [cb]))) as (Hl & Hs).
    + cbn [with_listeners stateListeners]. now rewrite <- app_assoc.
    + rewrite Hl, Hs. cbn [with_listeners stateListeners _state].
      now rewrite <- app_assoc.
Qed.

(** C6.  A session is completed exactly when its state is [success] and a
    captcha token is present; a session in state [success] whose token is
    null is not completed. *)
Theorem C6_isCompleted_iff (s : t) :
  (isCompleted s = true <->
   _state s = success /\ exists token, _captchaToken s = Some token) /\
  isCompleted (set_captchaToken (with_state s success) None) = false.
Proof.
  split; [|reflexivity]. unfold isCompleted. split.
  - intros Hc. apply andb_prop in Hc. destruct Hc as (Hs & Ht). split.
    + destruct (_state s); (reflexivity || discriminate Hs).
    + destruct (_captchaToken s) as [token|]; [eauto | discriminate Ht].
  - intros (-> & token & ->). reflexivity.
Qed.

(** C7.  When the state of a session changes, every registered observer is
    called once with the new state, in the order in which the observers
    subscribed; an observer that throws has its exception logged and the loop
    goes on to the remaining observers; the setter returns normally and the
    new state is in effect. *)
Theorem C7_state_change_notifies_all
        (s0 : t) (callbacks : list Listener) (newState : WidgetState) (tr : Trace) :
  stateListeners s0 = [] ->
  NoDup (map listener_id callbacks) ->
  _state s0 <> newState ->
  let s := fold_left onStateChange callbacks s0 in
  let result := set_state s newState tr in
  state (fst result) = newState /\
  calls (snd result) = calls tr ++ map (fun l => (listener_id l, newState)) callbacks /\
  console_error (snd result) =
    console_error tr ++ map listener_id (filter (fun l => throws l newState) callbacks).
Proof.
  intros Hempty HN Hne s result.
  destruct (subscribe_in_order callbacks s0) as (Hl & Hs).
  { now rewrite Hempty. }
  rewrite Hempty in Hl. cbn [app] in Hl. fold s in Hl, Hs.
  unfold result. rewrite set_state_changes by (rewrite Hs; exact Hne).
  cbn [fst snd]. split; [reflexivity|].
  destruct (notifyStateChange_trace (with_state s newState) tr) as (Hc & He).
  cbn [with_state stateListeners _state] in Hc, He. rewrite Hl in Hc, He.
  split; assumption.
Qed.

(** C7 with three observers of which the second throws: all three are
    called, in order, and one exception is logged. *)
Lemma C7_state_change_notifies_all_witness :
  let result :=
    set_state (fold_left onStateChange Examples.observers Examples.session)
              success no_trace in
  state (fst result) = success /\
  calls (snd result) = [(1, success); (2, success); (3, success)]%nat /\
  console_error (snd result) = [2]%nat.
Proof.
  apply (C7_state_change_notifies_all Examples.session Examples.observers success no_trace).
  - reflexivity.
  - repeat constructor; cbn; intuition discriminate.
  - discriminate.
Defined.

End SessionFacts.

(** ** Waiting for verification *)

Section WaitFacts.

Import CaptchaSession PoUWCaptcha.

Lemma settled_resolve (p : Promise) (r : CaptchaResult) :
  p <> Pending -> resolve p r = p.
Proof. destruct p; intros Hp; [contradiction|reflexivity|reflexivity]. Qed.

Lemma settled_reject (p : Promise) (e : Rejection) :
  p <> Pending -> reject p e = p.
Proof. destruct p; intros Hp; [contradiction|reflexivity|reflexivity]. Qed.

(** A settled promise stays as it is, whatever runs afterwards. *)
Lemma settled_step (wt : Wait) (ev : Event) :
  promise wt <> Pending -> promise (step wt ev) = promise wt.
Proof.
  intros Hp. destruct ev as [session now|session]; cbn [step].
  - destruct (interval_armed wt); [|reflexivity].
    unfold checkComplete. destruct session as [s|]; cbn [promise].
    + destruct (isCompleted s), (WidgetState_eqb (state s) error), (isExpired s now);
        cbn [promise];
        rewrite ?settled_reject, ?settled_resolve;
        rewrite ?settled_reject, ?settled_resolve;
        rewrite ?settled_reject, ?settled_resolve; auto.
    + now apply settled_reject.
  - unfold onTimeout. cbn [promise].
    destruct (negb _); [now apply settled_reject | reflexivity].
Qed.

Lemma settled_run (events : list Event) (wt : Wait) :
  promise wt <> Pending -> promise (run events wt) = promise wt.
Proof.
  revert wt; induction events as [|ev events IH]; intros wt Hp; [reflexivity|].
  cbn [run fold_left]. fold (run events (step wt ev)).
  rewrite IH; rewrite settled_step by exact Hp; [reflexivity | exact Hp].
Qed.

Lemma run_app (events1 events2 : list Event) (wt : Wait) :
  run (events1 ++ events2) wt = run events2 (run events1 wt).
Proof. apply fold_left_app. Qed.

(** C9, as the claim states it, fails when the session has already expired
    as the wait begins: the remaining time is 0, but the deadline timer is
    set to 60000 ms; the wait then ends at the first poll with
    SESSION_EXPIRED, and the deadline timer changes nothing when it fires. *)
Lemma C9_deadline_differs_from_remaining_time :
  let now := 5000%Z in
  getTimeRemaining Examples.session now = Some 0%Z /\
  timeout_delay (Some Examples.session) now = 60000%Z /\
  promise (run [Poll (Some Examples.session) (now + poll_interval);
                Deadline (Some Examples.session)] start)
  = Rejected (CaptchaError SESSION_EXPIRED "Session expired").
Proof. cbv zeta. repeat split; reflexivity. Qed.

Lemma uneventful_step (wt : Wait) (ev : Event) :
  Spec.uneventful ev -> step wt ev = wt.
Proof.
  destruct ev as [[s|] now|session]; cbn [Spec.uneventful]; try contradiction.
  intros (Hc & He & Hx). cbn [step]. destruct (interval_armed wt); [|reflexivity].
  unfold checkComplete. rewrite Hc, Hx.
  destruct (WidgetState_eqb (state s) error) eqn:E; [|reflexivity].
  exfalso. apply He. destruct (state s); (reflexivity || discriminate E).
Qed.

Lemma uneventful_run (events : list Event) (wt : Wait) :
  Forall Spec.uneventful events -> run events wt = wt.
Proof.
  induction 1 as [|ev events Hev _ IH]; [reflexivity|].
  cbn [run fold_left]. rewrite (uneventful_step wt ev Hev). exact IH.
Qed.

(** C9 (amended).  When a session with time left begins to wait, the deadline
    timer is set to the remaining time, so that it is due at the instant of
    expiry (with no time left, an invalid expiry date or no session it is set
    to 60000 ms).  If every poll that runs before the deadline timer finds
    the session neither completed, nor in error, nor expired, and the session
    is not completed when the timer fires, then the wait fails with
    TIMEOUT_ERROR 'Verification timeout', and nothing that runs later changes
    this outcome. *)
Theorem C9_deadline_timeout
        (s : t) (expiry now : Z) (before later : list Event)
        (at_deadline : option t) :
  expiresAt s = Some expiry ->
  (now < expiry)%Z ->
  Forall Spec.uneventful before ->
  (forall s', at_deadline = Some s' -> isCompleted s' = false) ->
  (now + timeout_delay (Some s) now = expiry)%Z /\
  promise (run (before ++ Deadline at_deadline :: later) start)
  = Rejected (CaptchaError TIMEOUT_ERROR "Verification timeout") /\
  (forall s0 now0, getTimeRemaining s0 now0 = Some 0%Z ->
                   timeout_delay (Some s0) now0 = 60000%Z) /\
  (forall s0 now0, getTimeRemaining s0 now0 = None ->
                   timeout_delay (Some s0) now0 = 60000%Z) /\
  (forall now0, timeout_delay None now0 = 60000%Z).
Proof.
  intros He Hlt Hquiet Hnot. split; [|split].
  - unfold timeout_delay, getTimeRemaining. rewrite He.
    destruct (Z.eqb_spec (Z.max 0 (expiry - now)) 0); lia.
  - rewrite run_app, (uneventful_run before start Hquiet).
    cbn [run fold_left]. fold (run later).
    assert (Hfire : promise (step start (Deadline at_deadline))
                    = Rejected (CaptchaError TIMEOUT_ERROR "Verification timeout")).
    { cbn [step]. unfold onTimeout. cbn [promise start].
      destruct at_deadline as [s'|]; [rewrite (Hnot s' eq_refl)|]; reflexivity. }
    rewrite settled_run; [exact Hfire|]. rewrite Hfire. discriminate.
  - repeat split.
    + intros s0 now0 Hr. unfold timeout_delay. now rewrite Hr.
    + intros s0 now0 Hr. unfold timeout_delay. now rewrite Hr.
Qed.

(** C9 (amended) on a session with 4000 ms left: two polls leave the wait
    pending, the deadline timer rejects it, a later poll changes nothing. *)
Lemma C9_deadline_timeout_witness :
  (1000 + timeout_delay (Some Examples.session) 1000 = 5000)%Z /\
  promise (run ([Poll (Some Examples.session) 1100; Poll (Some Examples.session) 1200]
                  ++ Deadline (Some Examples.session)
                  :: [Poll (Some Examples.session) 5100]) start)
  = Rejected (CaptchaError TIMEOUT_ERROR "Verification timeout").
Proof.
  destruct (C9_deadline_timeout Examples.session 5000 1000
              [Poll (Some Examples.session) 1100; Poll (Some Examples.session) 1200]
              [Poll (Some Examples.session) 5100]
              (Some Examples.session))
    as (Hdelay & Hout & _).
  - reflexivity.
  - reflexivity.
  - repeat constructor; discriminate.
  - intros s' Hs'. injection Hs' as <-. reflexivity.
  - split; [exact Hdelay | exact Hout].
Defined.

End WaitFacts.

(** * Further properties *)

(** ** Lists *)

Section ListFacts.


Lemma firstn_subset {A} (n : nat) (l : list A) (x : A) : In x (firstn n l) -> In x l.
Proof.
  revert n; induction l as [|y l IH]; intros n Hin; destruct n; cbn [firstn] in Hin;
    try contradiction.
  destruct Hin as [-> | Hin]; [now left | right; eauto].
Qed.

Lemma firstn_NoDup {A} (n : nat) (l : list A) : NoDup l -> NoDup (firstn n l).
Proof.
  revert n; induction l as [|x l IH]; intros n HN; destruct n; cbn [firstn];
    try constructor.
  - inversion HN as [|? ? Hx Hl]; subst. intros Hin. apply Hx.
    now apply firstn_subset in Hin.
  - inversion HN; subst. now apply IH.
Qed.

Lemma map_NoDup {A B} (f : A -> B) (l : list A) :
  (forall a b, f a = f b -> a = b) -> NoDup l -> NoDup (map f l).
Proof.
  intros Hinj. induction 1 as [|x l Hx _ IH]; cbn [map]; constructor; [|exact IH].
  intros Hin. apply in_map_iff in Hin. destruct Hin as (y & E & Hy).
  apply Hinj in E. now subst.
Qed.

End ListFacts.

(** ** Session listeners and state changes *)

Section SessionLaws.

Import CaptchaSession.

Lemma WidgetState_eqb_eq (a b : WidgetState) : WidgetState_eqb a b = true <-> a = b.
Proof. destruct a, b; cbn; split; intros E; (reflexivity || discriminate E). Qed.

Lemma WidgetState_eqb_neq (a b : WidgetState) : WidgetState_eqb a b = false <-> a <> b.
Proof.
  rewrite <- WidgetState_eqb_eq. destruct (WidgetState_eqb a b); split; intros E;
    (reflexivity || discriminate E || (exfalso; now apply E) || (intros E'; discriminate E')).
Qed.

Lemma existsb_id_true (ls : list Listener) (cb : Listener) :
  In (listener_id cb) (map listener_id ls) ->
  existsb (fun l => Nat.eqb (listener_id l) (listener_id cb)) ls = true.
Proof.
  intros Hin. apply existsb_exists. apply in_map_iff in Hin.
  destruct Hin as (l & Hid & Hl). exists l. split; [exact Hl|]. now apply Nat.eqb_eq.
Qed.

Lemma onStateChange_listeners (s : t) (cb : Listener) :
  stateListeners (onStateChange s cb) =
    if existsb (fun l => Nat.eqb (listener_id l) (listener_id cb)) (stateListeners s)
    then stateListeners s else stateListeners s ++ [cb].
Proof. unfold onStateChange. now destruct (existsb _ _). Qed.

Lemma onStateChange_member (s : t) (cb : Listener) :
  In (listener_id cb) (map listener_id (stateListeners (onStateChange s cb))).
Proof.
  rewrite onStateChange_listeners.
  destruct (existsb _ _) eqn:E.
  - apply existsb_exists in E. destruct E as (l & Hl & Hid).
    apply Nat.eqb_eq in Hid. rewrite <- Hid. now apply in_map.
  - rewrite map_app. apply in_or_app. right. now left.
Qed.

Lemma onStateChange_NoDup (s : t) (cb : Listener) :
  NoDup (map listener_id (stateListeners s)) ->
  NoDup (map listener_id (stateListeners (onStateChange s cb))).
Proof.
  intros HN. rewrite onStateChange_listeners.
  destruct (existsb _ _) eqn:E; [exact HN|].
  rewrite map_app. cbn [map].
  assert (Hnin : ~ In (listener_id cb) (map listener_id (stateListeners s))).
  { intros Hin. apply existsb_id_true in Hin. congruence. }
  clear E. induction (stateListeners s) as [|l ls IH]; cbn [map app] in *.
  - constructor; [intros []|constructor].
  - inversion HN as [|x xs Hx Hxs]; subst. constructor.
    + intros Hin. apply in_app_or in Hin. destruct Hin as [Hin|[Hin|[]]].
      * now apply Hx.
      * apply Hnin. now left.
    + apply IH; [exact Hxs|]. intros Hin. apply Hnin. now right.
Qed.

(** X1.  The set of listeners: a callback subscribed twice is registered once,
    and is called once at each change of state. *)
Theorem onStateChange_twice_registers_once (s : t) (cb : Listener) :
  NoDup (map listener_id (stateListeners s)) ->
  let s' := onStateChange (onStateChange s cb) cb in
  s' = onStateChange s cb /\
  NoDup (map listener_id (stateListeners s')) /\
  count_occ Nat.eq_dec (map listener_id (stateListeners s')) (listener_id cb) = 1 /\
  forall newState : WidgetState,
    _state s <> newState ->
    calls (snd (set_state s' newState no_trace)) = Laws.round (stateListeners s') newState.
Proof.
  intros HN s'.
  assert (E : s' = onStateChange s cb).
  { unfold s'. unfold onStateChange at 1.
    rewrite existsb_id_true; [reflexivity | apply onStateChange_member]. }
  rewrite E. split; [reflexivity|].
  pose proof (onStateChange_NoDup s cb HN) as HN'.
  split; [exact HN'|]. split.
  - apply NoDup_count_occ'; [exact HN' | apply onStateChange_member].
  - intros newState Hne.
    assert (Hst : _state (onStateChange s cb) = _state s).
    { unfold onStateChange. now destruct (existsb _ _). }
    rewrite set_state_changes by (now rewrite Hst). cbn [snd].
    destruct (notifyStateChange_trace (with_state (onStateChange s cb) newState) no_trace)
      as (Hc & _).
    rewrite Hc. reflexivity.
Qed.

Lemma onStateChange_twice_registers_once_witness :
  let s := fold_left onStateChange Examples.observers Examples.session in
  let cb := {| listener_id := 7; throws := fun _ => false |} in
  calls (snd (set_state (onStateChange (onStateChange s cb) cb) success no_trace))
  = [(1, success); (2, success); (3, success); (7, success)].
Proof.
  intros s cb.
  assert (HN : NoDup (map listener_id (stateListeners s))).
  { repeat constructor; cbn; intuition discriminate. }
  destruct (onStateChange_twice_registers_once s cb HN) as (_ & _ & _ & Hcalls).
  rewrite (Hcalls success); [reflexivity | discriminate].
Defined.

(** X2.  After [unsubscribe], a change of state calls the remaining listeners, in
    their order, and the removed one no more. *)
Theorem unsubscribe_stops_notifications (s : t) (cb : Listener) (newState : WidgetState)
        (tr : Trace) :
  _state s <> newState ->
  let remaining :=
    filter (fun l => negb (Nat.eqb (listener_id l) (listener_id cb))) (stateListeners s) in
  calls (snd (set_state (unsubscribe s cb) newState tr))
  = calls tr ++ Laws.round remaining newState /\
  ~ In (listener_id cb) (map fst (Laws.round remaining newState)).
Proof.
  intros Hne remaining. split.
  - rewrite set_state_changes by exact Hne. cbn [snd].
    destruct (notifyStateChange_trace (with_state (unsubscribe s cb) newState) tr) as (Hc & _).
    rewrite Hc. reflexivity.
  - unfold Laws.round. rewrite map_map. cbn [fst]. intros Hin.
    apply in_map_iff in Hin. destruct Hin as (l & Hid & Hl).
    apply filter_In in Hl. destruct Hl as (_ & Hl).
    apply negb_true_iff, Nat.eqb_neq in Hl. contradiction.
Qed.

Lemma unsubscribe_stops_notifications_witness :
  let s := fold_left onStateChange Examples.observers Examples.session in
  calls (snd (set_state (unsubscribe s {| listener_id := 2; throws := fun _ => true |})
                        success no_trace))
  = [(1, success); (3, success)].
Proof.
  intros s.
  refine (proj1 (unsubscribe_stops_notifications
                   s {| listener_id := 2; throws := fun _ => true |} success no_trace _)).
  discriminate.
Defined.

Lemma assign_states_trace (states : list WidgetState) :
  forall (s : t) (tr : Trace),
    calls (snd (Laws.assign_states s states tr))
    = calls tr ++ flat_map (Laws.round (stateListeners s)) (Laws.changes (_state s) states) /\
    _state (fst (Laws.assign_states s states tr)) = last states (_state s) /\
    stateListeners (fst (Laws.assign_states s states tr)) = stateListeners s.
Proof.
  unfold Laws.assign_states.
  induction states as [|st rest IH]; intros s tr.
  - cbn. now rewrite app_nil_r.
  - cbn [fold_left Laws.changes]. unfold set_state at 2 4 6.
    destruct (WidgetState_eqb (_state s) st) eqn:E; cbn [negb].
    + apply WidgetState_eqb_eq in E. destruct (IH s tr) as (Hc & Hs & Hl).
      rewrite Hc, Hs, Hl. repeat split; try reflexivity.
      destruct rest as [|st' rest']; [cbn; congruence|].
      change (last (st :: st' :: rest') (_state s)) with (last (st' :: rest') (_state s)).
      reflexivity.
    + destruct (IH (with_state s st) (notifyStateChange (with_state s st) tr))
        as (Hc & Hs & Hl).
      rewrite Hc, Hs, Hl.
      destruct (notifyStateChange_trace (with_state s st) tr) as (Hn & _).
      rewrite Hn. cbn [with_state stateListeners _state flat_map].
      rewrite <- app_assoc. repeat split; try reflexivity.
      symmetry. apply last_cons_default.
Qed.

(** X3.  A sequence of state assignments notifies the listeners once per actual
    change: an assignment of the state that the session is already in calls
    nobody. *)
Theorem state_assignments_notify_once_per_change
        (s : t) (states : list WidgetState) (tr : Trace) :
  calls (snd (Laws.assign_states s states tr))
  = calls tr ++ flat_map (Laws.round (stateListeners s)) (Laws.changes (_state s) states) /\
  _state (fst (Laws.assign_states s states tr)) = last states (_state s).
Proof.
  destruct (assign_states_trace states s tr) as (Hc & Hs & _). now split.
Qed.

(** X4.  A session is expired exactly when its remaining time is 0.  With a
    valid expiry date [e] the remaining time is max(0, e - now), a number
    that is not negative, and the session is expired exactly from the
    instant [e] on; with an invalid one the session is never expired and its
    remaining time is NaN. *)
Theorem isExpired_iff_no_time_remaining (s : t) (now : Z) :
  (isExpired s now = true <-> getTimeRemaining s now = Some 0%Z) /\
  match expiresAt s with
  | Some e =>
      exists r, getTimeRemaining s now = Some r /\
                r = Z.max 0 (e - now) /\ (0 <= r)%Z /\ (e - now <= r)%Z /\
                (isExpired s now = true <-> (e <= now)%Z)
  | None => isExpired s now = false /\ getTimeRemaining s now = None
  end.
Proof.
  unfold isExpired, getTimeRemaining. destruct (expiresAt s) as [e|].
  - split.
    + rewrite Z.leb_le. split.
      * intros Hle. f_equal. lia.
      * intros E. injection E as E. lia.
    + exists (Z.max 0 (e - now)). rewrite Z.leb_le. repeat split; lia.
  - split; [split; discriminate | now split].
Qed.

End SessionLaws.

(** ** Outcomes of the wait for verification *)

Section WaitLaws.

Import CaptchaSession PoUWCaptcha.

Lemma set_state_result (s : t) (newState : WidgetState) (tr : Trace) :
  fst (set_state s newState tr) = with_state s newState.
Proof.
  unfold set_state. destruct (WidgetState_eqb (_state s) newState) eqn:E; [|reflexivity].
  apply WidgetState_eqb_eq in E. cbn [negb fst]. destruct s; cbn in *. now subst.
Qed.

(** X5.  The outcome of the first poll, by priority: a missing session, then
    completion, then the error state, then expiry; the three tests on the
    session are not exclusive, and the promise keeps the first settlement.
    The poll leaves the wait pending exactly when none of them applies. *)
Theorem first_poll_outcome (session : option t) (now : Z) :
  promise (step start (Poll session now)) =
    match session with
    | None => Rejected (CaptchaError SESSION_EXPIRED "Session was disposed")
    | Some s =>
        if isCompleted s then
          Resolved {| token := match _captchaToken s with
                               | Some t => t
                               | None => EmptyString
                               end;
                      result_expiresAt := expiresAt s;
                      result_sessionId := sessionId s;
                      verificationPerformed := true |}
        else if WidgetState_eqb (state s) error then
          Rejected (match _error s with
                    | Some m => SessionError m
                    | None => CaptchaError UNKNOWN_ERROR "Verification failed"
                    end)
        else if isExpired s now then
          Rejected (CaptchaError SESSION_EXPIRED "Session expired")
        else Pending
    end /\
  (promise (step start (Poll session now)) = Pending <->
   Spec.uneventful (Poll session now)).
Proof.
  assert (Hout : promise (step start (Poll session now)) =
    match session with
    | None => Rejected (CaptchaError SESSION_EXPIRED "Session was disposed")
    | Some s =>
        if isCompleted s then
          Resolved {| token := match _captchaToken s with
                               | Some t => t
                               | None => EmptyString
                               end;
                      result_expiresAt := expiresAt s;
                      result_sessionId := sessionId s;
                      verificationPerformed := true |}
        else if WidgetState_eqb (state s) error then
          Rejected (match _error s with
                    | Some m => SessionError m
                    | None => CaptchaError UNKNOWN_ERROR "Verification failed"
                    end)
        else if isExpired s now then
          Rejected (CaptchaError SESSION_EXPIRED "Session expired")
        else Pending
    end).
  { cbn [step start interval_armed]. unfold checkComplete.
    destruct session as [s|]; [|reflexivity].
    destruct (isCompleted s), (WidgetState_eqb (state s) error), (isExpired s now);
      reflexivity. }
  split; [exact Hout|]. rewrite Hout. clear Hout.
  destruct session as [s|]; cbn [Spec.uneventful]; [|split; [discriminate|contradiction]].
  destruct (isCompleted s); [split; [discriminate|intros (E & _); discriminate E]|].
  destruct (WidgetState_eqb (state s) error) eqn:Eerr.
  - apply WidgetState_eqb_eq in Eerr. split; [discriminate|]. intros (_ & Hne & _).
    contradiction.
  - apply WidgetState_eqb_neq in Eerr.
    destruct (isExpired s now); [split; [discriminate|intros (_ & _ & E); discriminate E]|].
    split; [intros _; now repeat split | reflexivity].
Qed.

(** X6.  Once the session's error is set, the next poll rejects the wait with
    that very error, whatever the session was before (completed, expired or
    not), and nothing that runs later changes the outcome. *)
Theorem wait_rejects_with_session_error
        (s : t) (message : string) (tr : Trace) (now : Z) (later : list Event) :
  let failed := fst (set_error s (Some message) tr) in
  promise (run (Poll (Some failed) now :: later) start) = Rejected (SessionError message).
Proof.
  intros failed.
  assert (Hst : _state failed = error /\ _error failed = Some message).
  { unfold failed, set_error. rewrite set_state_result. now split. }
  destruct Hst as (Hst & Herr).
  assert (Hstep : promise (step start (Poll (Some failed) now)) = Rejected (SessionError message)).
  { cbn [step start interval_armed]. unfold checkComplete, isCompleted, state.
    rewrite Hst, Herr. cbn [WidgetState_eqb andb promise reject].
    destruct (isExpired failed now); reflexivity. }
  cbn [run fold_left]. fold (run later (step start (Poll (Some failed) now))).
  rewrite settled_run; rewrite Hstep; [reflexivity | discriminate].
Qed.

(** X7.  After a successful verification (the token stored, then the state set to
    success) the next poll resolves the wait with that token, marked as
    verified, even when the session has expired in the meantime; nothing that
    runs later changes the outcome. *)
Theorem wait_resolves_after_verification
        (s : t) (captchaToken : string) (tr : Trace) (now : Z) (later : list Event) :
  let verified := fst (set_state (set_captchaToken s (Some captchaToken)) success tr) in
  promise (run (Poll (Some verified) now :: later) start) =
    Resolved {| token := captchaToken;
                result_expiresAt := expiresAt s;
                result_sessionId := sessionId s;
                verificationPerformed := true |}.
Proof.
  intros verified.
  assert (E : verified = with_state (set_captchaToken s (Some captchaToken)) success).
  { unfold verified. apply set_state_result. }
  assert (Hstep : promise (step start (Poll (Some verified) now)) =
                  Resolved {| token := captchaToken;
                              result_expiresAt := expiresAt s;
                              result_sessionId := sessionId s;
                              verificationPerformed := true |}).
  { rewrite E. cbn [step start interval_armed]. unfold checkComplete, isCompleted, state.
    cbn [with_state set_captchaToken _state _captchaToken WidgetState_eqb andb
         promise resolve reject createResult expiresAt sessionId].
    match goal with |- context [isExpired ?x now] => destruct (isExpired x now) end;
      reflexivity. }
  cbn [run fold_left]. fold (run later (step start (Poll (Some verified) now))).
  rewrite settled_run; rewrite Hstep; [reflexivity | discriminate].
Qed.

Lemma disarmed_poll (wt : Wait) (ev : Event) :
  Laws.is_poll ev -> interval_armed wt = false -> step wt ev = wt.
Proof.
  destruct ev as [session now|session]; cbn [Laws.is_poll step]; [|contradiction].
  intros _ ->. reflexivity.
Qed.

Lemma disarmed_polls (events : list Event) (wt : Wait) :
  Forall Laws.is_poll events -> interval_armed wt = false -> run events wt = wt.
Proof.
  induction 1 as [|ev events Hev _ IH]; intros Hd; [reflexivity|].
  cbn [run fold_left]. rewrite (disarmed_poll wt ev Hev Hd). exact (IH Hd).
Qed.

(** X8.  When the deadline timer fires on a pending wait whose session is
    completed (the completion came after the last poll), it clears the
    interval and settles nothing: the wait is still pending after any number
    of further polls, since none of them runs the check. *)
Theorem deadline_on_completed_session_never_settles
        (s : t) (before after : list Event) :
  Forall Spec.uneventful before ->
  isCompleted s = true ->
  Forall Laws.is_poll after ->
  promise (run (before ++ Deadline (Some s) :: after) start) = Pending /\
  interval_armed (run (before ++ Deadline (Some s) :: after) start) = false.
Proof.
  intros Hbefore Hdone Hafter.
  rewrite run_app, (uneventful_run before start Hbefore).
  cbn [run fold_left]. fold (run after (step start (Deadline (Some s)))).
  assert (Hstep : step start (Deadline (Some s)) = {| promise := Pending; interval_armed := false |}).
  { cbn [step]. unfold onTimeout. rewrite Hdone. reflexivity. }
  rewrite Hstep, disarmed_polls by (exact Hafter || reflexivity). now split.
Qed.

Lemma deadline_on_completed_session_never_settles_witness :
  let waiting := Examples.session in
  let completed := with_state (set_captchaToken Examples.session (Some "token-1"%string)) success in
  promise (run ([Poll (Some waiting) 100; Poll (Some waiting) 200]
                  ++ Deadline (Some completed)
                  :: [Poll (Some completed) 300; Poll (Some completed) 400]) start)
  = Pending.
Proof.
  intros waiting completed.
  refine (proj1 (deadline_on_completed_session_never_settles
                   completed [Poll (Some waiting) 100; Poll (Some waiting) 200]
                   [Poll (Some completed) 300; Poll (Some completed) 400] _ _ _)).
  - repeat constructor; discriminate.
  - reflexivity.
  - repeat constructor.
Defined.

End WaitLaws.

(** ** Failure of a layer and of an execution *)

Section LayerLaws.

Import JS NeuralLayer.
Context `{Platform}.

Lemma for_loop_length (n : nat) (body : nat -> Float32Array -> Float32Array)
      (init : Float32Array) :
  (forall i a, List.length (body i a) = List.length a) ->
  List.length (for_loop n body init) = List.length init.
Proof.
  intros Hbody.
  apply (for_loop_invariant (fun _ a => List.length a = List.length init));
    [reflexivity|].
  intros i a _ Ha. now rewrite Hbody.
Qed.

Lemma set_length (a : Float32Array) (i : nat) (x : number) :
  List.length (F32.set a i x) = List.length a.
Proof. apply update_length. Qed.

(** What a pass that creates its output array of length [n] and then only
    writes elements comes to. *)
Lemma created_then_filled (n : nat) (fill : Float32Array -> Float32Array) :
  (forall a, List.length (fill a) = List.length a) ->
  (if (N.of_nat n <=? Float32Array_max_length)%N
   then exists output,
       bind (new_Float32Array n) (fun output => Normal (fill output)) = Normal output /\
       List.length output = n
   else exists message,
       bind (new_Float32Array n) (fun output => Normal (fill output))
       = Throw (RangeError message)).
Proof.
  intros Hfill. unfold new_Float32Array.
  destruct (N.of_nat n <=? Float32Array_max_length)%N; cbn [bind].
  - eexists. split; [reflexivity|]. rewrite Hfill. apply make_length.
  - eauto.
Qed.

Lemma zero_within : (N.of_nat 0 <=? Float32Array_max_length)%N = true.
Proof. apply N.leb_le, N.le_0_l. Qed.

Lemma conv2dForward_outcome (L : t) (input : Float32Array) :
  let n := match dim (inputShape L) 0, dim (outputShape L) 1,
                 dim (outputShape L) 2, dim (outputShape L) 3 with
           | Some batch, Some outHeight, Some outWidth, Some outChannels =>
               (batch * outHeight * outWidth * outChannels)%nat
           | _, _, _, _ => 0%nat
           end in
  if (N.of_nat n <=? Float32Array_max_length)%N
  then exists output, conv2dForward L input = Normal output /\ List.length output = n
  else exists message, conv2dForward L input = Throw (RangeError message).
Proof.
  unfold conv2dForward.
  destruct (dim (inputShape L) 0) as [batch|], (dim (outputShape L) 1) as [outHeight|],
           (dim (outputShape L) 2) as [outWidth|], (dim (outputShape L) 3) as [outChannels|];
    try (cbv beta iota zeta; rewrite zero_within; eexists; split; reflexivity).
  cbv zeta. apply created_then_filled.
  intros a0. apply for_loop_length.
  intros b a. apply for_loop_length.
  intros oc a1. apply for_loop_length.
  intros oh a2. apply for_loop_length.
  intros ow a3. apply set_length.
Qed.

Lemma maxPoolForward_outcome (L : t) (input : Float32Array) :
  let n := match dim (inputShape L) 0, dim (inputShape L) 1,
                 dim (inputShape L) 2, dim (inputShape L) 3 with
           | Some batch, Some inHeight, Some inWidth, Some channels =>
               (batch * (inHeight / 2) * (inWidth / 2) * channels)%nat
           | _, _, _, _ => 0%nat
           end in
  if (N.of_nat n <=? Float32Array_max_length)%N
  then exists output, maxPoolForward L input = Normal output /\ List.length output = n
  else exists message, maxPoolForward L input = Throw (RangeError message).
Proof.
  unfold maxPoolForward.
  destruct (dim (inputShape L) 0) as [batch|], (dim (inputShape L) 1) as [inHeight|],
           (dim (inputShape L) 2) as [inWidth|], (dim (inputShape L) 3) as [channels|];
    try (cbv beta iota zeta; rewrite zero_within; eexists; split; reflexivity).
  cbv zeta. apply created_then_filled.
  intros a0. apply for_loop_length.
  intros b a. apply for_loop_length.
  intros c a1. apply for_loop_length.
  intros oh a2. apply for_loop_length.
  intros ow a3. apply set_length.
Qed.

Lemma denseForward_outcome (L : t) (input : Float32Array) :
  let n := bound (last_dim (outputShape L)) in
  if (N.of_nat n <=? Float32Array_max_length)%N
  then exists output, denseForward L input = Normal output /\ List.length output = n
  else exists message, denseForward L input = Throw (RangeError message).
Proof.
  unfold denseForward. cbv zeta. apply created_then_filled.
  intros a0. apply for_loop_length. intros o a. apply set_length.
Qed.

(** The three outcomes of the [switch] of [forward] with its activation. *)
Lemma forward_output_outcome (L : t) (input : Float32Array) :
  if Laws.supported_type (type L)
  then if Laws.creatable L
       then exists output,
           forward_output L input = Normal output /\
           List.length output = Laws.output_length L (List.length input)
       else exists message, forward_output L input = Throw (RangeError message)
  else forward_output L input = Throw (Error ("Unsupported layer type: " ++ type L)).
Proof.
  unfold Laws.supported_type, Laws.creatable, Laws.created_length, Laws.output_length,
    forward_output.
  destruct (String.eqb (type L) "conv2d").
  { cbn [orb]. pose proof (conv2dForward_outcome L input) as Hpass. cbv zeta in Hpass.
    destruct (N.of_nat _ <=? Float32Array_max_length)%N.
    - destruct Hpass as (output & -> & Hlen). cbn [bind]. eexists. split; [reflexivity|].
      now rewrite applyActivation_length.
    - destruct Hpass as (message & ->). cbn [bind]. eauto. }
  destruct (String.eqb (type L) "dense" || String.eqb (type L) "fully_connected") eqn:Hdense.
  { assert (Hs : (false || String.eqb (type L) "dense" || String.eqb (type L) "fully_connected"
                  || String.eqb (type L) "maxpool2d" || String.eqb (type L) "flatten") = true).
    { cbn [orb]. rewrite Hdense. reflexivity. }
    rewrite Hs.
    pose proof (denseForward_outcome L input) as Hpass. cbv zeta in Hpass.
    destruct (N.of_nat _ <=? Float32Array_max_length)%N.
    - destruct Hpass as (output & -> & Hlen). cbn [bind]. eexists. split; [reflexivity|].
      now rewrite applyActivation_length.
    - destruct Hpass as (message & ->). cbn [bind]. eauto. }
  apply orb_false_iff in Hdense. destruct Hdense as (-> & ->). cbn [orb].
  destruct (String.eqb (type L) "maxpool2d").
  { cbn [orb]. pose proof (maxPoolForward_outcome L input) as Hpass. cbv zeta in Hpass.
    destruct (N.of_nat _ <=? Float32Array_max_length)%N.
    - destruct Hpass as (output & -> & Hlen). cbn [bind]. eexists. split; [reflexivity|].
      now rewrite applyActivation_length.
    - destruct Hpass as (message & ->). cbn [bind]. eauto. }
  destruct (String.eqb (type L) "flatten").
  { cbn [orb]. rewrite zero_within. cbn [bind]. eexists. split; [reflexivity|].
    now rewrite applyActivation_length. }
  reflexivity.
Qed.





(** X10.  The number of elements that [forward] returns is fixed by the layer's
    type and shapes: batch x outHeight x outWidth x outChannels for conv2d,
    the last output dimension for dense and fully_connected, batch x
    floor(inHeight / 2) x floor(inWidth / 2) x channels for maxpool2d (whose
    declared output shape is not read), and the length of the input for
    flatten.  Except for flatten it does not depend on the input, whose
    length is never checked, nor on the weights, the biases or the
    activation. *)
Theorem forward_output_length (L : t) (input output : Float32Array) :
  forward_output L input = Normal output ->
  List.length output = Laws.output_length L (List.length input).
Proof.
  intros Hrun. pose proof (forward_output_outcome L input) as Hout.
  destruct (Laws.supported_type (type L)); [|congruence].
  destruct (Laws.creatable L).
  - destruct Hout as (output' & Hout & Hlen). congruence.
  - destruct Hout as (message & Hout). congruence.
Qed.

End LayerLaws.

(** A pooling layer over a 4 x 4 x 3 image returns 2 x 2 x 3 = 12 elements,
    also for an input that is too short. *)
Lemma forward_output_length_witness :
  exists output,
    NeuralLayer.forward_output (H := Reference.platform)
      (NeuralLayer.new MoreExamples.maxpool_4_4_3) Examples.input_1234
    = JS.Normal output /\
    List.length output = 12%nat.
Proof.
  eexists. split; [reflexivity|].
  apply (forward_output_length (H := Reference.platform)
           (NeuralLayer.new MoreExamples.maxpool_4_4_3) Examples.input_1234).
  reflexivity.
Defined.


Section ExecutionLaws.

Import JS ShardInferenceEngine.
Context `{Platform}.




End ExecutionLaws.


(** ** Bytes, decoding and the data-URL prefix *)

Section BufferLaws.

Lemma to_Float32Array_total (n : nat) :
  forall bytes : list Byte.byte,
    (List.length bytes <= n)%nat ->
    (List.length bytes mod 4 = 0)%nat ->
    exists a, Buffer.to_Float32Array bytes = Some a.
Proof.
  induction n as [|n IH]; intros bytes Hn Hmod.
  - destruct bytes; [|cbn in Hn; lia]. now exists [].
  - destruct bytes as [|b0 [|b1 [|b2 [|b3 rest]]]]; cbn [List.length] in *;
      try (cbn in Hmod; discriminate Hmod).
    + now exists [].
    + destruct (IH rest) as (a & Ha); [lia| |].
      * replace (S (S (S (S (List.length rest))))) with (List.length rest + 1 * 4)%nat
          in Hmod by lia.
        now rewrite Nat.Div0.mod_add in Hmod.
      * cbn [Buffer.to_Float32Array]. rewrite Ha. eauto.
Qed.

Lemma to_Float32Array_some_iff (bytes : list Byte.byte) :
  (exists a, Buffer.to_Float32Array bytes = Some a) <-> (List.length bytes mod 4 = 0)%nat.
Proof.
  split.
  - intros (a & Ha).
    rewrite (to_Float32Array_length (List.length bytes) bytes a (le_n _) Ha).
    rewrite Nat.mul_comm. apply Nat.Div0.mod_mul.
  - apply (to_Float32Array_total (List.length bytes)). apply le_n.
Qed.

Lemma Z_of_byte_of_Z (z : Z) : Buffer.Z_of_byte (Buffer.byte_of_Z z) = (z mod 256)%Z.
Proof.
  unfold Buffer.Z_of_byte, Buffer.byte_of_Z.
  assert (Hr : (0 <= z mod 256 < 256)%Z) by (apply Z.mod_pos_bound; lia).
  destruct (Byte.of_N (Z.to_N (z mod 256))) as [b|] eqn:E.
  - apply Byte.to_of_N in E. rewrite E. rewrite Z2N.id; lia.
  - apply Byte.of_N_None_iff in E. lia.
Qed.

Lemma word_bytes_value (w : Z) :
  Laws.word32 w ->
  (Buffer.Z_of_byte (Buffer.byte_of_Z w)
   + 256 * (Buffer.Z_of_byte (Buffer.byte_of_Z (Z.shiftr w 8))
            + 256 * (Buffer.Z_of_byte (Buffer.byte_of_Z (Z.shiftr w 16))
                     + 256 * Buffer.Z_of_byte (Buffer.byte_of_Z (Z.shiftr w 24)))))%Z
  = w.
Proof.
  unfold Laws.word32. intros Hw. rewrite !Z_of_byte_of_Z, !Z.shiftr_div_pow2 by lia.
  change (2 ^ 8)%Z with 256%Z. change (2 ^ 16)%Z with 65536%Z.
  change (2 ^ 24)%Z with 16777216%Z. change (2 ^ 32)%Z with 4294967296%Z in Hw.
  Z.div_mod_to_equations. lia.
Qed.

Lemma buffer_round_trip (a : Float32Array) :
  Forall Laws.word32 a ->
  Buffer.to_Float32Array (Buffer.of_Float32Array a) = Some a.
Proof.
  induction 1 as [|w a Hw _ IH]; [reflexivity|].
  unfold Buffer.of_Float32Array in *. cbn [flat_map Buffer.word_bytes app].
  cbn [Buffer.to_Float32Array]. rewrite IH. now rewrite word_bytes_value.
Qed.

(** X12.  The bytes that [hashTensor] digests determine the tensor: converting the
    buffer back gives the same elements, four bytes each, so that two
    different tensors are never hashed from the same bytes. *)
Theorem tensor_bytes_round_trip (a : Float32Array) :
  Forall Laws.word32 a ->
  Buffer.to_Float32Array (Buffer.of_Float32Array a) = Some a /\
  List.length (Buffer.of_Float32Array a) = (4 * List.length a)%nat /\
  forall b : Float32Array,
    Forall Laws.word32 b ->
    Buffer.of_Float32Array b = Buffer.of_Float32Array a -> b = a.
Proof.
  intros Ha. pose proof (buffer_round_trip a Ha) as Hrt.
  split; [exact Hrt|]. split.
  - apply (to_Float32Array_length (List.length (Buffer.of_Float32Array a)) _ a (le_n _) Hrt).
  - intros b Hb Heq. pose proof (buffer_round_trip b Hb) as Hrb.
    rewrite Heq, Hrt in Hrb. now injection Hrb.
Qed.

Lemma tensor_bytes_round_trip_witness :
  Buffer.to_Float32Array (Buffer.of_Float32Array Examples.input_1234)
  = Some Examples.input_1234.
Proof.
  refine (proj1 (tensor_bytes_round_trip Examples.input_1234 _)).
  repeat constructor; vm_compute; intuition discriminate.
Defined.

End BufferLaws.

Section DecodingLaws.

Import JS ShardInferenceEngine.
Context `{Platform}.

(** X13.  [decodeInput] has three outcomes, decided by the payload alone: an
    InvalidCharacterError exactly when [atob] rejects the payload, a
    RangeError exactly when the decoded bytes are not a multiple of four, and
    a tensor otherwise; the declared shape causes no failure. *)
Theorem decodeInput_outcomes (self : t) (data : string) (shape : list nat) :
  match atob (strip_data_url_prefix data) with
  | None => decodeInput self data shape = Throw InvalidCharacterError
  | Some binaryString =>
      if (String.length binaryString mod 4 =? 0)%nat
      then exists a, decodeInput self data shape = Normal a /\
                     List.length a = (String.length binaryString / 4)%nat
      else decodeInput self data shape
           = Throw (RangeError "byte length of Float32Array should be a multiple of 4")
  end.
Proof.
  unfold decodeInput. destruct (atob (strip_data_url_prefix data)) as [bin|]; [|reflexivity].
  rewrite <- (list_byte_of_string_length bin).
  destruct (Nat.eqb_spec (List.length (list_byte_of_string bin) mod 4) 0) as [Hmod|Hmod].
  - destruct (proj2 (to_Float32Array_some_iff _) Hmod) as (a & Ha). rewrite Ha.
    exists a. split; [reflexivity|].
    rewrite (to_Float32Array_length _ _ a (le_n _) Ha).
    rewrite Nat.mul_comm, Nat.div_mul; lia.
  - destruct (Buffer.to_Float32Array (list_byte_of_string bin)) as [a|] eqn:Ha; [|reflexivity].
    exfalso. apply Hmod. apply to_Float32Array_some_iff. eauto.
Qed.

End DecodingLaws.

Section PrefixLaws.

Import ShardInferenceEngine.

Lemma substring_all (s : string) : String.substring 0 (String.length s) s = s.
Proof. induction s as [|c s IH]; [reflexivity|]. cbn. now rewrite IH. Qed.

Lemma drop_string_app (a b : string) :
  drop_string (String.length a) (a ++ b) = b.
Proof.
  unfold drop_string. induction a as [|c a IH].
  - cbn [String.length append]. rewrite Nat.sub_0_r. apply substring_all.
  - cbn [String.length append String.substring]. exact IH.
Qed.

Lemma prefix_empty (s : string) : String.prefix EmptyString s = true.
Proof. now destruct s. Qed.

Lemma prefix_other (c d : ascii) (m r : string) :
  c <> d -> String.prefix (String c m) (String d r) = false.
Proof. intros Hne. cbn [String.prefix]. destruct (ascii_dec c d); [contradiction|reflexivity]. Qed.

Lemma no_terminator_start (c : ascii) (r : string) :
  Laws.no_terminator c = true -> is_line_terminator (String c r) = false.
Proof.
  unfold Laws.no_terminator, is_line_terminator. intros Hc.
  apply andb_prop in Hc. destruct Hc as (Hc & H226).
  apply andb_prop in Hc. destruct Hc as (H10 & H13).
  apply negb_true_iff in H10, H13, H226. rewrite H10, H13. cbn [orb].
  apply Ascii.eqb_neq in H226.
  rewrite !prefix_other by (intros E; apply H226; now symmetry). reflexivity.
Qed.

Lemma after_last_marker_no_semicolon (s : string) :
  Laws.every Laws.no_semicolon s = true -> after_last_marker s = None.
Proof.
  unfold Laws.every. induction s as [|c s IH]; [reflexivity|].
  cbn [list_ascii_of_string forallb]. intros Hs. apply andb_prop in Hs.
  destruct Hs as (Hc & Hs). cbn [after_last_marker]. rewrite (IH Hs).
  apply negb_true_iff, Ascii.eqb_neq in Hc.
  rewrite prefix_other by (intros E; apply Hc; now symmetry).
  now destruct (is_line_terminator (String c s)).
Qed.

Lemma after_last_marker_marker (payload : string) :
  after_last_marker payload = None ->
  after_last_marker (";base64," ++ payload) = Some payload.
Proof.
  intros Hp.
  change (";base64," ++ payload)%string
    with (String ";" (String "b" (String "a" (String "s" (String "e" (String "6"
           (String "4" (String "," payload)))))))).
  cbn [after_last_marker]. rewrite Hp.
  rewrite !no_terminator_start by reflexivity.
  rewrite !(prefix_other ";") by discriminate.
  change (String ";" (String "b" (String "a" (String "s" (String "e" (String "6"
           (String "4" (String "," payload))))))))
    with (";base64," ++ payload)%string.
  replace (String.prefix ";base64," (";base64," ++ payload)) with true.
  - f_equal. apply (drop_string_app ";base64," payload).
  - symmetry. cbn [append String.prefix].
    repeat match goal with
           | |- context [ascii_dec ?a ?b] => destruct (ascii_dec a b); [|congruence]
           end.
    apply prefix_empty.
Qed.

Lemma after_last_marker_through (mime rest : string) (found : string) :
  Laws.every Laws.no_terminator mime = true ->
  after_last_marker rest = Some found ->
  after_last_marker (mime ++ rest) = Some found.
Proof.
  unfold Laws.every. induction mime as [|c mime IH]; intros Hm Hrest; [exact Hrest|].
  cbn [list_ascii_of_string forallb] in Hm. apply andb_prop in Hm. destruct Hm as (Hc & Hm).
  cbn [append after_last_marker]. rewrite (no_terminator_start c _ Hc).
  now rewrite (IH Hm Hrest).
Qed.

(** X14.  The data-URL prefix is removed: from 'data:<mime>;base64,<payload>',
    whose media type holds no line terminator and whose payload holds no
    semicolon (as no base64 text does), exactly the payload is left. *)
Theorem strip_data_url_prefix_leaves_payload (mime payload : string) :
  Laws.every Laws.no_terminator mime = true ->
  Laws.every Laws.no_semicolon payload = true ->
  strip_data_url_prefix ("data:" ++ mime ++ ";base64," ++ payload) = payload.
Proof.
  intros Hm Hp. unfold strip_data_url_prefix.
  replace (String.prefix "data:" ("data:" ++ mime ++ ";base64," ++ payload)) with true.
  - pose proof (drop_string_app "data:" (mime ++ ";base64," ++ payload)) as Hdrop.
    cbn [String.length] in Hdrop. rewrite Hdrop.
    rewrite (after_last_marker_through mime _ payload Hm); [reflexivity|].
    apply after_last_marker_marker. now apply after_last_marker_no_semicolon.
  - symmetry. cbn [append String.prefix].
    repeat match goal with
           | |- context [ascii_dec ?a ?b] => destruct (ascii_dec a b); [|congruence]
           end.
    apply prefix_empty.
Qed.

Lemma strip_data_url_prefix_leaves_payload_witness :
  strip_data_url_prefix ("data:" ++ "application/octet-stream" ++ ";base64,"
                           ++ Examples.input_1234_base64)
  = Examples.input_1234_base64.
Proof.
  apply strip_data_url_prefix_leaves_payload; reflexivity.
Defined.

End PrefixLaws.

(** ** Hash texts and the proof text *)

Section HashLaws.

Import Crypto.

Lemma hex_byte_shape (b : Byte.byte) :
  exists c1 c2,
    hex_byte b = String c1 (String c2 EmptyString) /\
    Laws.lower_hex c1 = true /\ Laws.lower_hex c2 = true /\
    Laws.unhex (String c1 (String c2 EmptyString)) = Some [b].
Proof.
  destruct b; eexists _, _; (split; [vm_compute; reflexivity|]); repeat split.
Qed.

Lemma hex_cons (b : Byte.byte) (bytes : list Byte.byte) :
  hex (b :: bytes) = (hex_byte b ++ hex bytes)%string.
Proof.
  unfold hex. cbn [map String.concat]. destruct bytes as [|b' bytes].
  - cbn [map String.concat]. destruct (hex_byte_shape b) as (c1 & c2 & -> & _). reflexivity.
  - reflexivity.
Qed.

Lemma hex_shape (bytes : list Byte.byte) :
  String.length (hex bytes) = (2 * List.length bytes)%nat /\
  Laws.every Laws.lower_hex (hex bytes) = true /\
  Laws.unhex (hex bytes) = Some bytes.
Proof.
  induction bytes as [|b bytes (IHl & IHd & IHu)]; [now repeat split|].
  rewrite hex_cons. destruct (hex_byte_shape b) as (c1 & c2 & -> & H1 & H2 & Hu).
  cbn [append String.length List.length]. repeat split.
  - rewrite IHl. lia.
  - unfold Laws.every in *. cbn [list_ascii_of_string forallb]. now rewrite H1, H2, IHd.
  - cbn [Laws.unhex] in *. rewrite IHu.
    destruct (Laws.hex_value c1), (Laws.hex_value c2); try discriminate Hu.
    destruct (Byte.of_N _); [|discriminate Hu]. now injection Hu as ->.
Qed.

Context `{Platform}.

(** X15.  Every hash text ([sha256], [hashData], and with them the output hashes,
    the prediction hash and the proof hash) consists of lower-case
    hexadecimal digits, two for each byte of the digest, and determines the
    digest: reading the digits back gives its bytes. *)
Theorem hash_text_is_lowercase_hex (d : data) :
  let digest := digest_SHA256 (Laws.digested d) in
  String.length (hashData d) = (2 * List.length digest)%nat /\
  Laws.every Laws.lower_hex (hashData d) = true /\
  Laws.unhex (hashData d) = Some digest.
Proof.
  intros digest.
  assert (E : hashData d = hex digest) by (destruct d; reflexivity).
  rewrite E. apply hex_shape.
Qed.

End HashLaws.

Section ProofTextLaws.

Import JS ShardInferenceEngine.
Context `{Platform}.

Lemma string_app_assoc (a b c : string) : ((a ++ b) ++ c = a ++ (b ++ c))%string.
Proof. induction a as [|x a IH]; [reflexivity|]. cbn [append]. now rewrite IH. Qed.

Lemma concat_cons (sep x y : string) (l : list string) :
  String.concat sep (x :: y :: l) = (x ++ sep ++ String.concat sep (y :: l))%string.
Proof. reflexivity. Qed.

(** X16.  The proof text is joined with ':' and its fields are not escaped, so the
    proof hash does not tell where the task id ends and the sample id
    begins: the ids (a:b, c) and (a, b:c) give the same proof hash for the
    same layer outputs and prediction. *)
Theorem proofHash_does_not_separate_ids
        (self : t) (a b c : string) (expectedLayers : nat)
        (layerOutputs : list Float32Array) (prediction : Prediction.t) (w1 w2 : World) :
  InferenceProof.proofHash
    (fst (generateProof self (a ++ ":" ++ b) c expectedLayers layerOutputs prediction w1))
  = InferenceProof.proofHash
      (fst (generateProof self a (b ++ ":" ++ c) expectedLayers layerOutputs prediction w2)).
Proof.
  rewrite !generateProof_proofHash. f_equal. f_equal. unfold Spec.proof_text.
  cbn [app]. rewrite !concat_cons. rewrite !string_app_assoc. reflexivity.
Qed.

End ProofTextLaws.

(** ** The prediction *)

Section PredictionLaws.

Import JS ShardInferenceEngine.

Lemma insert_entry_perm (x : number * nat) (l : list (number * nat)) :
  Permutation (insert_entry x l) (x :: l).
Proof.
  induction l as [|y l IH]; cbn [insert_entry]; [reflexivity|].
  destruct (fst y - fst x <? 0)%float; [reflexivity|].
  rewrite IH. apply perm_swap.
Qed.

Lemma sort_entries_perm_from (l acc : list (number * nat)) :
  Permutation (fold_left (fun sorted x => insert_entry x sorted) l acc) (acc ++ l).
Proof.
  revert acc; induction l as [|x l IH]; intros acc; cbn [fold_left].
  - now rewrite app_nil_r.
  - rewrite IH, insert_entry_perm. apply Permutation_middle.
Qed.

Lemma sort_entries_perm (l : list (number * nat)) : Permutation (sort_entries l) l.
Proof. apply (sort_entries_perm_from l []). Qed.

Lemma argmax_invariant (output : Float32Array) (l : list nat) :
  forall acc : nat * number,
    snd acc = F32.get output (fst acc) ->
    let res :=
      fold_left
        (fun '(maxIdx, maxVal) i =>
           if (maxVal <? F32.get output i)%float then (i, F32.get output i)
           else (maxIdx, maxVal))
        l acc in
    snd res = F32.get output (fst res) /\ (fst res = fst acc \/ In (fst res) l).
Proof.
  induction l as [|i l IH]; intros [maxIdx maxVal] Hacc; cbn [fold_left].
  - split; [exact Hacc | now left].
  - destruct (maxVal <? F32.get output i)%float.
    + destruct (IH (i, F32.get output i) eq_refl) as (Hv & Hi).
      split; [exact Hv|]. cbn [fst] in Hi. right. destruct Hi as [-> | Hi]; [now left | now right].
    + destruct (IH (maxIdx, maxVal) Hacc) as (Hv & Hi).
      split; [exact Hv|]. destruct Hi as [Hi | Hi]; [now left | right; now right].
Qed.

(** X17.  The prediction names a class of the output: its label is the label of
    one class [best] (class 0 when the output is empty) and its confidence is
    that class's value rounded to three decimals.  The top-k list has
    min(5, n) entries for an output of n classes; they stand for pairwise
    different classes, each entry carrying the label of its class (the given
    label, or 'class_<index>' when it is missing or empty) and the class's
    value rounded to three decimals. *)
Theorem generatePrediction_classes
        (self : t) (output : Float32Array) (labels : list string) :
  let rounded i := (Math_round (F32.get output i * 1000) / 1000)%float in
  exists (best : nat) (classes : list nat),
    (best < Nat.max 1 (List.length output))%nat /\
    Prediction.label (generatePrediction self output labels) = label_of labels best /\
    Prediction.confidence (generatePrediction self output labels) = rounded best /\
    List.length classes = Nat.min 5 (List.length output) /\
    NoDup classes /\
    Forall (fun i => (i < List.length output)%nat) classes /\
    Prediction.topK (generatePrediction self output labels) =
      map (fun i => {| Prediction.entry_label := label_of labels i;
                       Prediction.entry_confidence := rounded i |})
          classes.
Proof.
  intros rounded. set (n := List.length output).
  set (entries := map (fun i => (F32.get output i, i)) (seq 0 n)).
  assert (Hperm : Permutation (sort_entries entries) entries) by apply sort_entries_perm.
  assert (Hpairs : Forall (fun e => fst e = F32.get output (snd e)) (sort_entries entries)).
  { apply Forall_forall. intros e He. apply (Permutation_in _ Hperm) in He.
    apply in_map_iff in He. destruct He as (i & <- & _). reflexivity. }
  assert (Hidx : Permutation (map snd (sort_entries entries)) (seq 0 n)).
  { rewrite Hperm. unfold entries. rewrite map_map. cbn [snd]. now rewrite map_id. }
  pose proof (argmax_invariant output (seq 1 (n - 1)) (O, F32.get output 0) eq_refl) as Hmax.
  cbv zeta in Hmax. unfold generatePrediction. fold n.
  match goal with
  | |- context [fold_left ?f (seq 1 (n - 1)) ?init] =>
      destruct (fold_left f (seq 1 (n - 1)) init) as [maxIdx maxVal]
  end.
  cbn [fst snd] in Hmax. destruct Hmax as (Hval & Hbest).
  cbn [Prediction.topK Prediction.label Prediction.confidence].
  exists maxIdx, (map snd (firstn (Nat.min 5 n) (sort_entries entries))).
  split; [|split; [|split; [|split; [|split; [|split]]]]].
  - destruct Hbest as [-> | Hin]; [lia|]. apply in_seq in Hin. lia.
  - reflexivity.
  - unfold rounded. now rewrite Hval.
  - rewrite length_map, length_firstn.
    apply Permutation_length in Hperm. rewrite Hperm. unfold entries.
    rewrite length_map, length_seq. lia.
  - rewrite <- firstn_map. apply firstn_NoDup.
    apply (Permutation_NoDup (Permutation_sym Hidx)). apply seq_NoDup.
  - apply Forall_forall. intros i Hi. rewrite <- firstn_map in Hi.
    apply firstn_subset in Hi.
    apply (Permutation_in _ Hidx) in Hi. apply in_seq in Hi. lia.
  - replace (for_loop n (fun i entries0 => entries0 ++ [(F32.get output i, i)]) [])
      with entries
      by (unfold for_loop, entries; now rewrite (fold_push_map (fun i => (F32.get output i, i)))).
    rewrite map_map.
    assert (Hfirst : Forall (fun e => fst e = F32.get output (snd e))
                            (firstn (Nat.min 5 n) (sort_entries entries))).
    { apply Forall_forall. intros e He. apply firstn_subset in He.
      revert e He. apply Forall_forall. exact Hpairs. }
    induction Hfirst as [|[val idx] rest Hval' _ IH]; [reflexivity|].
    cbn [map fst snd] in *. rewrite IH, Hval'. reflexivity.
Qed.

End PredictionLaws.

(** ** Sharding a model *)

Section ShardingLaws.

Import ModelSharding.

Lemma shardModel_from_flat (config : ShardConfig.t) (todo : list NeuralLayerConfig.t) :
  forall st : state,
    todo <> [] \/ currentShardLayers st = [] ->
    flat_map ModelShard.layers (shardModel_from config todo st)
    = flat_map ModelShard.layers (shards st) ++ currentShardLayers st ++ todo.
Proof.
  induction todo as [|layer rest IH]; intros st Hst.
  - destruct Hst as [Hst | ->]; [contradiction|]. cbn. now rewrite app_nil_r.
  - cbn [shardModel_from].
    assert (Hlen : (0 <? List.length (currentShardLayers st ++ [layer])) = true).
    { apply Nat.ltb_lt. rewrite length_app. cbn. lia. }
    rewrite Hlen, andb_true_r.
    destruct (_ || _) eqn:Hcreate.
    + rewrite IH by (right; reflexivity). cbn [shards currentShardLayers].
      rewrite flat_map_app. cbn [flat_map ModelShard.layers app].
      rewrite app_nil_r, <- !app_assoc. reflexivity.
    + rewrite IH.
      * cbn [shards currentShardLayers]. rewrite <- !app_assoc. reflexivity.
      * left. apply orb_false_iff in Hcreate. destruct Hcreate as (_ & Hrest).
        destruct rest; [discriminate Hrest | discriminate].
Qed.

Lemma shardModel_from_indices (config : ShardConfig.t) (todo : list NeuralLayerConfig.t) :
  forall st : state,
    map ModelShard.index (shards st) = map Z.of_nat (seq 0 (shardIndex st)) ->
    map ModelShard.index (shardModel_from config todo st)
    = map Z.of_nat (seq 0 (List.length (shardModel_from config todo st))).
Proof.
  induction todo as [|layer rest IH]; intros st Hst.
  - cbn [shardModel_from]. rewrite Hst.
    replace (List.length (shards st)) with (shardIndex st); [reflexivity|].
    apply (f_equal (@List.length Z)) in Hst. rewrite !length_map, length_seq in Hst.
    now symmetry.
  - cbn [shardModel_from]. destruct (_ && _).
    + apply IH. cbn [shards shardIndex]. rewrite map_app, seq_S, map_app, Hst. reflexivity.
    + apply IH. exact Hst.
Qed.

Lemma full_chunks_all (m : nat) (sizes : list nat) :
  (1 <= m)%nat -> Forall (fun x => x = m) sizes -> Laws.full_chunks m sizes.
Proof.
  intros Hm. induction 1 as [|x rest -> _ IH]; [exact I|].
  cbn [Laws.full_chunks]. destruct rest; [lia | now split].
Qed.

Lemma full_chunks_last (m x : nat) (sizes : list nat) :
  (1 <= x <= m)%nat -> Forall (fun y => y = m) sizes -> Laws.full_chunks m (sizes ++ [x]).
Proof.
  intros Hx. induction 1 as [|y rest -> _ IH]; [exact Hx|].
  cbn [app Laws.full_chunks]. destruct (rest ++ [x]) eqn:E; [|now split].
  destruct rest; discriminate E.
Qed.

Lemma shardModel_from_sizes (config : ShardConfig.t) (todo : list NeuralLayerConfig.t) :
  let m := Nat.max 1 (ShardConfig.maxLayersPerShard config) in
  forall st : state,
    Forall (fun x => x = m) (map Laws.size (shards st)) ->
    (List.length (currentShardLayers st) < m)%nat ->
    Laws.full_chunks m (map Laws.size (shardModel_from config todo st)).
Proof.
  intros m.
  assert (Hm : m = Nat.max 1 (ShardConfig.maxLayersPerShard config)) by reflexivity.
  clearbody m.
  induction todo as [|layer rest IH]; intros st Hfull Hcur.
  - cbn [shardModel_from]. apply full_chunks_all; [lia | exact Hfull].
  - cbn [shardModel_from].
    assert (Hlen : List.length (currentShardLayers st ++ [layer])
                   = S (List.length (currentShardLayers st)))
      by (rewrite length_app; cbn; lia).
    rewrite Hlen. cbn [Nat.ltb Nat.leb]. rewrite andb_true_r.
    destruct (ShardConfig.maxLayersPerShard config <=? S (List.length (currentShardLayers st)))
      eqn:Hmax; cbn [orb].
    + apply Nat.leb_le in Hmax. apply IH; cbn [shards currentShardLayers List.length]; [|lia].
      rewrite map_app. apply Forall_app. split; [exact Hfull|].
      constructor; [|constructor]. unfold Laws.size. cbn [ModelShard.layers].
      rewrite Hlen. lia.
    + apply Nat.leb_gt in Hmax. destruct rest as [|next rest'].
      * cbn [shardModel_from shards]. rewrite map_app. cbn [map].
        apply full_chunks_last; [|exact Hfull].
        unfold Laws.size. cbn [ModelShard.layers]. rewrite Hlen. lia.
      * apply IH; cbn [shards currentShardLayers]; [exact Hfull|]. rewrite Hlen. lia.
Qed.

Lemma length_flat_map_sizes (l : list ModelShard.t) :
  List.length (flat_map ModelShard.layers l) = list_sum (map Laws.size l).
Proof.
  induction l as [|s l IH]; [reflexivity|].
  cbn [flat_map map list_sum]. rewrite length_app, IH. reflexivity.
Qed.

Lemma full_chunks_count (m : nat) (sizes : list nat) :
  (1 <= m)%nat -> Laws.full_chunks m sizes ->
  List.length sizes = ((list_sum sizes + m - 1) / m)%nat.
Proof.
  intros Hm. induction sizes as [|x rest IH]; intros Hfull.
  - cbn [list_sum fold_right List.length]. symmetry. apply Nat.div_small. lia.
  - destruct rest as [|y rest'].
    + cbn [Laws.full_chunks list_sum fold_right List.length] in *.
      apply (Nat.div_unique _ _ _ (x - 1)); lia.
    + destruct Hfull as (-> & Hfull). specialize (IH Hfull).
      change (List.length (m :: y :: rest')) with (S (List.length (y :: rest'))).
      rewrite IH. change (list_sum (m :: y :: rest')) with (m + list_sum (y :: rest'))%nat.
      replace (m + list_sum (y :: rest') + m - 1)%nat
        with (1 * m + (list_sum (y :: rest') + m - 1))%nat by lia.
      rewrite Nat.div_add_l by lia. lia.
Qed.

Lemma shardModel_from_summarises (config : ShardConfig.t) (todo : list NeuralLayerConfig.t) :
  forall st : state,
    Forall Laws.summarises (shards st) ->
    Forall Laws.summarises (shardModel_from config todo st).
Proof.
  induction todo as [|layer rest IH]; intros st Hst; [exact Hst|].
  cbn [shardModel_from]. destruct (_ && _); apply IH; cbn [shards]; [|exact Hst].
  apply Forall_app. split; [exact Hst|]. constructor; [|constructor].
  unfold Laws.summarises. cbn [ModelShard.layers ModelShard.layerType ModelShard.inputShape
                                ModelShard.outputShape ModelShard.name ModelShard.index].
  rewrite Nat2Z.id.
  destruct (currentShardLayers st) as [|c cs]; cbn [app hd].
  - now repeat split.
  - rewrite last_cons_default, !last_last. now repeat split.
Qed.

(** X18.  [shardModel] cuts the model into consecutive shards: their layers, put
    one after the other, are the model; the shards are numbered 0, 1, 2, ...
    in order; each but the last holds exactly m layers and the last between
    1 and m, for m = max(1, maxLayersPerShard); so there are ceil(n / m)
    shards for a model of n layers.  The fields of each shard describe its
    layers: its layer type and input shape are those of its first layer, its
    output shape that of its last layer, and its name is built from its index
    and the names of these two layers. *)
Theorem shardModel_partition (layers : list NeuralLayerConfig.t) (config : ShardConfig.t) :
  let m := Nat.max 1 (ShardConfig.maxLayersPerShard config) in
  let shards := shardModel layers config in
  flat_map ModelShard.layers shards = layers /\
  map ModelShard.index shards = map Z.of_nat (seq 0 (List.length shards)) /\
  Laws.full_chunks m (map Laws.size shards) /\
  List.length shards = ((List.length layers + m - 1) / m)%nat /\
  Forall Laws.summarises shards.
Proof.
  intros m shards.
  assert (Hflat : flat_map ModelShard.layers shards = layers).
  { unfold shards, shardModel. rewrite shardModel_from_flat by (right; reflexivity).
    reflexivity. }
  assert (Hsizes : Laws.full_chunks m (map Laws.size shards)).
  { unfold shards, shardModel.
    apply shardModel_from_sizes; cbn [ModelSharding.shards currentShardLayers map List.length];
      [constructor | lia]. }
  split; [exact Hflat|]. split; [|split; [exact Hsizes|split]].
  - unfold shards, shardModel. apply shardModel_from_indices. reflexivity.
  - replace (List.length layers) with (list_sum (map Laws.size shards))
      by (now rewrite <- length_flat_map_sizes, Hflat).
    rewrite <- (length_map Laws.size shards). apply full_chunks_count; [lia | exact Hsizes].
  - unfold shards, shardModel. apply shardModel_from_summarises. constructor.
Qed.

Lemma index_sorted_from (k n : nat) (l : list ModelShard.t) :
  map ModelShard.index l = map Z.of_nat (seq k n) ->
  StronglySorted Spec.index_le l.
Proof.
  revert k l. induction n as [|n IH]; intros k l Hl.
  - destruct l; [constructor | discriminate Hl].
  - destruct l as [|s l]; [discriminate Hl|]. cbn [seq map] in Hl.
    injection Hl as Hs Hl. constructor; [now apply (IH (S k))|].
    apply Forall_forall. intros y Hy. unfold Spec.index_le. rewrite Hs.
    apply (in_map ModelShard.index) in Hy. rewrite Hl in Hy.
    apply in_map_iff in Hy. destruct Hy as (j & <- & Hj). apply in_seq in Hj. lia.
Qed.

Lemma index_NoDup (n : nat) (l : list ModelShard.t) :
  map ModelShard.index l = map Z.of_nat (seq 0 n) -> NoDup (map ModelShard.index l).
Proof.
  intros ->. apply map_NoDup; [|apply seq_NoDup].
  intros a b E. lia.
Qed.

(** X19.  Sharding loses nothing and the shard indices give the order back: the
    shards of a model, handed to [mergeShards] in any order, yield the model;
    loaded into the engine in the order in which [shardModel] returned them,
    they yield the model's layers in the original order. *)
Theorem mergeShards_restores_sharded_model
        (layers : list NeuralLayerConfig.t) (config : ShardConfig.t)
        (shuffled : list ModelShard.t) (self : ShardInferenceEngine.t) :
  Permutation shuffled (shardModel layers config) ->
  Sharding.mergeShards shuffled = layers /\
  ShardInferenceEngine.layers (ShardInferenceEngine.loadShards self (shardModel layers config))
  = map NeuralLayer.new layers.
Proof.
  intros Hperm.
  assert (Hflat : flat_map ModelShard.layers (shardModel layers config) = layers).
  { unfold shardModel. rewrite shardModel_from_flat by (right; reflexivity). reflexivity. }
  assert (Hidx : map ModelShard.index (shardModel layers config)
                 = map Z.of_nat (seq 0 (List.length (shardModel layers config)))).
  { unfold shardModel. apply shardModel_from_indices. reflexivity. }
  split.
  - rewrite (mergeShards_permutation shuffled (shardModel layers config) Hperm).
    + rewrite mergeShards_flat_map, sort_shards_sorted; [exact Hflat|].
      eapply index_sorted_from. exact Hidx.
    + eapply Permutation_NoDup.
      * apply Permutation_map. symmetry. exact Hperm.
      * eapply index_NoDup. exact Hidx.
  - now rewrite loadShards_layers, Hflat.
Qed.

Lemma mergeShards_restores_sharded_model_witness :
  Sharding.mergeShards (rev (shardModel MoreExamples.model MoreExamples.one_layer_per_shard))
  = MoreExamples.model.
Proof.
  refine (proj1 (mergeShards_restores_sharded_model
                   MoreExamples.model MoreExamples.one_layer_per_shard
                   (rev (shardModel MoreExamples.model MoreExamples.one_layer_per_shard))
                   Reference.engine _)).
  symmetry. apply Permutation_rev.
Defined.

End ShardingLaws.

Section ShardValidity.

Import ModelSharding.

Lemma same_dim_eq (a b : option nat) : same_dim a b = true <-> a = b.
Proof.
  destruct a as [x|], b as [y|]; cbn [same_dim]; try (split; intros E; discriminate E).
  - rewrite Nat.eqb_eq. split; [now intros -> | now intros [= ->]].
  - split; reflexivity.
Qed.

Lemma connected_cons (prev curr : NeuralLayerConfig.t) (rest : list NeuralLayerConfig.t) :
  connected (prev :: curr :: rest) = true <->
  NeuralLayer.last_dim (NeuralLayerConfig.outputShape prev)
  = NeuralLayer.last_dim (NeuralLayerConfig.inputShape curr) /\
  connected (curr :: rest) = true.
Proof.
  rewrite <- same_dim_eq.
  change (connected (prev :: curr :: rest))
    with (if negb (same_dim (NeuralLayer.last_dim (NeuralLayerConfig.outputShape prev))
                            (NeuralLayer.last_dim (NeuralLayerConfig.inputShape curr)))
          then false else connected (curr :: rest)).
  destruct (same_dim (NeuralLayer.last_dim (NeuralLayerConfig.outputShape prev))
                     (NeuralLayer.last_dim (NeuralLayerConfig.inputShape curr)));
    cbn [negb]; intuition discriminate.
Qed.

Lemma connected_iff (layers : list NeuralLayerConfig.t) :
  connected layers = true <->
  forall (i : nat) (prevLayer currLayer : NeuralLayerConfig.t),
    nth_error layers i = Some prevLayer ->
    nth_error layers (S i) = Some currLayer ->
    NeuralLayer.last_dim (NeuralLayerConfig.outputShape prevLayer)
    = NeuralLayer.last_dim (NeuralLayerConfig.inputShape currLayer).
Proof.
  induction layers as [|prev [|curr rest] IH].
  - split; [intros _ i p c Hp; destruct i; discriminate Hp | reflexivity].
  - split; [intros _ i p c Hp Hc; destruct i as [|[|i]]; discriminate Hc | reflexivity].
  - rewrite connected_cons, IH. split.
    + intros (Hfirst & Hrest) i p c Hp Hc. destruct i as [|i].
      * cbn in Hp, Hc. injection Hp as <-. injection Hc as <-. exact Hfirst.
      * apply (Hrest i); assumption.
    + intros Hall. split; [apply (Hall 0%nat); reflexivity|].
      intros i p c Hp Hc. apply (Hall (S i)); assumption.
Qed.

(** X20.  [validateShard] accepts a shard exactly when its name is not empty, it
    has at least one layer, and each layer's last output dimension equals the
    next layer's last input dimension (two missing dimensions count as
    equal); nothing else is looked at: not the other dimensions, the weights,
    the layer types or the shard's own shapes. *)
Theorem validateShard_iff (shard : ModelShard.t) :
  validateShard shard = true <->
  ModelShard.name shard <> EmptyString /\
  ModelShard.layers shard <> [] /\
  forall (i : nat) (prevLayer currLayer : NeuralLayerConfig.t),
    nth_error (ModelShard.layers shard) i = Some prevLayer ->
    nth_error (ModelShard.layers shard) (S i) = Some currLayer ->
    NeuralLayer.last_dim (NeuralLayerConfig.outputShape prevLayer)
    = NeuralLayer.last_dim (NeuralLayerConfig.inputShape currLayer).
Proof.
  unfold validateShard. rewrite <- connected_iff.
  destruct (String.eqb_spec (ModelShard.name shard) EmptyString) as [Hname|Hname];
    cbn [orb].
  - split; [intros E; discriminate E | intros (Hn & _); contradiction].
  - destruct (ModelShard.layers shard) as [|l ls]; cbn [List.length Nat.eqb].
    + split; [intros E; discriminate E | intros (_ & Hl & _); contradiction].
    + split; [intros Hc; repeat split; [exact Hname | discriminate | exact Hc]
             | intros (_ & _ & Hc); exact Hc].
Qed.

Lemma connected_app (a b : list NeuralLayerConfig.t) :
  connected (a ++ b) = true -> connected a = true /\ connected b = true.
Proof.
  induction a as [|x a IH]; intros Hc; [now split|].
  destruct a as [|y a].
  - split; [reflexivity|]. destruct b as [|z b]; [reflexivity|].
    cbn [app] in Hc. now apply connected_cons in Hc.
  - cbn [app] in Hc, IH. apply connected_cons in Hc. destruct Hc as (Hxy & Hc).
    destruct (IH Hc) as (Ha & Hb). split; [|exact Hb].
    apply connected_cons. now split.
Qed.

Lemma shardModel_from_valid (config : ShardConfig.t) (todo : list NeuralLayerConfig.t) :
  forall st : state,
    connected (currentShardLayers st ++ todo) = true ->
    Forall (fun s => validateShard s = true) (shards st) ->
    Forall (fun s => validateShard s = true) (shardModel_from config todo st).
Proof.
  induction todo as [|layer rest IH]; intros st Hconn Hvalid; [exact Hvalid|].
  cbn [shardModel_from].
  assert (Happ : (currentShardLayers st ++ [layer]) ++ rest = currentShardLayers st ++ layer :: rest)
    by (now rewrite <- app_assoc).
  destruct (_ && _).
  - rewrite <- Happ in Hconn. apply connected_app in Hconn. destruct Hconn as (Hcur & Hrest).
    apply IH; cbn [shards currentShardLayers app]; [exact Hrest|].
    apply Forall_app. split; [exact Hvalid|]. constructor; [|constructor].
    unfold validateShard. cbn [ModelShard.name ModelShard.layers].
    rewrite length_app. cbn [List.length].
    replace (List.length (currentShardLayers st) + 1 =? 0)%nat with false
      by (symmetry; apply Nat.eqb_neq; lia).
    exact Hcur.
  - apply IH; cbn [shards currentShardLayers]; [|exact Hvalid]. now rewrite Happ.
Qed.

(** X21.  Every shard cut from a model whose consecutive layers fit (each last
    output dimension equal to the next last input dimension) passes
    [validateShard]. *)
Theorem shardModel_shards_are_valid
        (layers : list NeuralLayerConfig.t) (config : ShardConfig.t) :
  connected layers = true ->
  Forall (fun shard => validateShard shard = true) (shardModel layers config).
Proof.
  intros Hconn. unfold shardModel. apply shardModel_from_valid; [exact Hconn | constructor].
Qed.

Lemma shardModel_shards_are_valid_witness :
  Forall (fun shard => validateShard shard = true)
         (shardModel MoreExamples.model MoreExamples.two_layers_per_shard) /\
  map Laws.size (shardModel MoreExamples.model MoreExamples.two_layers_per_shard)
  = [2; 1]%nat.
Proof.
  split; [|reflexivity].
  apply (shardModel_shards_are_valid MoreExamples.model MoreExamples.two_layers_per_shard).
  reflexivity.
Defined.

End ShardValidity.

(** ** Shard tasks *)

Section TaskLaws.

Import JS ModelSharding.

Lemma total_layers_cons (shard : ModelShard.t) (l : list ModelShard.t) :
  Laws.total_layers (shard :: l)
  = (List.length (ModelShard.layers shard) + Laws.total_layers l)%nat.
Proof. unfold Laws.total_layers. cbn [flat_map]. now rewrite length_app. Qed.

Lemma assign_spec (maxLayers : nat) (allShards : list ModelShard.t) :
  forall (assignedShards : list ModelShard.t) (totalLayers : nat),
  exists k : nat,
    (k <= List.length allShards)%nat /\
    assign maxLayers allShards assignedShards totalLayers
    = (assignedShards ++ firstn k allShards,
       (totalLayers + Laws.total_layers (firstn k allShards))%nat) /\
    (k = List.length allShards
     \/ (maxLayers <= totalLayers + Laws.total_layers (firstn k allShards))%nat) /\
    (forall j, (j < k)%nat ->
               (totalLayers + Laws.total_layers (firstn j allShards) < maxLayers)%nat).
Proof.
  induction allShards as [|shard rest IH]; intros assigned total.
  - exists 0%nat. cbn [assign firstn List.length]. unfold Laws.total_layers. cbn.
    rewrite app_nil_r, Nat.add_0_r. repeat split; [lia | now left | lia].
  - cbn [assign]. destruct (Nat.leb_spec maxLayers total) as [Hle|Hlt].
    + exists 0%nat. cbn [firstn]. unfold Laws.total_layers. cbn.
      rewrite app_nil_r, Nat.add_0_r. repeat split; [lia | right; lia | lia].
    + destruct (IH (assigned ++ [shard]) (total + List.length (ModelShard.layers shard))%nat)
        as (k & Hk & Hassign & Hstop & Hmin).
      exists (S k). cbn [firstn List.length]. rewrite total_layers_cons.
      split; [lia|]. split; [|split].
      * rewrite Hassign, <- app_assoc. cbn [app]. f_equal. lia.
      * destruct Hstop as [-> | Hstop]; [now left | right; lia].
      * intros j Hj. destruct j as [|j].
        -- cbn [firstn]. unfold Laws.total_layers. cbn. lia.
        -- cbn [firstn]. rewrite total_layers_cons.
           specialize (Hmin j ltac:(lia)). lia.
Qed.

(** X22.  [createShardTask] assigns the shards from the beginning of the list, as
    few as reach the layer allocation: the assigned shards are the first [k]
    ones; [expectedLayers] is the number of their layers; either all shards
    are assigned or the allocation is reached; and no shorter beginning
    reaches the allocation (so the last assigned shard may carry the task
    beyond the allocation).  A shard is assigned whenever there is one. *)
Theorem createShardTask_assignment
        (host : ServerHost) (modelName modelVersion : string)
        (allShards : list ModelShard.t) (inputData : Float32ArrayView.t) (labels : list string)
        (difficulty : Difficulty) (clientCapability : Capability.t) :
  let task := createShardTask host modelName modelVersion allShards inputData labels
                              difficulty clientCapability in
  let allocation := maxLayers (getLayerAllocation difficulty clientCapability) in
  exists k : nat,
    ShardTask.shards task = firstn k allShards /\
    (k <= List.length allShards)%nat /\
    ShardTask.expectedLayers task = Laws.total_layers (ShardTask.shards task) /\
    (k = List.length allShards \/ (allocation <= ShardTask.expectedLayers task)%nat) /\
    (forall j, (j < k)%nat -> (Laws.total_layers (firstn j allShards) < allocation)%nat) /\
    (k = 0%nat <-> allShards = []).
Proof.
  intros task allocation.
  destruct (assign_spec allocation allShards [] 0) as (k & Hk & Hassign & Hstop & Hmin).
  cbn [app Nat.add] in Hassign, Hstop, Hmin.
  assert (Hshards : ShardTask.shards task = firstn k allShards /\
                    ShardTask.expectedLayers task = Laws.total_layers (firstn k allShards)).
  { unfold task, createShardTask. fold allocation. rewrite Hassign. now split. }
  destruct Hshards as (Hshards & Hexpected).
  exists k. rewrite Hshards, Hexpected. repeat split; try assumption.
  - intros ->. destruct Hstop as [Hall | Hreach].
    + destruct allShards; [reflexivity | discriminate Hall].
    + exfalso. unfold Laws.total_layers in Hreach. cbn in Hreach.
      unfold allocation in Hreach. destruct difficulty, clientCapability; cbn in Hreach; lia.
  - intros ->. cbn in Hk. lia.
Qed.

End TaskLaws.

Section RunLaws.

Import JS ShardInferenceEngine.
Context `{Platform}.




Lemma binary_string_bytes (arr : Float32ArrayView.t) :
  fold_left (fun binary b => (binary ++ string_of_list_byte [b])%string)
            (Float32ArrayView.buffer arr) EmptyString
  = Laws.binary_string arr.
Proof.
  unfold Laws.binary_string.
  assert (Hgen : forall (bytes : list Byte.byte) (acc : string),
             fold_left (fun binary b => (binary ++ string_of_list_byte [b])%string) bytes acc
             = (acc ++ string_of_list_byte bytes)%string).
  { induction bytes as [|b bytes IH]; intros acc; cbn [fold_left].
    - change (string_of_list_byte []) with EmptyString.
      induction acc as [|c acc IHacc]; [reflexivity|]. cbn [append]. now rewrite <- IHacc.
    - rewrite IH, string_app_assoc. reflexivity. }
  apply (Hgen _ EmptyString).
Qed.

Lemma createShardTask_inputData
      (host : ServerHost) (modelName modelVersion : string)
      (allShards : list ModelShard.t) (inputData : Float32ArrayView.t) (labels : list string)
      (difficulty : Difficulty) (clientCapability : Capability.t) :
  ShardTask.inputData
    (ModelSharding.createShardTask host modelName modelVersion allShards inputData labels
                                   difficulty clientCapability)
  = btoa host (Laws.binary_string inputData).
Proof.
  unfold ModelSharding.createShardTask.
  destruct (ModelSharding.assign _ _ _ _). cbn [ShardTask.inputData].
  unfold ModelSharding.float32ArrayToBase64. now rewrite binary_string_bytes.
Qed.

(** [decodeInput] reads back all the bytes that [float32ArrayToBase64]
    wrote when [atob] undoes [btoa]. *)
Lemma decodeInput_of_encoded (self : t) (host : ServerHost) (arr : Float32ArrayView.t)
      (shape : list nat) :
  atob (btoa host (Laws.binary_string arr)) = Some (Laws.binary_string arr) ->
  String.prefix "data:" (btoa host (Laws.binary_string arr)) = false ->
  decodeInput self (btoa host (Laws.binary_string arr)) shape
  = Laws.decoded (Float32ArrayView.buffer arr).
Proof.
  intros Hcodec Hplain.
  unfold decodeInput, strip_data_url_prefix. rewrite Hplain, Hcodec.
  unfold Laws.binary_string. rewrite list_byte_of_string_of_list_byte. reflexivity.
Qed.

(** A buffer of a multiple of 4 bytes holds an array of floats. *)
Lemma to_Float32Array_quarters (n : nat) :
  forall bytes : list Byte.byte,
    List.length bytes = (4 * n)%nat ->
    exists a, Buffer.to_Float32Array bytes = Some a.
Proof.
  induction n as [|n IH]; intros bytes Hlen.
  - destruct bytes; [now exists [] | discriminate Hlen].
  - destruct bytes as [|b0 [|b1 [|b2 [|b3 rest]]]]; cbn [List.length] in Hlen; try lia.
    destruct (IH rest) as (a & Ha); [lia|].
    cbn [Buffer.to_Float32Array]. rewrite Ha. eauto.
Qed.


(** An array that shows the whole of its buffer has the floats of the
    buffer as its elements. *)
Lemma spans_buffer_decoded (arr : Float32ArrayView.t) :
  Float32ArrayView.spans_buffer arr ->
  Laws.decoded (Float32ArrayView.buffer arr) = Normal (Float32ArrayView.elements arr).
Proof.
  intros (Hoffset & Hlength). unfold Laws.decoded, Float32ArrayView.elements.
  rewrite Hoffset, Hlength. cbn [skipn]. rewrite firstn_all.
  destruct (to_Float32Array_quarters (Float32ArrayView.length arr)
                                     (Float32ArrayView.buffer arr)) as (a & ->).
  - symmetry. exact Hlength.
  - reflexivity.
Qed.

Lemma of_Float32Array_length (a : Float32Array) :
  List.length (Buffer.of_Float32Array a) = (4 * List.length a)%nat.
Proof.
  unfold Buffer.of_Float32Array. induction a as [|w a IH]; [reflexivity|].
  cbn [flat_map]. rewrite length_app, IH. cbn [Buffer.word_bytes List.length]. lia.
Qed.

(** [new Float32Array(values)] shows the whole of its buffer, and its
    elements are the values. *)
Lemma from_spans_buffer (values : Float32Array) :
  Float32ArrayView.spans_buffer (Float32ArrayView.from values).
Proof.
  unfold Float32ArrayView.spans_buffer, Float32ArrayView.from, Float32ArrayView.byteLength.
  cbn [Float32ArrayView.byteOffset Float32ArrayView.length Float32ArrayView.buffer].
  split; [reflexivity|]. now rewrite of_Float32Array_length.
Qed.

Lemma from_elements (values : Float32Array) :
  Forall Laws.word32 values ->
  Float32ArrayView.elements (Float32ArrayView.from values) = values.
Proof.
  intros Hwords. unfold Float32ArrayView.elements, Float32ArrayView.from,
                   Float32ArrayView.byteLength.
  cbn [Float32ArrayView.byteOffset Float32ArrayView.length Float32ArrayView.buffer skipn].
  rewrite <- of_Float32Array_length, firstn_all.
  now rewrite (buffer_round_trip values Hwords).
Qed.

(** X24.  What the engine decodes from a created task is the whole buffer of
    the input array, not the array: when the platform's [atob] decodes what
    the host's [btoa] made of the buffer's bytes, and that text does not
    begin with 'data:', [decodeInput] returns the floats of all the bytes of
    [inputData.buffer] (a quarter as many floats as the buffer has bytes),
    or throws a RangeError when their number is not a multiple of 4,
    whatever shape the task declares.  It returns the elements of the array
    that [createShardTask] was given when the array shows the whole of its
    buffer, as an array made by [new Float32Array(values)] does; for a
    subarray of a longer array it returns the longer array. *)
Theorem createShardTask_input_round_trip
        (host : ServerHost) (modelName modelVersion : string)
        (allShards : list ModelShard.t) (inputData : Float32ArrayView.t)
        (labels : list string)
        (difficulty : Difficulty) (clientCapability : Capability.t) (self : t) :
  let task := ModelSharding.createShardTask host modelName modelVersion allShards inputData
                labels difficulty clientCapability in
  let decoded := decodeInput self (ShardTask.inputData task) (ShardTask.inputShape task) in
  atob (btoa host (Laws.binary_string inputData)) = Some (Laws.binary_string inputData) ->
  String.prefix "data:" (btoa host (Laws.binary_string inputData)) = false ->
  decoded = Laws.decoded (Float32ArrayView.buffer inputData) /\
  (forall output,
      decoded = Normal output ->
      List.length (Float32ArrayView.buffer inputData) = (4 * List.length output)%nat) /\
  (Float32ArrayView.spans_buffer inputData ->
   decoded = Normal (Float32ArrayView.elements inputData)) /\
  (forall values,
      inputData = Float32ArrayView.from values -> Forall Laws.word32 values ->
      decoded = Normal values).
Proof.
  intros task decoded Hcodec Hplain.
  assert (Hdec : decoded = Laws.decoded (Float32ArrayView.buffer inputData)).
  { unfold decoded, task. rewrite createShardTask_inputData.
    now apply decodeInput_of_encoded. }
  split; [exact Hdec|]. split; [|split].
  - intros output Hout. rewrite Hdec in Hout. unfold Laws.decoded in Hout.
    destruct (Buffer.to_Float32Array (Float32ArrayView.buffer inputData)) as [a|] eqn:Hbuf;
      [|discriminate Hout].
    injection Hout as <-.
    eapply to_Float32Array_length; [apply le_n | exact Hbuf].
  - intros Hspans. rewrite Hdec. now apply spans_buffer_decoded.
  - intros values -> Hwords. rewrite Hdec.
    rewrite (spans_buffer_decoded _ (from_spans_buffer values)).
    now rewrite (from_elements values Hwords).
Qed.


End RunLaws.


(** On the examples: the array [1, 2, 3, 4] with a buffer of its own comes
    back as it was; its like inside the buffer of [9, 1, 2, 3, 4, 9] comes
    back as the six elements of that buffer. *)
Lemma createShardTask_input_round_trip_witness :
  (let task :=
     ModelSharding.createShardTask ReferenceHost.host "test-model" "1.0"
       [Examples.shard_0; Examples.shard_1] MoreExamples.input_1234 ["zero"; "one"]%string
       easy Capability.low in
   ShardInferenceEngine.decodeInput (H := Reference.platform) Reference.engine
     (ShardTask.inputData task) (ShardTask.inputShape task)
   = JS.Normal Examples.input_1234) /\
  (let task :=
     ModelSharding.createShardTask ReferenceHost.host "test-model" "1.0"
       [Examples.shard_0; Examples.shard_1] MoreExamples.input_1234_inside
       ["zero"; "one"]%string easy Capability.low in
   Float32ArrayView.elements MoreExamples.input_1234_inside = Examples.input_1234 /\
   ShardInferenceEngine.decodeInput (H := Reference.platform) Reference.engine
     (ShardTask.inputData task) (ShardTask.inputShape task)
   = JS.Normal MoreExamples.input_9_1234_9).
Proof.
  split; intros task.
  - destruct (createShardTask_input_round_trip (H := Reference.platform)
                ReferenceHost.host "test-model" "1.0"
                [Examples.shard_0; Examples.shard_1] MoreExamples.input_1234
                ["zero"; "one"]%string
                easy Capability.low Reference.engine)
      as (_ & _ & _ & Hvalues).
    + vm_compute. reflexivity.
    + vm_compute. reflexivity.
    + apply (Hvalues Examples.input_1234); [reflexivity|].
      repeat constructor; vm_compute; intuition discriminate.
  - split; [reflexivity|].
    destruct (createShardTask_input_round_trip (H := Reference.platform)
                ReferenceHost.host "test-model" "1.0"
                [Examples.shard_0; Examples.shard_1] MoreExamples.input_1234_inside
                ["zero"; "one"]%string
                easy Capability.low Reference.engine)
      as (Hwhole & _).
    + vm_compute. reflexivity.
    + vm_compute. reflexivity.
    + exact Hwhole.
Defined.

Section AllocationLaws.

Import ModelSharding.

(** X26.  The layer allocation grows with the difficulty and with the client's
    capability: a harder difficulty or a more capable client is never given
    fewer layers or less expected time; the allocation lies between 1 and 10
    layers. *)
Theorem getLayerAllocation_monotone
        (d1 d2 : Difficulty) (c1 c2 : Capability.t) :
  (Laws.difficulty_rank d1 <= Laws.difficulty_rank d2)%nat ->
  (Laws.capability_rank c1 <= Laws.capability_rank c2)%nat ->
  (1 <= maxLayers (getLayerAllocation d1 c1) <= maxLayers (getLayerAllocation d2 c2))%nat /\
  (maxLayers (getLayerAllocation d2 c2) <= 10)%nat /\
  (expectedTimeMs (getLayerAllocation d1 c1) <=? expectedTimeMs (getLayerAllocation d2 c2))%float
  = true.
Proof.
  destruct d1, d2, c1, c2; cbn [Laws.difficulty_rank Laws.capability_rank];
    intros Hd Hc; try lia;
    (split; [cbn; lia | split; [cbn; lia | vm_compute; reflexivity]]).
Qed.

Lemma getLayerAllocation_monotone_witness :
  (1 <= maxLayers (getLayerAllocation easy Capability.medium)
   <= maxLayers (getLayerAllocation hard Capability.high))%nat.
Proof.
  refine (proj1 (getLayerAllocation_monotone easy hard Capability.medium Capability.high _ _)).
  - cbn. lia.
  - cbn. lia.
Defined.

End AllocationLaws.

(** ** Proof of work *)

Section PoWLaws.

Import JS PoW.
Context `{Platform}.

Lemma search_spec (hashOf : nat -> string) (limit : nat) :
  forall fuel nonce : nat,
    (limit - S nonce <= fuel)%nat ->
    let result := search hashOf limit fuel nonce in
    (nonce < snd result)%nat /\
    (snd result <= Nat.max limit (S nonce))%nat /\
    fst result = hashOf (snd result - 1)%nat /\
    (forall j, (nonce <= j < snd result - 1)%nat -> String.prefix prefix (hashOf j) = false) /\
    (String.prefix prefix (fst result) = true \/ (limit <= snd result)%nat).
Proof.
  induction fuel as [|fuel IH]; intros nonce Hfuel; cbn [search].
  - cbn [fst snd]. replace (S nonce - 1)%nat with nonce by lia.
    repeat split; [lia | lia | intros j Hj; lia | right; lia].
  - destruct (String.prefix prefix (hashOf nonce)) eqn:Hok; cbn [negb andb].
    + cbn [fst snd]. replace (S nonce - 1)%nat with nonce by lia.
      repeat split; [lia | lia | intros j Hj; lia | now left].
    + destruct (Nat.ltb_spec (S nonce) limit) as [Hlt|Hge].
      * destruct (IH (S nonce) ltac:(lia)) as (Hn & Hmax & Hhash & Hmin & Hstop).
        repeat split; [lia | lia | exact Hhash | | exact Hstop].
        intros j Hj. destruct (Nat.eq_dec j nonce) as [-> | Hne]; [exact Hok|].
        apply Hmin. lia.
      * cbn [fst snd]. replace (S nonce - 1)%nat with nonce by lia.
        repeat split; [lia | lia | intros j Hj; lia | right; lia].
Qed.

Lemma nonce_limit_positive : (1 <= nonce_limit)%nat.
Proof. unfold nonce_limit. lia. Qed.

(** The fields of the generated proof, from the result of the search. *)
Lemma generatePoWHash_fields (input : PoWInput.t) :
  let hashOf nonce :=
    Crypto.sha256
      (payload (PoWInput.modelChecksum input)
               (Crypto.sha256 (PoWInput.inputData input))
               (Crypto.sha256 (PoWInput.outputData input))
               (PoWInput.sessionId input) nonce) in
  let result := search hashOf nonce_limit nonce_limit 0 in
  generatePoWHash input =
    {| ProofOfWork.hash := fst result;
       ProofOfWork.nonce := snd result - 1;
       ProofOfWork.modelChecksum := PoWInput.modelChecksum input;
       ProofOfWork.inputHash := Crypto.sha256 (PoWInput.inputData input);
       ProofOfWork.outputHash := Crypto.sha256 (PoWInput.outputData input) |}.
Proof.
  cbv zeta. unfold generatePoWHash. now destruct (search _ _ _ _).
Qed.

(** A generated proof of work passes [verifyPoWHash] for the session it was
    made for exactly when its hash begins with '0', that is, when the search
    found a nonce; a proof that comes from an exhausted search is rejected. *)
Lemma generatePoWHash_verifies_iff_found (input : PoWInput.t) :
  verifyPoWHash (generatePoWHash input) (PoWInput.sessionId input)
  = String.prefix "0" (ProofOfWork.hash (generatePoWHash input)).
Proof.
  rewrite generatePoWHash_fields. cbv zeta. unfold verifyPoWHash.
  cbn [ProofOfWork.nonce ProofOfWork.hash ProofOfWork.modelChecksum
       ProofOfWork.inputHash ProofOfWork.outputHash].
  match goal with
  | |- context [search ?hashOf nonce_limit nonce_limit 0] =>
      destruct (search_spec hashOf nonce_limit nonce_limit 0 ltac:(lia))
        as (_ & _ & Hhash & _)
  end.
  rewrite <- Hhash. now rewrite String.eqb_refl.
Qed.

(** X27.  The proof of work carries the least nonce below 1000000 for which the
    hash of checksum:inputHash:outputHash:sessionId:nonce begins with '0',
    together with that hash; when there is no such nonce, it carries the
    nonce 999999 and its hash.  [verifyPoWHash] accepts the proof, for the
    session it was made for, exactly when its hash begins with '0': the
    proof of an exhausted search is rejected. *)
Theorem generatePoWHash_least_nonce (input : PoWInput.t) :
  let pow := generatePoWHash input in
  let hashOf nonce :=
    Crypto.sha256
      (payload (PoWInput.modelChecksum input)
               (Crypto.sha256 (PoWInput.inputData input))
               (Crypto.sha256 (PoWInput.outputData input))
               (PoWInput.sessionId input) nonce) in
  (ProofOfWork.nonce pow < nonce_limit)%nat /\
  ProofOfWork.hash pow = hashOf (ProofOfWork.nonce pow) /\
  (forall j, (j < ProofOfWork.nonce pow)%nat -> String.prefix "0" (hashOf j) = false) /\
  (String.prefix "0" (ProofOfWork.hash pow) = true
   \/ ProofOfWork.nonce pow = (nonce_limit - 1)%nat) /\
  verifyPoWHash pow (PoWInput.sessionId input) = String.prefix "0" (ProofOfWork.hash pow).
Proof.
  intros pow hashOf. pose proof nonce_limit_positive as Hpos.
  destruct (search_spec hashOf nonce_limit nonce_limit 0 ltac:(lia))
    as (Hn & Hmax & Hhash & Hmin & Hstop).
  split; [|split; [|split; [|split]]];
    try (unfold pow; apply generatePoWHash_verifies_iff_found);
    unfold pow; rewrite generatePoWHash_fields; fold hashOf;
    cbn [ProofOfWork.nonce ProofOfWork.hash] in *.
  - lia.
  - exact Hhash.
  - intros j Hj. apply Hmin. lia.
  - destruct Hstop as [Hok | Hend]; [now left | right; lia].
Qed.

End PoWLaws.

(** On the reference platform the search for the example input stops at
    nonce 3; the proof verifies for its session and for no other one tried. *)
Lemma pow_example :
  let pow := PoW.generatePoWHash (H := Reference.platform) MoreExamples.pow_input in
  ProofOfWork.nonce pow = 3%nat /\
  ProofOfWork.hash pow
  = "07446b04bee1d61772d6b5e866866ed946a64d159d62d2a7ca6451e205487ace"%string /\
  PoW.verifyPoWHash (H := Reference.platform) pow "session-1" = true /\
  PoW.verifyPoWHash (H := Reference.platform) pow "session-2" = false.
Proof. cbv zeta. repeat split; vm_compute; reflexivity. Qed.

(** ** Runtime selection *)

Section RuntimeLaws.

Import JS MLEngine.

Lemma RuntimeType_eqb_eq (a b : RuntimeType) : RuntimeType_eqb a b = true <-> a = b.
Proof. destruct a, b; cbn; split; intros E; (reflexivity || discriminate E). Qed.

Lemma includes_In (availableRuntimes : list RuntimeType) (r : RuntimeType) :
  includes availableRuntimes r = true <-> In r availableRuntimes.
Proof.
  unfold includes. rewrite existsb_exists. split.
  - intros (x & Hx & E). apply RuntimeType_eqb_eq in E. now subst.
  - intros Hin. exists r. split; [exact Hin | now apply RuntimeType_eqb_eq].
Qed.

Lemma includes_neither (availableRuntimes : list RuntimeType) :
  includes availableRuntimes tfjs = false ->
  includes availableRuntimes onnx = false ->
  availableRuntimes = [].
Proof.
  destruct availableRuntimes as [|r rest]; [reflexivity|].
  unfold includes. cbn [existsb]. destruct r; cbn; intros E1 E2; discriminate.
Qed.

Lemma selectRuntime_available (availableRuntimes : list RuntimeType) (config : ModelConfig.t) :
  match selectRuntime availableRuntimes config with
  | Normal runtime => In runtime availableRuntimes
  | Throw e => availableRuntimes = [] /\ e = Error "No ML runtime available"
  end.
Proof.
  unfold selectRuntime.
  assert (Hother :
    match (if endsWith (ModelConfig.url config) ".onnx" && includes availableRuntimes onnx
           then Normal onnx
           else if includes availableRuntimes tfjs then Normal tfjs
           else if includes availableRuntimes onnx then Normal onnx
           else Throw (Error "No ML runtime available")) with
    | Normal runtime => In runtime availableRuntimes
    | Throw e => availableRuntimes = [] /\ e = Error "No ML runtime available"
    end).
  { destruct (includes availableRuntimes onnx) eqn:Ho, (includes availableRuntimes tfjs) eqn:Ht,
      (endsWith (ModelConfig.url config) ".onnx"); cbn [andb];
      try (now apply includes_In).
    - split; [now apply includes_neither | reflexivity].
    - split; [now apply includes_neither | reflexivity]. }
  destruct (ModelConfig.preferredRuntime config) as [preferred|]; [|exact Hother].
  destruct (includes availableRuntimes preferred) eqn:Hp; [now apply includes_In | exact Hother].
Qed.

(** X28.  [selectRuntime] never selects a runtime that is not available, and it
    fails ('No ML runtime available') only when none is; a preferred
    runtime that is available is the one selected. *)
Theorem selectRuntime_selects_available
        (availableRuntimes : list RuntimeType) (config : ModelConfig.t) :
  match selectRuntime availableRuntimes config with
  | Normal runtime =>
      In runtime availableRuntimes /\
      match ModelConfig.preferredRuntime config with
      | Some preferred =>
          if includes availableRuntimes preferred then runtime = preferred else True
      | None => True
      end
  | Throw e => availableRuntimes = [] /\ e = Error "No ML runtime available"
  end.
Proof.
  pose proof (selectRuntime_available availableRuntimes config) as Havail.
  destruct (selectRuntime availableRuntimes config) as [runtime|e] eqn:Hsel;
    [|exact Havail].
  split; [exact Havail|].
  unfold selectRuntime in Hsel.
  destruct (ModelConfig.preferredRuntime config) as [preferred|]; [|exact I].
  destruct (includes availableRuntimes preferred); [|exact I].
  now injection Hsel.
Qed.

Lemma getFallbackRuntime_other (availableRuntimes : list RuntimeType)
      (currentRuntime fallback : RuntimeType) :
  getFallbackRuntime availableRuntimes currentRuntime = Some fallback ->
  fallback <> currentRuntime /\ In fallback availableRuntimes.
Proof.
  unfold getFallbackRuntime.
  destruct (includes availableRuntimes
              (if RuntimeType_eqb currentRuntime tfjs then onnx else tfjs)) eqn:Hin;
    [|discriminate].
  intros [= <-]. split; [destruct currentRuntime; discriminate | now apply includes_In].
Qed.

Lemma getFallbackRuntime_none (availableRuntimes : list RuntimeType)
      (currentRuntime r : RuntimeType) :
  getFallbackRuntime availableRuntimes currentRuntime = None ->
  In r availableRuntimes -> r = currentRuntime.
Proof.
  unfold getFallbackRuntime.
  destruct (includes availableRuntimes
              (if RuntimeType_eqb currentRuntime tfjs then onnx else tfjs)) eqn:Hin;
    [discriminate|].
  intros _ Hr. apply includes_In in Hr.
  destruct currentRuntime, r; cbn in Hin; try reflexivity; congruence.
Qed.

Variable MLModel : Type.
Variable runtime_loadModel : RuntimeType -> ModelConfig.t -> Completion MLModel.

(** X29.  [loadModel] tries available runtimes only, each at most once; it returns
    the model of the last runtime tried when that one loads, and it fails
    only when every available runtime has been tried and has failed (or
    none is available). *)
Theorem loadModel_tries_every_available_runtime
        (availableRuntimes : list RuntimeType) (config : ModelConfig.t) :
  let outcome := fst (loadModel MLModel runtime_loadModel availableRuntimes config) in
  let attempts := snd (loadModel MLModel runtime_loadModel availableRuntimes config) in
  NoDup attempts /\
  Forall (fun r => In r availableRuntimes) attempts /\
  Forall (fun r => exists e, runtime_loadModel r config = Throw e) (removelast attempts) /\
  match outcome with
  | Normal model =>
      exists r, last attempts r = r /\ In r attempts /\ runtime_loadModel r config = Normal model
  | Throw e =>
      Forall (fun r => In r attempts /\ exists e', runtime_loadModel r config = Throw e')
             availableRuntimes
  end.
Proof.
  intros outcome attempts. unfold outcome, attempts, loadModel. clear outcome attempts.
  pose proof (selectRuntime_available availableRuntimes config) as Hsel.
  destruct (selectRuntime availableRuntimes config) as [runtime|e].
  - rename Hsel into Hin.
    destruct (runtime_loadModel runtime config) as [model|failure] eqn:Hfirst.
    + cbn [fst snd removelast]. repeat split.
      * repeat constructor. intros [].
      * now repeat constructor.
      * constructor.
      * exists runtime. repeat split; [now left | exact Hfirst].
    + destruct (getFallbackRuntime availableRuntimes runtime) as [fallback|] eqn:Hfb.
      * apply getFallbackRuntime_other in Hfb. destruct Hfb as (Hne & Hfin).
        cbn [fst snd removelast]. unfold loadModelWithRuntime. repeat split.
        -- repeat constructor; cbn; intuition congruence.
        -- now repeat constructor.
        -- repeat constructor. eauto.
        -- destruct (runtime_loadModel fallback config) as [model|e2] eqn:Hsecond.
           ++ exists fallback. repeat split; [right; now left | exact Hsecond].
           ++ apply Forall_forall. intros r Hr.
              destruct runtime, fallback, r; try congruence;
                (split; [cbn; tauto | eauto]).
      * cbn [fst snd removelast]. repeat split.
        -- repeat constructor. intros [].
        -- now repeat constructor.
        -- constructor.
        -- apply Forall_forall. intros r Hr.
           rewrite (getFallbackRuntime_none availableRuntimes runtime r Hfb Hr).
           split; [now left | eauto].
  - destruct Hsel as (-> & _). cbn [fst snd removelast].
    repeat split; constructor.
Qed.

End RuntimeLaws.

(** ** The performance timer *)

Section TimerLaws.

Import JS PerformanceTimer.

Lemma Map_get_set_same (timers : t) (name : string) (value : timer) :
  Map_get (Map_set timers name value) name = Some value.
Proof.
  induction timers as [|[key old] rest IH]; cbn [Map_set Map_get].
  - now rewrite String.eqb_refl.
  - destruct (String.eqb key name) eqn:E; cbn [Map_get]; rewrite E; [reflexivity | exact IH].
Qed.

Lemma Map_get_set_other (timers : t) (name other : string) (value : timer) :
  other <> name ->
  Map_get (Map_set timers other value) name = Map_get timers name.
Proof.
  intros Hne. induction timers as [|[key old] rest IH]; cbn [Map_set Map_get].
  - destruct (String.eqb_spec other name); [contradiction | reflexivity].
  - destruct (String.eqb_spec key other) as [->|Hko]; cbn [Map_get].
    + destruct (String.eqb_spec other name); [contradiction | reflexivity].
    + now rewrite IH.
Qed.

Lemma run_call_other (name : string) (c : call) (self : t) (w : World) :
  name_of c <> name ->
  Map_get (fst (run_call (self, w) c)) name = Map_get self name /\
  performance_now (snd (run_call (self, w) c)) = performance_now w.
Proof.
  intros Hne. destruct c as [other|other|other|other]; cbn [name_of run_call] in *.
  - unfold start, read_performance_now. cbn [fst snd tick performance_now].
    split; [now apply Map_get_set_other | reflexivity].
  - unfold end_timer, read_performance_now.
    destruct (Map_get self other) as [timer|]; cbn [fst snd tick performance_now].
    + split; [now apply Map_get_set_other | reflexivity].
    + now split.
  - unfold get, read_performance_now.
    destruct (Map_get self other) as [timer|]; [|now split].
    destruct (timer_end timer) as [e|]; [destruct (truthy e)|]; now split.
  - now split.
Qed.

Lemma run_calls_other (name : string) (calls : list call) :
  Forall (fun c => name_of c <> name) calls ->
  forall st : t * World,
    Map_get (fst (run_calls calls st)) name = Map_get (fst st) name /\
    performance_now (snd (run_calls calls st)) = performance_now (snd st).
Proof.
  unfold run_calls. induction 1 as [|c calls Hc _ IH]; intros [self w]; [now split|].
  cbn [fold_left]. destruct (run_call_other name c self w Hc) as (Hget & Hclock).
  destruct (run_call (self, w) c) as [self' w'] eqn:Hrun. cbn [fst snd] in *.
  destruct (IH (self', w')) as (Hget' & Hclock'). cbn [fst snd] in *.
  split; congruence.
Qed.

(** X30.  The timers are independent, and an ended timer keeps its measure.  After
    [start(name)], whatever calls are made on timers of other names,
    [end(name)] returns the clock at the end minus the clock at the start;
    and after any further calls on other timers, [getStartTime(name)] is the
    rounded start and [get(name)] is that difference, rounded, without
    reading the clock.  The one exception is an end reading of 0 or NaN:
    the test [if (timer.end)] then takes the timer for a running one, and
    [get] measures up to the present reading. *)
Theorem timer_measures_elapsed
        (self : t) (name : string) (w : World) (between after : list call) :
  Forall (fun c => name_of c <> name) between ->
  Forall (fun c => name_of c <> name) after ->
  let started := run_calls between (start self name w) in
  let ended := end_timer (fst started) name (snd started) in
  let final := run_calls after (snd (fst ended), snd ended) in
  let startTime := performance_now w (ticks w) in
  let endTime := performance_now w (ticks (snd started)) in
  fst (fst ended) = Normal (endTime - startTime)%float /\
  getStartTime (fst final) name = Math_round startTime /\
  get (fst final) name (snd final) =
    if truthy endTime
    then (Math_round (endTime - startTime)%float, snd final)
    else (Math_round (performance_now w (ticks (snd final)) - startTime)%float,
          tick (snd final)).
Proof.
  intros Hbetween Hafter started ended final startTime endTime.
  destruct (run_calls_other name between Hbetween (start self name w)) as (Hget1 & Hclock1).
  fold started in Hget1, Hclock1.
  assert (Hstart : Map_get (fst started) name
                   = Some {| timer_start := startTime; timer_end := None |}).
  { rewrite Hget1. unfold start, read_performance_now. cbn [fst].
    apply Map_get_set_same. }
  assert (Hclock1' : performance_now (snd started) = performance_now w).
  { rewrite Hclock1. reflexivity. }
  assert (Hended : ended =
    (Normal (endTime - startTime)%float,
     Map_set (fst started) name {| timer_start := startTime; timer_end := Some endTime |},
     tick (snd started))).
  { unfold ended, end_timer, read_performance_now. rewrite Hstart.
    cbn [timer_start]. unfold endTime. now rewrite Hclock1'. }
  destruct (run_calls_other name after Hafter (snd (fst ended), snd ended))
    as (Hget2 & Hclock2).
  fold final in Hget2, Hclock2. rewrite Hended in Hget2, Hclock2. cbn [fst snd] in Hget2, Hclock2.
  rewrite Map_get_set_same in Hget2.
  split; [now rewrite Hended|]. split.
  - unfold getStartTime. now rewrite Hget2.
  - unfold get, read_performance_now. rewrite Hget2. cbn [timer_end timer_start].
    destruct (truthy endTime); [reflexivity|].
    rewrite Hclock2. cbn [tick performance_now]. now rewrite Hclock1'.
Qed.

End TimerLaws.

(** The timer 'total' of a run, started at the second clock reading and
    ended at the fifth: 750 ms, also when read later. *)
Lemma timer_measures_elapsed_witness :
  let between := [PerformanceTimer.Start "init"; PerformanceTimer.End_timer "init"]%string in
  let after := [PerformanceTimer.Get "inference"; PerformanceTimer.Start "pow"]%string in
  let started :=
    PerformanceTimer.run_calls between
      (PerformanceTimer.start PerformanceTimer.new "total" MoreExamples.ticking_world) in
  let ended := PerformanceTimer.end_timer (fst started) "total" (snd started) in
  let final := PerformanceTimer.run_calls after (snd (fst ended), snd ended) in
  fst (fst ended) = JS.Normal 750%float /\
  fst (PerformanceTimer.get (fst final) "total" (snd final)) = 750%float.
Proof.
  intros between after started ended final.
  destruct (timer_measures_elapsed PerformanceTimer.new "total" MoreExamples.ticking_world
              between after) as (Hend & _ & Hget).
  - repeat constructor; discriminate.
  - repeat constructor; discriminate.
  - fold started ended final in Hend, Hget. split.
    + rewrite Hend. vm_compute. reflexivity.
    + rewrite Hget. vm_compute. reflexivity.
Defined.
